(** * mtool: the target-size media compression engine

    A shallow embedding of [src/mtool/image/compress.py] and
    [src/mtool/video/compress.py]: the two [by-percent] and the two
    [to-size] commands, the probes they call and the loops they run.

    - Python [int] is [Z]; Python [float] is the kernel's binary64 [float],
      so that the arithmetic of the source ([/], [*], [int(...)],
      [math.sqrt]) is computed with the roundings the interpreter performs.
    - The file system is a finite map from paths to file contents.
    - The commands run in a state-and-exception monad over a [world] made
      of the file system and the chronological log of what the command
      printed and of the calls it made to the codecs and to [os].
    - The codecs (Pillow, ffprobe, ffmpeg) are external: they are the
      variables of the section [Engine]. *)

From Stdlib Require Import ZArith Floats Ascii String List Lia Bool.
From stdpp Require Import gmap strings.
Import ListNotations.
Open Scope Z_scope.

(** ** Python exceptions and results *)

Inductive exn :=
| FileNotFoundError
| ZeroDivisionError
| OverflowError
| ValueError
| UnboundLocalError
| UnidentifiedImageError
| CodecError.

(** The result of running a piece of Python: it evaluates to a value, it
    raises, or the model's loop bound was too small (never the case for the
    commands, see [image_loop_fuel] and [video_loop_fuel]). *)
Inductive outcome (A : Type) :=
| Normal (a : A)
| Raised (e : exn)
| OutOfFuel.
Arguments Normal {A} a.
Arguments Raised {A} e.
Arguments OutOfFuel {A}.

(** The result of a computation that touches nothing: a value or an
    exception. *)
Inductive result (A : Type) :=
| Ok (a : A)
| Error (e : exn).
Arguments Ok {A} a.
Arguments Error {A} e.

Definition and_then {A B} (r : result A) (k : A -> result B) : result B :=
  match r with
  | Ok a => k a
  | Error e => Error e
  end.

(** ** Python numbers *)

Module Py.

(** [float(z)], rounded to nearest even. *)
Definition Z2F (z : Z) : float :=
  SF2Prim (binary_normalize prec emax z 0 false).

(** The integer part of a finite float, truncated towards zero. *)
Definition trunc (f : float) : option Z :=
  match Prim2SF f with
  | S754_zero _ => Some 0
  | S754_finite s m e =>
      let a := match e with
               | Z0 => Zpos m
               | Zpos p => Zpos m * 2 ^ Zpos p
               | Zneg p => Zpos m / 2 ^ Zpos p
               end in
      Some (if s then - a else a)
  | S754_infinity _ | S754_nan => None
  end.

(** [int(f)]: [OverflowError] on an infinity, [ValueError] on a NaN. *)
Definition int_of_float (f : float) : result Z :=
  match trunc f with
  | Some z => Ok z
  | None => if is_nan f then Error ValueError else Error OverflowError
  end.

(** [float(z)] as Python converts an [int] operand of a mixed operation:
    [OverflowError] when the integer is beyond the range of a double. *)
Definition float_of_int (z : Z) : result float :=
  let f := Z2F z in
  if is_infinity f then Error OverflowError else Ok f.

(** The exact comparison of an integer with a float ([None] on a NaN):
    Python compares the mathematical values, without converting the
    integer. *)
Definition Z_compare_float (z : Z) (f : float) : option comparison :=
  match Prim2SF f with
  | S754_zero _ => Some (z ?= 0)
  | S754_infinity s => Some (if s then Gt else Lt)
  | S754_nan => None
  | S754_finite s m e =>
      let v := if s then Zneg m else Zpos m in
      match e with
      | Z0 => Some (z ?= v)
      | Zpos p => Some (z ?= v * 2 ^ Zpos p)
      | Zneg p => Some (z * 2 ^ Zpos p ?= v)
      end
  end.

(** A Python number: the commands mix [int] and [float]. *)
Inductive num :=
| Int (z : Z)
| Float (f : float).

(** [a > b] *)
Definition gt (a b : num) : bool :=
  match a, b with
  | Int x, Int y => y <? x
  | Int x, Float g =>
      match Z_compare_float x g with Some Gt => true | _ => false end
  | Float f, Int y =>
      match Z_compare_float y f with Some Lt => true | _ => false end
  | Float f, Float g => PrimFloat.ltb g f
  end.

(** [a <= b] *)
Definition le (a b : num) : bool :=
  match a, b with
  | Int x, Int y => x <=? y
  | Int x, Float g =>
      match Z_compare_float x g with
      | Some Lt | Some Eq => true
      | _ => false
      end
  | Float f, Int y =>
      match Z_compare_float y f with
      | Some Gt | Some Eq => true
      | _ => false
      end
  | Float f, Float g => PrimFloat.leb f g
  end.

(** [a / b] on two integers: the correctly rounded quotient. The quotient
    is computed with 66 extra bits and a sticky bit, then rounded once. *)
Definition int_truediv (a b : Z) : result float :=
  if b =? 0 then Error ZeroDivisionError
  else
    let neg := xorb (a <? 0) (b <? 0) in
    let n := Z.abs a in
    let d := Z.abs b in
    let k := Z.log2 d + 66 in
    let q := (n * 2 ^ k) / d in
    let sticky := if (n * 2 ^ k) mod d =? 0 then 0 else 1 in
    let m := 2 * q + sticky in
    let f := SF2Prim (binary_normalize prec emax
                        (if neg then - m else m) (- (k + 1)) neg) in
    if is_infinity f then Error OverflowError else Ok f.

(** [a / b], true division. *)
Definition truediv (a b : num) : result float :=
  match a, b with
  | Int x, Int y => int_truediv x y
  | _, _ =>
      match (match a with Int x => float_of_int x | Float f => Ok f end),
            (match b with Int y => float_of_int y | Float g => Ok g end)
      with
      | Ok f, Ok g =>
          if is_zero g then Error ZeroDivisionError
          else Ok (PrimFloat.div f g)
      | Error e, _ => Error e
      | _, Error e => Error e
      end
  end.

(** [z * f] and [z - f] with an integer on the left. *)
Definition int_mul_float (z : Z) (f : float) : result float :=
  and_then (float_of_int z) (fun g => Ok (PrimFloat.mul g f)).

Definition int_sub_float (z : Z) (f : float) : result float :=
  and_then (float_of_int z) (fun g => Ok (PrimFloat.sub g f)).

(** [math.sqrt(f)]: [ValueError] on a negative argument. *)
Definition sqrt (f : float) : result float :=
  if PrimFloat.ltb f PrimFloat.zero then Error ValueError
  else Ok (PrimFloat.sqrt f).

End Py.

(** ** Python strings and paths *)

Module PyStr.

Definition lower_ascii (c : ascii) : ascii :=
  let n := nat_of_ascii c in
  if andb (Nat.leb 65 n) (Nat.leb n 90) then ascii_of_nat (n + 32) else c.

(** [s.lower()], on the ASCII letters: the suffixes that the commands test
    are ASCII. *)
Fixpoint lower (s : string) : string :=
  match s with
  | EmptyString => EmptyString
  | String c s' => String (lower_ascii c) (lower s')
  end.

Fixpoint rev_onto (s acc : string) : string :=
  match s with
  | EmptyString => acc
  | String c s' => rev_onto s' (String c acc)
  end.

Definition rev (s : string) : string := rev_onto s EmptyString.

(** [s.endswith(suffix)] *)
Definition endswith (s suffix : string) : bool :=
  String.prefix (rev suffix) (rev s).

Fixpoint replace_scan (old new : string) (skip : nat) (s : string) : string :=
  match s with
  | EmptyString => EmptyString
  | String c s' =>
      match skip with
      | S k => replace_scan old new k s'
      | O =>
          if String.prefix old s
          then new ++ replace_scan old new (Nat.pred (String.length old)) s'
          else String c (replace_scan old new O s')
      end
  end.

Fixpoint interleave (new s : string) : string :=
  match s with
  | EmptyString => new
  | String c s' => new ++ String c (interleave new s')
  end.

(** [s.replace(old, new)]: every occurrence, left to right, without
    overlap; an empty [old] matches before every character and at the
    end. *)
Definition replace (s old new : string) : string :=
  match old with
  | EmptyString => interleave new s
  | _ => replace_scan old new O s
  end.

(** The characters of [s] before the first [c], and whether [c] occurs. *)
Fixpoint break_at (c : ascii) (s : string) : string * option string :=
  match s with
  | EmptyString => (EmptyString, None)
  | String a s' =>
      if Ascii.eqb a c then (EmptyString, Some s')
      else let '(pre, post) := break_at c s' in (String a pre, post)
  end.

Fixpoint all_dots (s : string) : bool :=
  match s with
  | EmptyString => true
  | String a s' => andb (Ascii.eqb a ".") (all_dots s')
  end.

(** [os.path.splitext(p)[1]] on a POSIX path: the extension starts at the
    last dot of the last component, unless only dots precede it there. *)
Definition splitext_ext (p : string) : string :=
  let '(rbase, _) := break_at "/" (rev p) in
  match break_at "." rbase with
  | (rext, Some rstem) =>
      if all_dots rstem then EmptyString else String "." (rev rext)
  | (_, None) => EmptyString
  end.

End PyStr.

(** ** The world: file system and log *)

(** The contents of a file. *)
Abbreviation bytes := (list Byte.byte).

Definition size_of (d : bytes) : Z := Z.of_nat (List.length d).

(** Pillow images, kept symbolic: an image is the history of the calls that
    produced it, and only its dimensions are interpreted. *)
Inductive image :=
| Decoded (data : bytes) (w h : Z)
| Resized (src : image) (w h : Z)
| ConvertedRGB (src : image).

Fixpoint width (i : image) : Z :=
  match i with
  | Decoded _ w _ => w
  | Resized _ w _ => w
  | ConvertedRGB src => width src
  end.

Fixpoint height (i : image) : Z :=
  match i with
  | Decoded _ _ h => h
  | Resized _ _ h => h
  | ConvertedRGB src => height src
  end.

Inductive format := JPEG | WebP.

(** What an encoder did: it produced the output file, or it failed, maybe
    leaving a partial file behind. *)
Inductive encoded :=
| Encoded (data : bytes)
| EncodeFailed (leftover : option bytes).

(** ffprobe's JSON, as far as the commands read it. A key of the format
    section is absent, or holds text that [int()] / [float()] rejects, or
    holds a number. *)
Inductive field (A : Type) :=
| Absent
| Malformed
| Present (a : A).
Arguments Absent {A}.
Arguments Malformed {A}.
Arguments Present {A} a.

Record stream := { codec_type : option string }.
Record format_info := { bit_rate : field Z; duration : field float }.
Record video_info :=
  { streams : option (list stream); format_section : option format_info }.

(** What the commands print. The numbers are kept as computed, before the
    f-string formats them. *)
Inductive message :=
| MsgOriginalSize (size : Z)
| MsgTargetSize (target : Py.num)
| MsgIteration (n quality size : Z)
| MsgAttempt (n bitrate : Z)
| MsgResult (size : Z)
| MsgWarning (size : Z)
| MsgWarningLimit
| MsgFinalSize (size : Z)
| MsgActualReduction (percent : float)
| MsgAlreadySmaller (size : Z)
| MsgError (e : exn)
| MsgErrFileSize
| MsgErrVideoInfo
| MsgErrNoStream
| MsgErrFfmpeg.

(** What a command did, in order: [click.echo] on standard output and with
    [err=True], and the calls that reach outside the process. *)
Inductive event :=
| Echo (m : message)
| EchoErr (m : message)
| PilResize (w h : Z)
| PilSave (path : string) (fmt : format) (img : image) (quality : Z) (r : encoded)
| VideoEncode (input output : string) (target_bitrate : Z) (preset : string) (ok : bool)
| OsRemove (path : string)
| OsRename (src dst : string).

Record world := { fs : gmap string bytes; log : list event }.

Definition emit (e : event) (w : world) : world :=
  {| fs := fs w; log := log w ++ [e] |}.

Definition with_fs (f : gmap string bytes) (w : world) : world :=
  {| fs := f; log := log w |}.

(** ** The monad of the commands *)

Definition M (A : Type) : Type := world -> outcome A * world.

Definition ret {A} (a : A) : M A := fun w => (Normal a, w).

Definition bind {A B} (m : M A) (k : A -> M B) : M B :=
  fun w =>
    match m w with
    | (Normal a, w') => k a w'
    | (Raised e, w') => (Raised e, w')
    | (OutOfFuel, w') => (OutOfFuel, w')
    end.

Definition raise {A} (e : exn) : M A := fun w => (Raised e, w).

(** A computation that touches nothing, run inside a command. *)
Definition lift {A} (r : result A) : M A :=
  fun w =>
    match r with
    | Ok a => (Normal a, w)
    | Error e => (Raised e, w)
    end.

(** [try: body  except Exception as e: handler(e)] *)
Definition try_except {A} (body : M A) (handler : exn -> M A) : M A :=
  fun w =>
    match body w with
    | (Raised e, w') => handler e w'
    | r => r
    end.

Declare Scope py_scope.
Delimit Scope py_scope with py.
Notation "x <- m ;; k" := (bind m (fun x => k))
  (at level 100, m at next level, right associativity) : py_scope.
Notation "m ;; k" := (bind m (fun _ => k))
  (at level 100, right associativity) : py_scope.
Open Scope py_scope.


(** ** [click.echo] and [os] *)

Definition echo (m : message) : M unit := fun w => (Normal tt, emit (Echo m) w).
Definition echo_err (m : message) : M unit := fun w => (Normal tt, emit (EchoErr m) w).

(** [os.path.getsize(p)] *)
Definition getsize (p : string) : M Z :=
  fun w =>
    match fs w !! p with
    | Some d => (Normal (size_of d), w)
    | None => (Raised FileNotFoundError, w)
    end.

(** [os.path.exists(p)] *)
Definition path_exists (p : string) : M bool :=
  fun w => (Normal (bool_decide (is_Some (fs w !! p))), w).

(** [os.remove(p)] *)
Definition os_remove (p : string) : M unit :=
  fun w =>
    let w1 := emit (OsRemove p) w in
    match fs w !! p with
    | Some _ => (Normal tt, with_fs (delete p (fs w)) w1)
    | None => (Raised FileNotFoundError, w1)
    end.

(** [os.rename(src, dst)] *)
Definition os_rename (src dst : string) : M unit :=
  fun w =>
    let w1 := emit (OsRename src dst) w in
    match fs w !! src with
    | Some d => (Normal tt, with_fs (<[dst := d]> (delete src (fs w))) w1)
    | None => (Raised FileNotFoundError, w1)
    end.

(** [output or file]: [None] and the empty string are falsy. *)
Definition out_path (output : option string) (file : string) : string :=
  match output with
  | Some o => if String.eqb o "" then file else o
  | None => file
  end.

(** The file system after an encoder ran with output path [p]. *)
Definition after_encode (p : string) (r : encoded) (f : gmap string bytes)
  : gmap string bytes :=
  match r with
  | Encoded d => <[p := d]> f
  | EncodeFailed (Some d) => <[p := d]> f
  | EncodeFailed None => f
  end.

(** ** The loops *)

(** What one pass through the body of a [while] did. *)
Inductive ctl (S : Type) :=
| Continue (s : S)
| Break (s : S).
Arguments Continue {S} s.
Arguments Break {S} s.

(** [while cond(s): body], with [break]. The loops of the commands count
    their passes in the state, and [fuel] bounds the passes of the model. *)
Fixpoint while {S} (fuel : nat) (cond : S -> bool) (body : S -> M (ctl S))
    (s : S) : M S :=
  fun w =>
    if cond s then
      match fuel with
      | O => (OutOfFuel, w)
      | Datatypes.S fuel' =>
          match body s w with
          | (Normal (Continue s'), w') => while fuel' cond body s' w'
          | (Normal (Break s'), w') => (Normal s', w')
          | (Raised e, w') => (Raised e, w')
          | (OutOfFuel, w') => (OutOfFuel, w')
          end
      end
    else (Normal s, w).

(** How the image commands pick the encoder, from the file name. *)
Inductive kind := KJpeg | KPng | KWebp | KOther.

Definition file_kind (file : string) : kind :=
  let l := PyStr.lower file in
  if PyStr.endswith l ".jpg" || PyStr.endswith l ".jpeg" then KJpeg
  else if PyStr.endswith l ".png" then KPng
  else if PyStr.endswith l ".webp" then KWebp
  else KOther.

(** The local variables of the image loops. [temp_path] is unbound until
    the first pass. *)
Record istate := {
  img : image;
  quality : Z;
  current_size : Z;
  iterations : Z;
  temp_path : option string
}.

(** [quality = max(5, quality - step)] *)
Definition next_quality (step q : Z) : Z := Z.max 5 (q - step).

(** The local variables of the video loops. *)
Record vstate := {
  current_bitrate : Z;
  v_iterations : Z;
  temp_output : option string
}.

(** [if target_bitrate:] in [compress_video_ffmpeg]: the [-b:v] flag is
    passed for a non-zero bitrate only. *)
Definition bitrate_flag (target_bitrate : Z) : option Z :=
  if target_bitrate =? 0 then None else Some target_bitrate.

(** [original_size * (1 - reduction / 100)] *)
Definition percent_target (original_size reduction : Z) : result float :=
  and_then (Py.int_truediv reduction 100) (fun r =>
  and_then (Py.int_sub_float 1 r) (fun k =>
  Py.int_mul_float original_size k)).

Set Warnings "-inexact-float".

Section Engine.

(** Pillow: the size read from the header of a file ([None] when the file
    is not an image), and the encoder behind [img.save]. *)
Variable pil_header : bytes -> option (Z * Z).
Variable pil_save : format -> image -> Z -> encoded.

(** [ffprobe -print_format json -show_format -show_streams]: [None] when
    the tool is missing, exits with an error or prints no JSON. *)
Variable ffprobe : bytes -> option video_info.

(** [ffmpeg -i input -y [-b:v Nk] -preset P output], from the contents
    of the input, the output path, the bitrate flag and the preset. *)
Variable ffmpeg : bytes -> string -> option Z -> string -> encoded.

(** *** Image commands *)

(** [Image.open(file)] *)
Definition image_open (file : string) : M image :=
  fun w =>
    match fs w !! file with
    | None => (Raised FileNotFoundError, w)
    | Some d =>
        match pil_header d with
        | Some (w0, h0) => (Normal (Decoded d w0 h0), w)
        | None => (Raised UnidentifiedImageError, w)
        end
    end.

(** [img.save(path, fmt, quality=q, ...)] *)
Definition image_save (path : string) (fmt : format) (i : image) (q : Z)
  : M unit :=
  fun w =>
    let r := pil_save fmt i q in
    let w1 := emit (PilSave path fmt i q r)
                (with_fs (after_encode path r (fs w)) w) in
    match r with
    | Encoded _ => (Normal tt, w1)
    | EncodeFailed _ => (Raised CodecError, w1)
    end.

(** [img.resize((w, h), Image.Resampling.LANCZOS)], taken as total: the
    image stays symbolic, and what follows the call in the commands does
    not depend on its pixels. *)
Definition image_resize (i : image) (w h : Z) : M image :=
  fun wd => (Normal (Resized i w h), emit (PilResize w h) wd).

(** [int(dim * scale_factor)] *)
Definition scaled (dim : Z) (scale_factor : float) : result Z :=
  and_then (Py.int_mul_float dim scale_factor) Py.int_of_float.

Section ImageLoop.

(** [step] is 10 and [floor] is 50 in [compress_by_percent]; they are 8
    and 30 in [compress_to_size]. *)
Variables (step floor : Z).
Variables (file : string) (output : option string).
Variables (target_size : Py.num) (max_iterations : Z).

(** The encoding step of one pass: the path written, the image and the
    quality after it. *)
Definition image_encode (st : istate) : M (string * image * Z) :=
  let temp := (file ++ ".temp")%string in
  match file_kind file with
  | KJpeg =>
      image_save temp JPEG (img st) (quality st) ;;
      ret (temp, img st, quality st)
  | KPng =>
      if quality st <? floor then
        r <- lift (Py.truediv target_size (Py.Int (current_size st))) ;;
        scale_factor <- lift (Py.sqrt r) ;;
        new_width <- lift (scaled (width (img st)) scale_factor) ;;
        new_height <- lift (scaled (height (img st)) scale_factor) ;;
        i <- image_resize (img st) new_width new_height ;;
        ret (temp, i, 95)
      else
        let temp := PyStr.replace temp ".png" ".jpg" in
        let i := ConvertedRGB (img st) in
        image_save temp JPEG i (quality st) ;;
        ret (temp, i, quality st)
  | KWebp =>
      image_save temp WebP (img st) (quality st) ;;
      ret (temp, img st, quality st)
  | KOther =>
      let temp := PyStr.replace temp (PyStr.splitext_ext file) ".jpg" in
      let i := ConvertedRGB (img st) in
      image_save temp JPEG i (quality st) ;;
      ret (temp, i, quality st)
  end.

(** The body of the [while]. *)
Definition image_body (st : istate) : M (ctl istate) :=
  enc <- image_encode st ;;
  let '(temp, i, q) := enc in
  size <- getsize temp ;;
  echo (MsgIteration (iterations st + 1) q size) ;;
  if Py.le (Py.Int size) target_size then
    os_rename temp (out_path output file) ;;
    ret (Break {| img := i; quality := q; current_size := size;
                  iterations := iterations st; temp_path := Some temp |})
  else
    os_remove temp ;;
    ret (Continue {| img := i; quality := next_quality step q;
                     current_size := size;
                     iterations := iterations st + 1;
                     temp_path := Some temp |}).

(** [while current_size > target_size and iterations < max_iterations] *)
Definition image_cond (st : istate) : bool :=
  Py.gt (Py.Int (current_size st)) target_size
  && (iterations st <? max_iterations).

Definition image_loop (fuel : nat) (st : istate) : M istate :=
  while fuel image_cond image_body st.

(** [if current_size > target_size:] after the loop: the warning, and
    the rename of the last attempt if its file is still there. *)
Definition image_shortfall (st : istate) : M unit :=
  if Py.gt (Py.Int (current_size st)) target_size then
    echo (MsgWarning (current_size st)) ;;
    match temp_path st with
    | None => raise UnboundLocalError
    | Some temp =>
        e <- path_exists temp ;;
        if e then os_rename temp (out_path output file) else ret tt
    end
  else ret tt.

(** [with Image.open(file) as img:] up to the shortfall branch. *)
Definition image_run (original_size : Z) : M istate :=
  i <- image_open file ;;
  st <- image_loop (Z.to_nat max_iterations)
          {| img := i; quality := 95; current_size := original_size;
             iterations := 0; temp_path := None |} ;;
  image_shortfall st ;;
  ret st.

End ImageLoop.

(** [mtool image compress by-percent FILE REDUCTION] *)
Definition image_compress_by_percent (file : string) (reduction : Z)
    (output : option string) (max_iterations : Z) : M unit :=
  try_except
    (original_size <- getsize file ;;
     t <- lift (percent_target original_size reduction) ;;
     let target_size := Py.Float t in
     echo (MsgOriginalSize original_size) ;;
     echo (MsgTargetSize target_size) ;;
     image_run 10 50 file output target_size max_iterations original_size ;;
     final_size <- getsize (out_path output file) ;;
     a <- lift (Py.int_truediv (original_size - final_size) original_size) ;;
     echo (MsgFinalSize final_size) ;;
     echo (MsgActualReduction (PrimFloat.mul a (Py.Z2F 100))))
    (fun e => echo_err (MsgError e)).

(** [mtool image compress to-size FILE TARGET_SIZE_KB] *)
Definition image_compress_to_size (file : string) (target_size_kb : Z)
    (output : option string) (max_iterations : Z) : M unit :=
  try_except
    (original_size <- getsize file ;;
     let target_size := target_size_kb * 1024 in
     if original_size <=? target_size then
       echo (MsgAlreadySmaller original_size)
     else
       echo (MsgOriginalSize original_size) ;;
       echo (MsgTargetSize (Py.Int target_size)) ;;
       image_run 8 30 file output (Py.Int target_size) max_iterations
         original_size ;;
       final_size <- getsize (out_path output file) ;;
       echo (MsgFinalSize final_size))
    (fun e => echo_err (MsgError e)).

(** *** Video commands *)

(** [get_video_size]: the size, or 0 when [os.path.getsize] raises. *)
Definition get_video_size (file_path : string) : M Z :=
  try_except (getsize file_path) (fun _ => ret 0).

(** [get_video_info]: ffprobe's JSON, or [None]. *)
Definition get_video_info (file_path : string) : M (option video_info) :=
  fun w =>
    match fs w !! file_path with
    | Some d => (Normal (ffprobe d), w)
    | None => (Normal None, w)
    end.

(** [compress_video_ffmpeg(input_file, output_file, target_bitrate=...,
    preset=...)]: whether ffmpeg exited with status 0. *)
Definition compress_video_ffmpeg (input_file output_file : string)
    (target_bitrate : Z) (preset : string) : M bool :=
  fun w =>
    let r := match fs w !! input_file with
             | Some d => ffmpeg d output_file (bitrate_flag target_bitrate) preset
             | None => EncodeFailed None
             end in
    let ok := match r with Encoded _ => true | EncodeFailed _ => false end in
    (Normal ok,
     emit (VideoEncode input_file output_file target_bitrate preset ok)
       (with_fs (after_encode output_file r (fs w)) w)).

(** [if not video_info]: [None] and the empty dictionary are falsy. *)
Definition info_missing (vi : option video_info) : bool :=
  match vi with
  | None => true
  | Some {| streams := None; format_section := None |} => true
  | Some _ => false
  end.

(** The [for stream in video_info.get('streams', [])] loop: the first
    stream whose [codec_type] is ["video"]. *)
Definition is_video (s : stream) : bool :=
  match codec_type s with
  | Some t => String.eqb t "video"
  | None => false
  end.

Definition find_video_stream (vi : video_info) : option stream :=
  List.find is_video (default [] (streams vi)).

(** [int(video_info.get('format', {}).get('bit_rate', 0))] *)
Definition read_bit_rate (vi : video_info) : result Z :=
  match format_section vi with
  | None => Ok 0
  | Some f =>
      match bit_rate f with
      | Absent => Ok 0
      | Malformed => Error ValueError
      | Present b => Ok b
      end
  end.

(** [float(video_info.get('format', {}).get('duration', 1))] *)
Definition read_duration (vi : video_info) : result float :=
  match format_section vi with
  | None => Ok (Py.Z2F 1)
  | Some f =>
      match duration f with
      | Absent => Ok (Py.Z2F 1)
      | Malformed => Error ValueError
      | Present d => Ok d
      end
  end.

(** [int((original_size * 8) / duration)] *)
Definition estimate_bitrate (original_size : Z) (d : float) : result Z :=
  and_then (Py.truediv (Py.Int (original_size * 8)) (Py.Float d))
    Py.int_of_float.

(** The original bitrate: ffprobe's, or the estimate when it is 0. *)
Definition original_bitrate (vi : video_info) (original_size : Z)
  : result Z :=
  and_then (read_bit_rate vi) (fun b =>
  if b =? 0 then
    and_then (read_duration vi) (estimate_bitrate original_size)
  else Ok b).

(** [int(current_bitrate * (target_size / original_size))] *)
Definition target_bitrate_of (current : Z) (target_size : Py.num)
    (original_size : Z) : result Z :=
  and_then (Py.truediv target_size (Py.Int original_size)) (fun ratio =>
  and_then (Py.int_mul_float current ratio) Py.int_of_float).

(** [int(current_bitrate * decay)] *)
Definition decayed (decay : float) (current : Z) : result Z :=
  and_then (Py.int_mul_float current decay) Py.int_of_float.

Section VideoLoop.

(** [decay] is 0.8 in [compress_by_percent] and 0.75 in
    [compress_to_size]. *)
Variable decay : float.
Variables (file : string) (output : option string) (preset : string).
Variables (target_size : Py.num) (original_size max_iterations : Z).

(** [f"{file}.temp{os.path.splitext(file)[1]}"] *)
Definition temp_output_of : string :=
  (file ++ ".temp" ++ PyStr.splitext_ext file)%string.

(** The body of the [while]. *)
Definition video_body (st : vstate) : M (ctl vstate) :=
  let temp := temp_output_of in
  target_bitrate <-
    lift (target_bitrate_of (current_bitrate st) target_size original_size) ;;
  echo (MsgAttempt (v_iterations st + 1) target_bitrate) ;;
  ok <- compress_video_ffmpeg file temp target_bitrate preset ;;
  if ok then
    size <- get_video_size temp ;;
    echo (MsgResult size) ;;
    if Py.le (Py.Int size) target_size then
      os_rename temp (out_path output file) ;;
      ret (Break {| current_bitrate := current_bitrate st;
                    v_iterations := v_iterations st;
                    temp_output := Some temp |})
    else
      b <- lift (decayed decay (current_bitrate st)) ;;
      os_remove temp ;;
      ret (Continue {| current_bitrate := b;
                       v_iterations := v_iterations st + 1;
                       temp_output := Some temp |})
  else
    echo_err MsgErrFfmpeg ;;
    ret (Break {| current_bitrate := current_bitrate st;
                  v_iterations := v_iterations st;
                  temp_output := Some temp |}).

(** [while iterations < max_iterations] *)
Definition video_cond (st : vstate) : bool :=
  v_iterations st <? max_iterations.

Definition video_loop (fuel : nat) (st : vstate) : M vstate :=
  while fuel video_cond video_body st.

(** [if iterations >= max_iterations:] after the loop. *)
Definition video_shortfall (st : vstate) : M unit :=
  if max_iterations <=? v_iterations st then
    echo MsgWarningLimit ;;
    match temp_output st with
    | None => raise UnboundLocalError
    | Some temp =>
        e <- path_exists temp ;;
        if e then os_rename temp (out_path output file) else ret tt
    end
  else ret tt.

(** From the probe of the metadata to the end of the shortfall branch.
    The result tells whether the command went on to report the final
    size ([return] leaves it before). *)
Definition video_run : M bool :=
  video_info <- get_video_info file ;;
  if info_missing video_info then
    echo_err MsgErrVideoInfo ;; ret false
  else
    match video_info with
    | None => echo_err MsgErrVideoInfo ;; ret false
    | Some vi =>
        match find_video_stream vi with
        | None => echo_err MsgErrNoStream ;; ret false
        | Some _ =>
            b <- lift (original_bitrate vi original_size) ;;
            st <- video_loop (Z.to_nat max_iterations)
                    {| current_bitrate := b; v_iterations := 0;
                       temp_output := None |} ;;
            video_shortfall st ;;
            ret true
        end
    end.

End VideoLoop.

(** [mtool video compress by-percent FILE REDUCTION] *)
Definition video_compress_by_percent (file : string) (reduction : Z)
    (output : option string) (preset : string) (max_iterations : Z)
  : M unit :=
  try_except
    (original_size <- get_video_size file ;;
     if original_size =? 0 then echo_err MsgErrFileSize
     else
       t <- lift (percent_target original_size reduction) ;;
       let target_size := Py.Float t in
       echo (MsgOriginalSize original_size) ;;
       echo (MsgTargetSize target_size) ;;
       go <- video_run 0.8 file output preset target_size original_size
               max_iterations ;;
       if go then
         final_size <- get_video_size (out_path output file) ;;
         a <- lift (Py.int_truediv (original_size - final_size) original_size) ;;
         echo (MsgFinalSize final_size) ;;
         echo (MsgActualReduction (PrimFloat.mul a (Py.Z2F 100)))
       else ret tt)
    (fun e => echo_err (MsgError e)).

(** [mtool video compress to-size FILE TARGET_SIZE_MB] *)
Definition video_compress_to_size (file : string) (target_size_mb : Z)
    (output : option string) (preset : string) (max_iterations : Z)
  : M unit :=
  try_except
    (original_size <- get_video_size file ;;
     if original_size =? 0 then echo_err MsgErrFileSize
     else
       let target_size := target_size_mb * 1024 * 1024 in
       if original_size <=? target_size then
         echo (MsgAlreadySmaller original_size)
       else
         echo (MsgOriginalSize original_size) ;;
         echo (MsgTargetSize (Py.Int target_size)) ;;
         go <- video_run 0.75 file output preset (Py.Int target_size)
                 original_size max_iterations ;;
         if go then
           final_size <- get_video_size (out_path output file) ;;
           echo (MsgFinalSize final_size)
         else ret tt)
    (fun e => echo_err (MsgError e)).

End Engine.

(** A run starts on a file system, with nothing logged yet. *)
Definition start (f : gmap string bytes) : world := {| fs := f; log := [] |}.

(** ** Reading a log *)

(** The qualities announced by the passes of an image loop, in order. *)
Definition iteration_quality (e : event) : option Z :=
  match e with
  | Echo (MsgIteration _ q _) => Some q
  | _ => None
  end.

Definition iteration_qualities (l : list event) : list Z :=
  omap iteration_quality l.

(** The bitrates handed to [compress_video_ffmpeg], in order. *)
Definition encode_bitrate (e : event) : option Z :=
  match e with
  | VideoEncode _ _ b _ _ => Some b
  | _ => None
  end.

Definition encode_bitrates (l : list event) : list Z := omap encode_bitrate l.

Definition is_encode (e : event) : bool :=
  match e with
  | PilSave _ _ _ _ _ | VideoEncode _ _ _ _ _ => true
  | _ => false
  end.


Definition is_rename (e : event) : bool :=
  match e with
  | OsRename _ _ => true
  | _ => false
  end.

Definition is_remove (e : event) : bool :=
  match e with
  | OsRemove _ => true
  | _ => false
  end.

Definition is_echo (e : event) : bool :=
  match e with
  | Echo _ | EchoErr _ => true
  | _ => false
  end.

(** The warning of either family of commands. *)
Definition is_warning (e : event) : bool :=
  match e with
  | Echo (MsgWarning _) | Echo MsgWarningLimit => true
  | _ => false
  end.

(** The calls that change the file system. *)
Definition is_fs_event (e : event) : bool :=
  is_encode e || is_remove e || is_rename e.

(** ** Sample codecs and files *)

Module Fixtures.

(** A file of [n] bytes. *)
Definition blob (n : Z) : bytes := repeat Byte.x00 (Z.to_nat n).

(** A disk holding one file of [n] bytes. *)
Definition disk (name : string) (n : Z) : gmap string bytes :=
  {[ name := blob n ]}.

Definition header (d : bytes) : option (Z * Z) := Some (640, 480).

(** An image encoder that no quality brings under 800 bytes. *)
Definition stubborn_save (fmt : format) (i : image) (q : Z) : encoded :=
  Encoded (blob (800 + q)).

(** An image encoder that no quality brings under 2000 bytes. *)
Definition heavy_save (fmt : format) (i : image) (q : Z) : encoded :=
  Encoded (blob (2000 + q)).


(** An image encoder whose output is ten bytes per quality point. *)
Definition linear_save (fmt : format) (i : image) (q : Z) : encoded :=
  Encoded (blob (10 * q)).

(** ffprobe on a file with one audio and one video stream. *)
Definition probe (br : field Z) (d : field float) (_ : bytes)
  : option video_info :=
  Some {| streams := Some [ {| codec_type := Some "audio" |};
                            {| codec_type := Some "video" |} ];
          format_section := Some {| bit_rate := br; duration := d |} |}.

(** ffprobe is not installed. *)
Definition no_probe (_ : bytes) : option video_info := None.

(** A video encoder whose output is a fifth of the bitrate, in bytes. *)
Definition fifth_ffmpeg (_ : bytes) (_ : string) (b : option Z) (_ : string)
  : encoded :=
  Encoded (blob (default 4000 b / 5)).

(** A video encoder that no bitrate brings under 900 bytes. *)
Definition stubborn_ffmpeg (_ : bytes) (_ : string) (b : option Z)
    (_ : string) : encoded :=
  Encoded (blob 900).



End Fixtures.

(** * Vocabulary of the properties *)

(** [total m]: running [m] ends by a value or by an exception, never by
    the model running out of fuel. *)
Definition total {A} (m : M A) : Prop :=
  forall w, fst (m w) <> OutOfFuel.

(** What the encoding step of an image pass does, decided by the file name
    and the quality: it saves [i] as [fmt] at [temp], or it resizes. *)
Inductive plan :=
| PlanSave (temp : string) (fmt : format) (i : image)
| PlanResize.

Definition image_plan (floor : Z) (file : string) (st : istate) : plan :=
  let temp := (file ++ ".temp")%string in
  match file_kind file with
  | KJpeg => PlanSave temp JPEG (img st)
  | KPng =>
      if quality st <? floor then PlanResize
      else PlanSave (PyStr.replace temp ".png" ".jpg") JPEG
             (ConvertedRGB (img st))
  | KWebp => PlanSave temp WebP (img st)
  | KOther =>
      PlanSave (PyStr.replace temp (PyStr.splitext_ext file) ".jpg") JPEG
        (ConvertedRGB (img st))
  end.

(** The dimensions the resize branch computes:
    [int(img.width * sqrt(target_size / current_size))], and the same for
    the height. *)
Definition resize_dims (target_size : Py.num) (st : istate) : result (Z * Z) :=
  and_then (Py.truediv target_size (Py.Int (current_size st))) (fun r =>
  and_then (Py.sqrt r) (fun scale_factor =>
  and_then (scaled (width (img st)) scale_factor) (fun new_width =>
  and_then (scaled (height (img st)) scale_factor) (fun new_height =>
  Ok (new_width, new_height))))).

Section Steps.

Variable pil_save : format -> image -> Z -> encoded.
Variable ffmpeg : bytes -> string -> option Z -> string -> encoded.

Section ImageStep.

Variables (step floor : Z).
Variables (file : string) (output : option string).
Variable target_size : Py.num.

(** The state after a pass that measured [size] at [temp]. *)
Definition measured (st : istate) (temp : string) (i : image) (q size : Z)
    (rejected : bool) : istate :=
  {| img := i;
     quality := if rejected then next_quality step q else q;
     current_size := size;
     iterations := if rejected then iterations st + 1 else iterations st;
     temp_path := Some temp |}.

(** The ways one pass of an image loop goes. *)
Inductive image_step (st : istate) (w : world)
  : outcome (ctl istate) -> world -> Prop :=
| step_save_failed temp fmt i l w' :
    image_plan floor file st = PlanSave temp fmt i ->
    pil_save fmt i (quality st) = EncodeFailed l ->
    fs w' = after_encode temp (EncodeFailed l) (fs w) ->
    log w' = log w ++ [PilSave temp fmt i (quality st) (EncodeFailed l)] ->
    image_step st w (Raised CodecError) w'
| step_save_accept temp fmt i d w' :
    image_plan floor file st = PlanSave temp fmt i ->
    pil_save fmt i (quality st) = Encoded d ->
    Py.le (Py.Int (size_of d)) target_size = true ->
    fs w' = <[out_path output file := d]> (delete temp (<[temp := d]> (fs w))) ->
    log w' = log w ++ [PilSave temp fmt i (quality st) (Encoded d);
                       Echo (MsgIteration (iterations st + 1) (quality st)
                               (size_of d));
                       OsRename temp (out_path output file)] ->
    image_step st w
      (Normal (Break (measured st temp i (quality st) (size_of d) false))) w'
| step_save_reject temp fmt i d w' :
    image_plan floor file st = PlanSave temp fmt i ->
    pil_save fmt i (quality st) = Encoded d ->
    Py.le (Py.Int (size_of d)) target_size = false ->
    fs w' = delete temp (<[temp := d]> (fs w)) ->
    log w' = log w ++ [PilSave temp fmt i (quality st) (Encoded d);
                       Echo (MsgIteration (iterations st + 1) (quality st)
                               (size_of d));
                       OsRemove temp] ->
    image_step st w
      (Normal (Continue (measured st temp i (quality st) (size_of d) true))) w'
| step_resize_error e :
    image_plan floor file st = PlanResize ->
    resize_dims target_size st = Error e ->
    image_step st w (Raised e) w
| step_resize_unmeasured nw nh w' :
    image_plan floor file st = PlanResize ->
    resize_dims target_size st = Ok (nw, nh) ->
    fs w !! (file ++ ".temp")%string = None ->
    fs w' = fs w ->
    log w' = log w ++ [PilResize nw nh] ->
    image_step st w (Raised FileNotFoundError) w'
| step_resize_accept nw nh d w' :
    image_plan floor file st = PlanResize ->
    resize_dims target_size st = Ok (nw, nh) ->
    fs w !! (file ++ ".temp")%string = Some d ->
    Py.le (Py.Int (size_of d)) target_size = true ->
    fs w' = <[out_path output file := d]>
              (delete (file ++ ".temp")%string (fs w)) ->
    log w' = log w ++ [PilResize nw nh;
                       Echo (MsgIteration (iterations st + 1) 95 (size_of d));
                       OsRename (file ++ ".temp")%string (out_path output file)] ->
    image_step st w
      (Normal (Break (measured st (file ++ ".temp")%string
                        (Resized (img st) nw nh) 95 (size_of d) false))) w'
| step_resize_reject nw nh d w' :
    image_plan floor file st = PlanResize ->
    resize_dims target_size st = Ok (nw, nh) ->
    fs w !! (file ++ ".temp")%string = Some d ->
    Py.le (Py.Int (size_of d)) target_size = false ->
    fs w' = delete (file ++ ".temp")%string (fs w) ->
    log w' = log w ++ [PilResize nw nh;
                       Echo (MsgIteration (iterations st + 1) 95 (size_of d));
                       OsRemove (file ++ ".temp")%string] ->
    image_step st w
      (Normal (Continue (measured st (file ++ ".temp")%string
                           (Resized (img st) nw nh) 95 (size_of d) true))) w'.

End ImageStep.

Section VideoStep.

Variable decay : float.
Variables (file : string) (output : option string) (preset : string).
Variables (target_size : Py.num) (original_size : Z).

(** What ffmpeg does when asked for bitrate [b] in world [w]. *)
Definition encode_result (w : world) (b : Z) : encoded :=
  match fs w !! file with
  | Some d => ffmpeg d (temp_output_of file) (bitrate_flag b) preset
  | None => EncodeFailed None
  end.

Definition attempted (st : vstate) (b : Z) (advance : bool) : vstate :=
  {| current_bitrate := if advance then b else current_bitrate st;
     v_iterations := if advance then v_iterations st + 1 else v_iterations st;
     temp_output := Some (temp_output_of file) |}.

(** The ways one pass of a video loop goes. *)
Inductive video_step (st : vstate) (w : world)
  : outcome (ctl vstate) -> world -> Prop :=
| vstep_arith e :
    target_bitrate_of (current_bitrate st) target_size original_size = Error e ->
    video_step st w (Raised e) w
| vstep_failed b l w' :
    target_bitrate_of (current_bitrate st) target_size original_size = Ok b ->
    encode_result w b = EncodeFailed l ->
    fs w' = after_encode (temp_output_of file) (EncodeFailed l) (fs w) ->
    log w' = log w ++ [Echo (MsgAttempt (v_iterations st + 1) b);
                       VideoEncode file (temp_output_of file) b preset false;
                       EchoErr MsgErrFfmpeg] ->
    video_step st w (Normal (Break (attempted st 0 false))) w'
| vstep_accept b d w' :
    target_bitrate_of (current_bitrate st) target_size original_size = Ok b ->
    encode_result w b = Encoded d ->
    Py.le (Py.Int (size_of d)) target_size = true ->
    fs w' = <[out_path output file := d]>
              (delete (temp_output_of file)
                 (<[temp_output_of file := d]> (fs w))) ->
    log w' = log w ++ [Echo (MsgAttempt (v_iterations st + 1) b);
                       VideoEncode file (temp_output_of file) b preset true;
                       Echo (MsgResult (size_of d));
                       OsRename (temp_output_of file) (out_path output file)] ->
    video_step st w (Normal (Break (attempted st 0 false))) w'
| vstep_decay_error b d e w' :
    target_bitrate_of (current_bitrate st) target_size original_size = Ok b ->
    encode_result w b = Encoded d ->
    Py.le (Py.Int (size_of d)) target_size = false ->
    decayed decay (current_bitrate st) = Error e ->
    fs w' = <[temp_output_of file := d]> (fs w) ->
    log w' = log w ++ [Echo (MsgAttempt (v_iterations st + 1) b);
                       VideoEncode file (temp_output_of file) b preset true;
                       Echo (MsgResult (size_of d))] ->
    video_step st w (Raised e) w'
| vstep_reject b d b' w' :
    target_bitrate_of (current_bitrate st) target_size original_size = Ok b ->
    encode_result w b = Encoded d ->
    Py.le (Py.Int (size_of d)) target_size = false ->
    decayed decay (current_bitrate st) = Ok b' ->
    fs w' = delete (temp_output_of file) (<[temp_output_of file := d]> (fs w)) ->
    log w' = log w ++ [Echo (MsgAttempt (v_iterations st + 1) b);
                       VideoEncode file (temp_output_of file) b preset true;
                       Echo (MsgResult (size_of d));
                       OsRemove (temp_output_of file)] ->
    video_step st w (Normal (Continue (attempted st b' true))) w'.

End VideoStep.

End Steps.

(** ** The bitrate schedule *)

(** [current_bitrate] after [k] rejected candidates:
    [int(current_bitrate * decay)], [k] times from the original bitrate. *)
Fixpoint current_at (decay : float) (b0 : Z) (k : nat) : result Z :=
  match k with
  | O => Ok b0
  | S k' => and_then (current_at decay b0 k') (decayed decay)
  end.

(** The bitrates [bs], in the order of the calls of the encoder, are the
    scheduled ones: the [k]-th is
    [int(current_bitrate * (target_size / original_size))] for the
    [current_bitrate] that [k] decays leave. *)
Definition on_schedule (decay : float) (target_size : Py.num)
    (original_size b0 : Z) (bs : list Z) : Prop :=
  forall (k : nat) (b : Z),
    bs !! k = Some b ->
    exists cb, current_at decay b0 k = Ok cb
               /\ target_bitrate_of cb target_size original_size = Ok b.

(** ** What a piece of a command does to the world *)

(** [emits_only P m]: the events that [m] logs all satisfy [P]. *)
Definition emits_only (P : event -> bool) {A} (m : M A) : Prop :=
  forall w, exists evs, log (m w).2 = log w ++ evs /\ forallb P evs = true.

(** [keeps_fs m]: [m] leaves the file system as it was. *)
Definition keeps_fs {A} (m : M A) : Prop :=
  forall w, fs (m w).2 = fs w.

(** At each test of a video loop the encoder has been called on schedule,
    and [current_bitrate] is the scheduled one for the next call. *)
Definition schedule_inv (decay : float) (target_size : Py.num)
    (original_size b0 : Z) (st : vstate) (w : world) : Prop :=
  on_schedule decay target_size original_size b0 (encode_bitrates (log w))
  /\ current_at decay b0 (List.length (encode_bitrates (log w)))
     = Ok (current_bitrate st).

Definition not_encode (e : event) : bool := negb (is_encode e).

(** ** An aborted video run *)

(** The messages that close a run: the final size, the reduction, and the
    report of an exception. *)
Definition is_report (e : event) : bool :=
  match e with
  | Echo (MsgFinalSize _) | Echo (MsgActualReduction _)
  | EchoErr (MsgError _) => true
  | _ => false
  end.





Definition any_event (e : event) : bool := true.

(** [called w]: the video encoder has been called. *)
Definition called (w : world) : Prop := encode_bitrates (log w) <> [].

(** ** The quality schedule *)







(** ** Temporary candidates *)

(** A run ended by a commit or by the exhaustion of the cap: a candidate
    was renamed, or the warning was printed. *)
Definition committed_or_capped (l : list event) : bool :=
  existsb is_rename l || existsb is_warning l.

(** [no_leftover f out w]: apart from the destination [out], every path
    holds in [w] what it held in [f], or nothing: the run left no file of
    its own behind. *)
Definition no_leftover (f : gmap string bytes) (out : string) (w : world)
  : Prop :=
  forall p, p <> out -> fs w !! p = f !! p \/ fs w !! p = None.

(** One candidate at a time, read off the log: [Some pending] while the
    calls are in order, with [pending] the candidate that was written and
    is not yet removed or renamed; [None] once a candidate is written
    while another is pending, or a file other than the pending candidate
    is removed. *)
Definition candidate_step (s : option (option string)) (e : event)
  : option (option string) :=
  match s with
  | None => None
  | Some pending =>
      match e with
      | PilSave p _ _ _ _ | VideoEncode _ p _ _ _ =>
          match pending with
          | None => Some (Some p)
          | Some _ => None
          end
      | OsRemove p =>
          match pending with
          | None => Some None
          | Some q => if String.eqb p q then Some None else None
          end
      | OsRename _ _ => Some None
      | _ => Some pending
      end
  end.

Definition candidates (l : list event) : option (option string) :=
  fold_left candidate_step l (Some None).

(** The events that neither write nor remove a candidate. *)
Definition harmless (e : event) : bool :=
  negb (is_encode e) && negb (is_remove e).

Definition quiet_event (e : event) : bool :=
  negb (is_rename e) && negb (is_warning e).

(** [quiet w]: nothing was renamed and no warning printed so far. *)
Definition quiet (w : world) : Prop :=
  existsb is_rename (log w) = false /\ existsb is_warning (log w) = false.

(** [settled f out w]: if the run that led from [f] to [w] committed or
    exhausted its cap, it left nothing behind. *)
Definition settled (f : gmap string bytes) (out : string) (w : world)
  : Prop :=
  committed_or_capped (log w) = true -> no_leftover f out w.

(** What holds at each test of a loop, for the files: nothing renamed, no
    warning, every path as in [f] or empty, the last candidate gone and
    the calls in order with no candidate pending. *)
Definition tidy (f : gmap string bytes) (temp : option string) (w : world)
  : Prop :=
  quiet w
  /\ (forall p, fs w !! p = f !! p \/ fs w !! p = None)
  /\ (forall t, temp = Some t -> fs w !! t = None)
  /\ candidates (log w) = Some None.

(** The files that the image commands re-encode as JPEG whatever they
    hold: the PNG files and those that are neither JPEG nor WebP. *)
Definition jpeg_only (file : string) : bool :=
  match file_kind file with
  | KPng | KOther => true
  | KJpeg | KWebp => false
  end.

(** [d] is a candidate that the encoder produced for [file]: on a file
    that is re-encoded, the JPEG encoding of an image converted to RGB. *)
Definition candidate_data (pil_save : format -> image -> Z -> encoded)
    (file : string) (d : bytes) : Prop :=
  exists fmt i q,
    pil_save fmt i q = Encoded d
    /\ (jpeg_only file = true -> fmt = JPEG /\ exists i0, i = ConvertedRGB i0).

(** The commit of an image command: [d] was accepted and renamed to the
    destination, and nothing else is left of the run. [d] is a candidate
    of the encoder, or the file that lay at [file ++ ".temp"] before the
    run and that the resize branch measured. *)
Definition image_commit (pil_save : format -> image -> Z -> encoded)
    (file : string) (output : option string) (target : Py.num)
    (f : gmap string bytes) (w' : world) : Prop :=
  exists d,
    fs w' !! out_path output file = Some d
    /\ no_leftover f (out_path output file) w'
    /\ Py.le (Py.Int (size_of d)) target = true
    /\ existsb is_warning (log w') = false
    /\ (candidate_data pil_save file d
        \/ f !! (file ++ ".temp")%string = Some d).

(** How an image loop is left: by its condition, tidy; by the [break] of
    an accepted candidate; or by an exception, before any rename or
    warning. *)
Definition image_loop_post (pil_save : format -> image -> Z -> encoded)
    (file : string) (output : option string) (target : Py.num)
    (f : gmap string bytes) (r : outcome istate) (w' : world) : Prop :=
  is_Some (candidates (log w'))
  /\ match r with
     | Normal st' =>
         tidy f (temp_path st') w'
         \/ (image_commit pil_save file output target f w'
             /\ Py.le (Py.Int (current_size st')) target = true)
     | Raised _ | OutOfFuel => quiet w'
     end.

(** How an image command ends: stopped by an exception before any rename
    or warning; or without a commit, every path as it was or empty; or by
    a commit. In each case the candidates were handled one at a time. *)
Definition image_final (pil_save : format -> image -> Z -> encoded)
    (file : string) (output : option string) (target : Py.num)
    (f : gmap string bytes) (w' : world) : Prop :=
  is_Some (candidates (log w'))
  /\ (quiet w'
      \/ (existsb is_rename (log w') = false
          /\ forall p, fs w' !! p = f !! p \/ fs w' !! p = None)
      \/ image_commit pil_save file output target f w').


(** The commit of a video command: [d] was accepted and renamed to the
    destination, and nothing else is left of the run. *)
Definition video_commit (file : string) (output : option string)
    (target : Py.num) (f : gmap string bytes) (w' : world) : Prop :=
  exists d,
    fs w' !! out_path output file = Some d
    /\ no_leftover f (out_path output file) w'
    /\ Py.le (Py.Int (size_of d)) target = true
    /\ existsb is_warning (log w') = false.

(** How a video loop is left: by its condition, tidy; below the cap, by
    the [break] of an accepted candidate or of a failed encode; or by an
    exception, before any rename or warning. *)
Definition video_loop_post (file : string) (output : option string)
    (target : Py.num) (max_iterations : Z) (f : gmap string bytes)
    (r : outcome vstate) (w' : world) : Prop :=
  is_Some (candidates (log w'))
  /\ match r with
     | Normal st' =>
         tidy f (temp_output st') w'
         \/ ((video_commit file output target f w' \/ quiet w')
             /\ v_iterations st' < max_iterations)
     | Raised _ | OutOfFuel => quiet w'
     end.

(** How a video command ends. *)
Definition video_final (file : string) (output : option string)
    (target : Py.num) (f : gmap string bytes) (w' : world) : Prop :=
  is_Some (candidates (log w'))
  /\ (quiet w'
      \/ (existsb is_rename (log w') = false
          /\ forall p, fs w' !! p = f !! p \/ fs w' !! p = None)
      \/ video_commit file output target f w').

(** * Vocabulary of the further properties *)

(** [frame E S m]: unless [m] logs an event of [E], it leaves every path
    outside [S] as it was. *)
Definition frame (E : event -> bool) (S : string -> Prop) {A} (m : M A)
  : Prop :=
  forall w, exists evs,
    log (m w).2 = log w ++ evs
    /\ (existsb E evs = false ->
        forall p, ~ S p -> fs (m w).2 !! p = fs w !! p).

Definition no_event (e : event) : bool := false.

(** The paths at which an image command writes its candidates, by the kind
    of the file: [file + ".temp"], and that path with the extension
    replaced by [".jpg"] where the command re-encodes. *)
Definition image_temps (file : string) : list string :=
  let temp := (file ++ ".temp")%string in
  match file_kind file with
  | KJpeg | KWebp => [temp]
  | KPng => [temp; PyStr.replace temp ".png" ".jpg"]
  | KOther => [PyStr.replace temp (PyStr.splitext_ext file) ".jpg"]
  end.

(** [frame_to E S Q m]: as [frame], and the value that [m] returns
    satisfies [Q]. *)
Definition frame_to (E : event -> bool) (S : string -> Prop) {A}
    (Q : A -> Prop) (m : M A) : Prop :=
  forall w, exists evs,
    log (m w).2 = log w ++ evs
    /\ (existsb E evs = false ->
        forall p, ~ S p -> fs (m w).2 !! p = fs w !! p)
    /\ forall a, (m w).1 = Normal a -> Q a.

(** The state of an image loop names a candidate path of the file. *)
Definition names_candidate (file : string) (st : istate) : Prop :=
  forall t, temp_path st = Some t -> In t (image_temps file).

Definition after_pass {St} (Q : St -> Prop) (c : ctl St) : Prop :=
  match c with
  | Continue s | Break s => Q s
  end.

(** The number of calls of an encoder ([img.save] or ffmpeg) in a log. *)
Definition encode_count (l : list event) : nat :=
  List.length (List.filter is_encode l).

(** [calls_at_most n m]: [m] calls the encoders [n] times at most. *)
Definition calls_at_most (n : nat) {A} (m : M A) : Prop :=
  forall w, exists evs,
    log (m w).2 = log w ++ evs /\ (encode_count evs <= n)%nat.

(** The world after the events [l], in order. *)
Definition emits (l : list event) (w : world) : world :=
  fold_left (fun w e => emit e w) l w.

(** ** How a run ends *)

(** An [img.save] that raised. *)
Definition is_failed_save (e : event) : bool :=
  match e with
  | PilSave _ _ _ _ (EncodeFailed _) => true
  | _ => false
  end.

(** Nothing was renamed and no [img.save] raised. *)
Definition uneventful (l : list event) : Prop :=
  existsb is_rename l = false /\ existsb is_failed_save l = false.

(** [final_act E P l]: one event of [E] is in [l], and only events of [P]
    follow it. *)
Definition final_act (E P : event -> bool) (l : list event) : Prop :=
  exists pre e post,
    l = pre ++ e :: post
    /\ E e = true /\ existsb E pre = false /\ forallb P post = true.

(** The run was stopped by an [img.save] that raised: that call is the
    last event, and the exception is on its way out. *)
Definition save_raised {A} (r : outcome A) (l : list event) : Prop :=
  r = Raised CodecError
  /\ exists pre e, l = pre ++ [e] /\ is_failed_save e = true /\ uneventful pre.

(** One rename, with messages only after it. *)
Definition renamed_last (l : list event) : Prop :=
  final_act is_rename is_echo l /\ existsb is_failed_save l = false.

Definition run_post {A} (r : outcome A) (w : world) : Prop :=
  uneventful (log w) \/ save_raised r (log w) \/ renamed_last (log w).

Definition run_inv {A} (m : M A) : Prop :=
  forall w, uneventful (log w) -> run_post (m w).1 (m w).2.

(** How a command ends: uneventful; or just after the report of the
    [img.save] that raised; or with one rename and messages after it. *)
Definition save_reported (l : list event) : Prop :=
  exists pre e,
    l = pre ++ [e; EchoErr (MsgError CodecError)]
    /\ is_failed_save e = true /\ uneventful pre.

Definition command_post (l : list event) : Prop :=
  uneventful l \/ save_reported l \/ renamed_last l.

(** ** The announcements of the passes *)

(** The number under which a pass is announced: ["Iteration n: ..."]. *)
Definition pass_number (e : event) : option Z :=
  match e with
  | Echo (MsgIteration n _ _) | Echo (MsgAttempt n _) => Some n
  | _ => None
  end.

Definition pass_numbers (l : list event) : list Z := omap pass_number l.

Definition not_pass (e : event) : bool :=
  match pass_number e with
  | Some _ => false
  | None => true
  end.

(** The numbers 1, 2, ..., [k]. *)
Definition counting (k : nat) : list Z := map Z.of_nat (seq 1 k).

(** [announces n m]: [m] announces its passes as 1, 2, ..., [k], for some
    [k] that is [n] at most. *)
Definition announces (n : nat) {A} (m : M A) : Prop :=
  forall w, exists evs k,
    log (m w).2 = log w ++ evs
    /\ (k <= n)%nat /\ pass_numbers evs = counting k.

(** What holds at each test of a loop that started in [w] with
    [iterations] at 0. *)
Definition numbered (w : world) (max_iterations iterations : Z) (w1 : world)
  : Prop :=
  exists evs,
    log w1 = log w ++ evs
    /\ 0 <= iterations
    /\ (iterations = 0 \/ iterations <= max_iterations)
    /\ pass_numbers evs = counting (Z.to_nat iterations).

Definition numbered_end (w : world) (max_iterations : Z) (w1 : world)
  : Prop :=
  exists evs k,
    log w1 = log w ++ evs
    /\ (k <= Z.to_nat max_iterations)%nat /\ pass_numbers evs = counting k.


(** ** The size that a command reports *)

(** The size printed by ["Final size: ..."]. *)
Definition final_size (e : event) : option Z :=
  match e with
  | Echo (MsgFinalSize n) => Some n
  | _ => None
  end.

Definition final_sizes (l : list event) : list Z := omap final_size l.

Definition not_final (e : event) : bool :=
  match final_size e with
  | Some _ => false
  | None => true
  end.

(** [reported measure out w]: the command printed no final size, or
    printed one, which is the size that [measure] finds at [out] in the
    file system it left. *)
Definition reported (measure : option bytes -> option Z) (out : string)
    (w : world) : Prop :=
  final_sizes (log w) = []
  \/ exists n, measure (fs w !! out) = Some n /\ final_sizes (log w) = [n].

Definition reports (measure : option bytes -> option Z) (out : string) {A}
    (m : M A) : Prop :=
  forall w, final_sizes (log w) = [] -> reported measure out (m w).2.

(** [os.path.getsize] of what lies at a path, and [get_video_size] of
    it: the first raises where the second returns 0. *)
Definition size_at (d : option bytes) : option Z := size_of <$> d.

Definition video_size_at (d : option bytes) : option Z :=
  Some (default 0 (size_of <$> d)).
(** * Properties *)

(** ** The monad *)

Lemma bind_normal {A B} (m : M A) (k : A -> M B) w a w' :
  m w = (Normal a, w') -> bind m k w = k a w'.
Proof. intros H. unfold bind. now rewrite H. Qed.

Lemma bind_raised {A B} (m : M A) (k : A -> M B) w e w' :
  m w = (Raised e, w') -> bind m k w = (Raised e, w').
Proof. intros H. unfold bind. now rewrite H. Qed.

Lemma lift_ok {A B} (r : result A) (k : A -> M B) a w :
  r = Ok a -> bind (lift r) k w = k a w.
Proof. intros ->. reflexivity. Qed.

Lemma lift_error {A B} (r : result A) (k : A -> M B) e w :
  r = Error e -> bind (lift r) k w = (Raised e, w).
Proof. intros ->. reflexivity. Qed.

(** ** The model never runs out of fuel *)

Lemma total_ret {A} (a : A) : total (ret a).
Proof. intros w. discriminate. Qed.

Lemma total_raise {A} e : total (@raise A e).
Proof. intros w. discriminate. Qed.

Lemma total_lift {A} (r : result A) : total (lift r).
Proof. intros w. destruct r; discriminate. Qed.

Lemma total_bind {A B} (m : M A) (k : A -> M B) :
  total m -> (forall a, total (k a)) -> total (bind m k).
Proof.
  intros Hm Hk w. unfold bind. specialize (Hm w).
  destruct (m w) as [[a | e |] w']; simpl in *.
  - apply Hk.
  - discriminate.
  - congruence.
Qed.

Lemma total_try_except {A} (body : M A) (handler : exn -> M A) :
  total body -> (forall e, total (handler e)) -> total (try_except body handler).
Proof.
  intros Hb Hh w. unfold try_except. specialize (Hb w).
  destruct (body w) as [[a | e |] w']; simpl in *.
  - discriminate.
  - apply Hh.
  - congruence.
Qed.

Lemma total_echo m : total (echo m).
Proof. intros w. discriminate. Qed.

Lemma total_echo_err m : total (echo_err m).
Proof. intros w. discriminate. Qed.

Lemma total_getsize p : total (getsize p).
Proof. intros w. unfold getsize. destruct (fs w !! p); discriminate. Qed.

Lemma total_path_exists p : total (path_exists p).
Proof. intros w. discriminate. Qed.

Lemma total_os_remove p : total (os_remove p).
Proof. intros w. unfold os_remove. destruct (fs w !! p); discriminate. Qed.

Lemma total_os_rename p q : total (os_rename p q).
Proof. intros w. unfold os_rename. destruct (fs w !! p); discriminate. Qed.

(** A loop whose passes decrease a measure ends within that many passes. *)
Lemma total_while {S} (cond : S -> bool) (body : S -> M (ctl S))
    (mu : S -> nat) :
  (forall s, cond s = true -> (0 < mu s)%nat) ->
  (forall s w s' w', cond s = true -> body s w = (Normal (Continue s'), w') ->
                     (mu s' < mu s)%nat) ->
  (forall s, total (body s)) ->
  forall fuel s, (mu s <= fuel)%nat -> total (while fuel cond body s).
Proof.
  intros Hpos Hdec Hbody fuel.
  induction fuel as [| fuel IH]; intros s Hle w; simpl.
  - destruct (cond s) eqn:Hc; [| discriminate].
    apply Hpos in Hc. lia.
  - destruct (cond s) eqn:Hc; [| discriminate].
    specialize (Hbody s w).
    destruct (body s w) as [[[s' | s'] | e |] w'] eqn:Hb; simpl in *.
    + apply IH. apply Hdec in Hb; [lia | exact Hc].
    + discriminate.
    + discriminate.
    + congruence.
Qed.

Create HintDb total.
#[export] Hint Resolve total_ret total_raise total_lift total_echo
  total_echo_err total_getsize total_path_exists total_os_remove
  total_os_rename : total.

Ltac total_step :=
  match goal with
  | |- total (bind _ _) => apply total_bind; [| intros ?]
  | |- total (try_except _ _) => apply total_try_except; [| intros ?]
  | |- total (if ?b then _ else _) => destruct b
  | |- total (match ?x with _ => _ end) => destruct x
  | |- total (let '(_, _) := ?x in _) => destruct x
  | |- total _ => solve [auto with total]
  end.

Ltac prove_total := repeat total_step.

Section Totality.

Variable pil_header : bytes -> option (Z * Z).
Variable pil_save : format -> image -> Z -> encoded.
Variable ffprobe : bytes -> option video_info.
Variable ffmpeg : bytes -> string -> option Z -> string -> encoded.

Lemma total_image_open file : total (image_open pil_header file).
Proof.
  intros w. unfold image_open.
  destruct (fs w !! file) as [d |]; [| discriminate].
  destruct (pil_header d) as [[? ?] |]; discriminate.
Qed.

Lemma total_image_save path fmt i q : total (image_save pil_save path fmt i q).
Proof. intros w. unfold image_save. destruct (pil_save fmt i q); discriminate. Qed.

Lemma total_image_resize i x y : total (image_resize i x y).
Proof. intros w. discriminate. Qed.

Lemma total_get_video_size p : total (get_video_size p).
Proof. unfold get_video_size. prove_total. Qed.

Lemma total_get_video_info p : total (get_video_info ffprobe p).
Proof. intros w. unfold get_video_info. destruct (fs w !! p); discriminate. Qed.

Lemma total_compress_video_ffmpeg i o b p :
  total (compress_video_ffmpeg ffmpeg i o b p).
Proof. intros w. discriminate. Qed.

#[local] Hint Resolve total_image_open total_image_save total_image_resize
  total_get_video_size total_get_video_info total_compress_video_ffmpeg
  : total.

Lemma total_image_body step floor file output target st :
  total (image_body pil_save step floor file output target st).
Proof. unfold image_body, image_encode. prove_total. Qed.

Lemma total_video_body decay file output preset target original st :
  total (video_body ffmpeg decay file output preset target original st).
Proof. unfold video_body. prove_total. Qed.

End Totality.

(** ** One pass of a loop *)

Section StepLemmas.

Variable pil_save : format -> image -> Z -> encoded.
Variable ffmpeg : bytes -> string -> option Z -> string -> encoded.

Lemma image_encode_save floor file target st temp fmt i w :
  image_plan floor file st = PlanSave temp fmt i ->
  image_encode pil_save floor file target st w
  = bind (image_save pil_save temp fmt i (quality st))
      (fun _ => ret (temp, i, quality st)) w.
Proof.
  unfold image_plan, image_encode.
  destruct (file_kind file); [| destruct (quality st <? floor) | |];
    intros H; inversion H; subst; reflexivity.
Qed.

Lemma image_encode_resize floor file target st w :
  image_plan floor file st = PlanResize ->
  image_encode pil_save floor file target st w
  = match resize_dims target st with
    | Ok (nw, nh) =>
        (Normal ((file ++ ".temp")%string, Resized (img st) nw nh, 95),
         emit (PilResize nw nh) w)
    | Error e => (Raised e, w)
    end.
Proof.
  unfold image_plan, image_encode, resize_dims.
  destruct (file_kind file); [| destruct (quality st <? floor) | |];
    intros H; inversion H.
  unfold bind, lift.
  destruct (Py.truediv target (Py.Int (current_size st))) as [r | e];
    simpl; [| reflexivity].
  destruct (Py.sqrt r) as [s | e]; simpl; [| reflexivity].
  destruct (scaled (width (img st)) s) as [nw | e]; simpl; [| reflexivity].
  destruct (scaled (height (img st)) s) as [nh | e]; simpl; reflexivity.
Qed.

(** Every pass of an image loop is one of the seven of [image_step]. *)
Lemma image_body_step step floor file output target st w r w' :
  image_body pil_save step floor file output target st w = (r, w') ->
  image_step pil_save step floor file output target st w r w'.
Proof.
  unfold image_body. intros Hb.
  destruct (image_plan floor file st) as [temp fmt i |] eqn:Hplan.
  - unfold bind at 1 in Hb.
    rewrite (image_encode_save _ _ _ _ _ _ _ _ Hplan) in Hb.
    unfold bind at 1, image_save in Hb.
    destruct (pil_save fmt i (quality st)) as [d | l] eqn:Hsave.
    + unfold ret at 1 in Hb. unfold bind at 1, getsize in Hb. simpl fs in Hb.
      rewrite lookup_insert_eq in Hb.
      unfold bind at 1, echo in Hb.
      destruct (Py.le (Py.Int (size_of d)) target) eqn:Hle.
      * unfold bind, os_rename in Hb. simpl fs in Hb.
        rewrite lookup_insert_eq in Hb. simpl in Hb.
        injection Hb as <- <-.
        eapply step_save_accept; eauto; simpl.
        now rewrite <- !app_assoc.
      * unfold bind, os_remove in Hb. simpl fs in Hb.
        rewrite lookup_insert_eq in Hb. simpl in Hb.
        injection Hb as <- <-.
        eapply step_save_reject; eauto; simpl.
        now rewrite <- !app_assoc.
    + simpl in Hb. injection Hb as <- <-.
      eapply step_save_failed; eauto.
  - unfold bind at 1 in Hb. rewrite (image_encode_resize _ _ _ _ _ Hplan) in Hb.
    destruct (resize_dims target st) as [[nw nh] | e] eqn:Hdims.
    + unfold bind at 1, getsize in Hb. simpl fs in Hb.
      destruct (fs w !! (file ++ ".temp")%string) as [d |] eqn:Hfs.
      * unfold bind at 1, echo in Hb.
        destruct (Py.le (Py.Int (size_of d)) target) eqn:Hle.
        -- unfold bind, os_rename in Hb. simpl fs in Hb. rewrite Hfs in Hb.
           simpl in Hb. injection Hb as <- <-.
           eapply step_resize_accept; eauto; simpl.
           now rewrite <- !app_assoc.
        -- unfold bind, os_remove in Hb. simpl fs in Hb. rewrite Hfs in Hb.
           simpl in Hb. injection Hb as <- <-.
           eapply step_resize_reject; eauto; simpl.
           now rewrite <- !app_assoc.
      * simpl in Hb. injection Hb as <- <-.
        eapply step_resize_unmeasured; eauto.
    + simpl in Hb. injection Hb as <- <-. now apply step_resize_error.
Qed.

(** Every pass of a video loop is one of the five of [video_step]. *)
Lemma video_body_step decay file output preset target original st w r w' :
  video_body ffmpeg decay file output preset target original st w = (r, w') ->
  video_step ffmpeg decay file output preset target original st w r w'.
Proof.
  unfold video_body. intros Hv.
  destruct (target_bitrate_of (current_bitrate st) target original)
    as [b | e] eqn:Hb.
  2:{ simpl in Hv. unfold bind, lift in Hv. injection Hv as <- <-.
      now apply vstep_arith. }
  unfold bind at 1, lift in Hv. unfold bind at 1, echo in Hv.
  unfold bind at 1, compress_video_ffmpeg in Hv. cbv zeta in Hv.
  cbn [fs with_fs emit] in Hv.
  pose proof (eq_refl (encode_result ffmpeg file preset w b)) as Henc.
  unfold encode_result at 2 in Henc.
  destruct (match fs w !! file with
            | Some d => ffmpeg d (temp_output_of file) (bitrate_flag b) preset
            | None => EncodeFailed None
            end) as [d | l] eqn:Hr.
  - unfold bind at 1, get_video_size, try_except, getsize in Hv.
    cbn [fs with_fs emit after_encode] in Hv. rewrite lookup_insert_eq in Hv.
    unfold bind at 1, echo in Hv.
    destruct (Py.le (Py.Int (size_of d)) target) eqn:Hle.
    + unfold bind, os_rename in Hv. simpl fs in Hv.
      rewrite lookup_insert_eq in Hv. simpl in Hv. injection Hv as <- <-.
      eapply vstep_accept; eauto; simpl.
      now rewrite <- !app_assoc.
    + destruct (decayed decay (current_bitrate st)) as [b' | e] eqn:Hd.
      * unfold bind, lift, os_remove in Hv. simpl fs in Hv.
        rewrite lookup_insert_eq in Hv. simpl in Hv. injection Hv as <- <-.
        eapply vstep_reject; eauto; simpl.
        now rewrite <- !app_assoc.
      * unfold bind, lift in Hv. simpl in Hv. injection Hv as <- <-.
        eapply vstep_decay_error; eauto; simpl.
        now rewrite <- !app_assoc.
  - unfold bind, echo_err, ret in Hv. simpl in Hv. injection Hv as <- <-.
    eapply vstep_failed; eauto; simpl.
    now rewrite <- !app_assoc.
Qed.

End StepLemmas.

(** ** Loops *)

(** The invariant rule of [while]: [I] holds at each test of the
    condition, [Q] of the way the loop is left. *)
Lemma while_rule {S} (cond : S -> bool) (body : S -> M (ctl S))
    (I : S -> world -> Prop) (Q : outcome S -> world -> Prop) :
  (forall s w, I s w -> cond s = false -> Q (Normal s) w) ->
  (forall s w, I s w -> cond s = true -> Q OutOfFuel w) ->
  (forall s w r w', I s w -> cond s = true -> body s w = (r, w') ->
     match r with
     | Normal (Continue s') => I s' w'
     | Normal (Break s') => Q (Normal s') w'
     | Raised e => Q (Raised e) w'
     | OutOfFuel => Q OutOfFuel w'
     end) ->
  forall fuel s w r w',
    I s w -> while fuel cond body s w = (r, w') -> Q r w'.
Proof.
  intros Hexit Hfuel Hbody fuel.
  induction fuel as [| fuel IH]; intros s w r w' HI Hrun; simpl in Hrun.
  - destruct (cond s) eqn:Hc.
    + injection Hrun as <- <-. now apply Hfuel with s.
    + injection Hrun as <- <-. now apply Hexit.
  - destruct (cond s) eqn:Hc.
    + destruct (body s w) as [rb wb] eqn:Hb.
      specialize (Hbody s w rb wb HI Hc Hb).
      destruct rb as [[s' | s'] | e |].
      * now apply IH with s' wb.
      * now injection Hrun as <- <-.
      * now injection Hrun as <- <-.
      * now injection Hrun as <- <-.
    + injection Hrun as <- <-. now apply Hexit.
Qed.

Section Fuel.

Variable pil_header : bytes -> option (Z * Z).
Variable pil_save : format -> image -> Z -> encoded.
Variable ffprobe : bytes -> option video_info.
Variable ffmpeg : bytes -> string -> option Z -> string -> encoded.

(** The fuel that [image_run] gives its loop is enough. *)
Lemma image_loop_fuel step floor file output target max_iterations fuel st :
  (Z.to_nat (max_iterations - iterations st) <= fuel)%nat ->
  total (image_loop pil_save step floor file output target max_iterations
           fuel st).
Proof.
  unfold image_loop.
  apply (total_while _ _ (fun s => Z.to_nat (max_iterations - iterations s))).
  - intros s Hc. unfold image_cond in Hc.
    apply andb_prop in Hc as [_ Hc]. apply Z.ltb_lt in Hc. lia.
  - intros s w s' w' Hc Hb. unfold image_cond in Hc.
    apply andb_prop in Hc as [_ Hc]. apply Z.ltb_lt in Hc.
    apply image_body_step in Hb. inversion Hb; subst; simpl; lia.
  - intros s. apply total_image_body.
Qed.

(** The fuel that [video_run] gives its loop is enough. *)
Lemma video_loop_fuel decay file output preset target original
    max_iterations fuel st :
  (Z.to_nat (max_iterations - v_iterations st) <= fuel)%nat ->
  total (video_loop ffmpeg decay file output preset target original
           max_iterations fuel st).
Proof.
  unfold video_loop.
  apply (total_while _ _ (fun s => Z.to_nat (max_iterations - v_iterations s))).
  - intros s Hc. unfold video_cond in Hc. apply Z.ltb_lt in Hc. lia.
  - intros s w s' w' Hc Hb. unfold video_cond in Hc. apply Z.ltb_lt in Hc.
    apply video_body_step in Hb. inversion Hb; subst; simpl; lia.
  - intros s. apply total_video_body.
Qed.

#[local] Hint Resolve total_image_open total_image_save total_image_resize
  total_get_video_size total_get_video_info total_compress_video_ffmpeg
  : total.

Lemma total_image_run step floor file output target max_iterations original :
  total (image_run pil_header pil_save step floor file output target
           max_iterations original).
Proof.
  unfold image_run. apply total_bind; [auto with total | intros i].
  apply total_bind.
  - apply image_loop_fuel. simpl. lia.
  - intros st. unfold image_shortfall. prove_total.
Qed.

Lemma total_video_run decay file output preset target original max_iterations :
  total (video_run ffprobe ffmpeg decay file output preset target original
           max_iterations).
Proof.
  unfold video_run. apply total_bind; [auto with total | intros vi].
  destruct (info_missing vi); [prove_total |].
  destruct vi as [vi |]; [| prove_total].
  destruct (find_video_stream vi); [| prove_total].
  apply total_bind; [auto with total | intros b].
  apply total_bind.
  - apply video_loop_fuel. simpl. lia.
  - intros st. unfold video_shortfall. prove_total.
Qed.

#[local] Hint Resolve total_image_run total_video_run : total.







End Fuel.

(** * The claims *)

(** ** Exit status *)



(** ** Cap exhaustion *)

(** C1 fails on the code. With a cap of 3 and every candidate above the
    target, each pass removes its candidate, the third included, before
    the cap is tested: when the warning is printed no candidate is left,
    [os.path.exists] is false, no rename happens and the destination still
    holds the source. The same goes for the video command. *)
Lemma cap_exhaustion_drops_last_candidate :
  let image :=
    image_compress_by_percent Fixtures.header Fixtures.stubborn_save
      "photo.jpg" 50 None 3 (start (Fixtures.disk "photo.jpg" 1000)) in
  let video :=
    video_compress_by_percent (Fixtures.probe (Present 8000) Absent)
      Fixtures.stubborn_ffmpeg "a.mp4" 50 None "medium" 3
      (start (Fixtures.disk "a.mp4" 1000)) in
  let i := Decoded (Fixtures.blob 1000) 640 480 in
  (filter is_fs_event (log image.2)
   = [PilSave "photo.jpg.temp" JPEG i 95 (Encoded (Fixtures.blob 895));
      OsRemove "photo.jpg.temp";
      PilSave "photo.jpg.temp" JPEG i 85 (Encoded (Fixtures.blob 885));
      OsRemove "photo.jpg.temp";
      PilSave "photo.jpg.temp" JPEG i 75 (Encoded (Fixtures.blob 875));
      OsRemove "photo.jpg.temp"]
   /\ In (Echo (MsgWarning 875)) (log image.2)
   /\ fs image.2 = Fixtures.disk "photo.jpg" 1000)
  /\ (filter is_fs_event (log video.2)
      = [VideoEncode "a.mp4" "a.mp4.temp.mp4" 4000 "medium" true;
         OsRemove "a.mp4.temp.mp4";
         VideoEncode "a.mp4" "a.mp4.temp.mp4" 3200 "medium" true;
         OsRemove "a.mp4.temp.mp4";
         VideoEncode "a.mp4" "a.mp4.temp.mp4" 2560 "medium" true;
         OsRemove "a.mp4.temp.mp4"]
      /\ In (Echo MsgWarningLimit) (log video.2)
      /\ fs video.2 = Fixtures.disk "a.mp4" 1000).
Proof. vm_compute. intuition. Qed.

(** ** The PNG fallback *)

(** C2 fails on the code. On a PNG whose candidates stay above the target
    the quality falls under the floor at the sixth pass of [by-percent]
    (the tenth of [to-size]); that pass resizes the image and resets the
    quality, but saves nothing: the measurement of the candidate raises,
    the command reports the error and stops. No candidate follows the
    resize. *)
Lemma png_fallback_stops_the_run :
  let by_percent :=
    image_compress_by_percent Fixtures.header Fixtures.stubborn_save
      "photo.png" 50 None 10 (start (Fixtures.disk "photo.png" 1000)) in
  let to_size :=
    image_compress_to_size Fixtures.header Fixtures.heavy_save
      "photo.png" 1 None 15 (start (Fixtures.disk "photo.png" 4000)) in
  (iteration_qualities (log by_percent.2) = [95; 85; 75; 65; 55]
   /\ List.length (filter is_encode (log by_percent.2)) = 5%nat
   /\ firstn 2 (List.rev (log by_percent.2))
      = [EchoErr (MsgError FileNotFoundError); PilResize 489 367]
   /\ fs by_percent.2 = Fixtures.disk "photo.png" 1000)
  /\ (iteration_qualities (log to_size.2)
      = [95; 87; 79; 71; 63; 55; 47; 39; 31]
      /\ List.length (filter is_encode (log to_size.2)) = 9%nat
      /\ firstn 2 (List.rev (log to_size.2))
         = [EchoErr (MsgError FileNotFoundError); PilResize 454 340]
      /\ fs to_size.2 = Fixtures.disk "photo.png" 4000).
Proof. vm_compute. intuition. Qed.

(** ** Reading logs *)

Lemma encode_bitrates_app l l' :
  encode_bitrates (l ++ l') = encode_bitrates l ++ encode_bitrates l'.
Proof. apply omap_app. Qed.


(** ** The bitrate schedule of the video loops *)

Section VideoSchedule.

Variable ffprobe : bytes -> option video_info.
Variable ffmpeg : bytes -> string -> option Z -> string -> encoded.
Variable decay : float.
Variables (file : string) (output : option string) (preset : string).
Variables (target : Py.num) (original max_iterations b0 : Z).

Lemma on_schedule_nil : on_schedule decay target original b0 [].
Proof. intros k b H. now rewrite lookup_nil in H. Qed.

Lemma on_schedule_snoc bs cb b :
  on_schedule decay target original b0 bs ->
  current_at decay b0 (List.length bs) = Ok cb ->
  target_bitrate_of cb target original = Ok b ->
  on_schedule decay target original b0 (bs ++ [b]).
Proof.
  intros Hs Hcb Hb k x Hk.
  destruct (decide (k < List.length bs)%nat) as [Hlt | Hge].
  - rewrite lookup_app_l in Hk by exact Hlt. now apply Hs.
  - rewrite lookup_app_r in Hk by lia.
    destruct (k - List.length bs)%nat as [| n] eqn:Hn; simpl in Hk.
    + injection Hk as <-. assert (k = List.length bs) as -> by lia.
      now exists cb.
    + now rewrite lookup_nil in Hk.
Qed.

Lemma video_loop_on_schedule fuel st w r w' :
  schedule_inv decay target original b0 st w ->
  video_loop ffmpeg decay file output preset target original max_iterations
    fuel st w = (r, w') ->
  on_schedule decay target original b0 (encode_bitrates (log w')).
Proof.
  unfold video_loop. intros HI Hrun.
  apply (while_rule _ _ (schedule_inv decay target original b0)
           (fun _ w => on_schedule decay target original b0
                         (encode_bitrates (log w))))
    with (4 := HI) (5 := Hrun).
  - intros s w0 [H _] _. exact H.
  - intros s w0 [H _] _. exact H.
  - clear. intros s w r w' [Hs Hc] _ Hb.
    apply video_body_step in Hb.
    inversion Hb as [e He | b l w1 Hb' _ _ Hlog | b d w1 Hb' _ _ _ Hlog
                     | b d e w1 Hb' _ _ _ _ Hlog | b d b' w1 Hb' _ _ Hd _ Hlog];
      subst.
    + exact Hs.
    + rewrite Hlog, encode_bitrates_app. simpl.
      eapply on_schedule_snoc; eauto.
    + rewrite Hlog, encode_bitrates_app. simpl.
      eapply on_schedule_snoc; eauto.
    + rewrite Hlog, encode_bitrates_app. simpl.
      eapply on_schedule_snoc; eauto.
    + unfold schedule_inv. rewrite Hlog, encode_bitrates_app. simpl. split.
      * eapply on_schedule_snoc; eauto.
      * rewrite length_app. simpl. rewrite Nat.add_1_r. simpl.
        now rewrite Hc.
Qed.

End VideoSchedule.

(** ** Running a command forward *)

Lemma bind_unfold {A B} (m : M A) (k : A -> M B) w :
  bind m k w = match m w with
               | (Normal a, w') => k a w'
               | (Raised e, w') => (Raised e, w')
               | (OutOfFuel, w') => (OutOfFuel, w')
               end.
Proof. reflexivity. Qed.

Lemma bind_ret {A B} (a : A) (k : A -> M B) w : bind (ret a) k w = k a w.
Proof. reflexivity. Qed.

Lemma bind_raise {A B} e (k : A -> M B) w :
  bind (raise e) k w = (Raised e, w).
Proof. reflexivity. Qed.

Lemma bind_bind {A B C} (m : M A) (k1 : A -> M B) (k2 : B -> M C) w :
  bind (bind m k1) k2 w = bind m (fun a => bind (k1 a) k2) w.
Proof. unfold bind. destruct (m w) as [[a | e |] w']; reflexivity. Qed.

Lemma bind_echo {B} m (k : unit -> M B) w :
  bind (echo m) k w = k tt (emit (Echo m) w).
Proof. reflexivity. Qed.

Lemma bind_echo_err {B} m (k : unit -> M B) w :
  bind (echo_err m) k w = k tt (emit (EchoErr m) w).
Proof. reflexivity. Qed.

Lemma bind_getsize_some {B} p d (k : Z -> M B) w :
  fs w !! p = Some d -> bind (getsize p) k w = k (size_of d) w.
Proof. intros H. unfold bind, getsize. now rewrite H. Qed.

Lemma bind_getsize_none {B} p (k : Z -> M B) w :
  fs w !! p = None -> bind (getsize p) k w = (Raised FileNotFoundError, w).
Proof. intros H. unfold bind, getsize. now rewrite H. Qed.

Lemma bind_get_video_size_some {B} p d (k : Z -> M B) w :
  fs w !! p = Some d -> bind (get_video_size p) k w = k (size_of d) w.
Proof.
  intros H. unfold bind, get_video_size, try_except, getsize. now rewrite H.
Qed.

Lemma bind_get_video_size_none {B} p (k : Z -> M B) w :
  fs w !! p = None -> bind (get_video_size p) k w = k 0 w.
Proof.
  intros H. unfold bind, get_video_size, try_except, getsize. now rewrite H.
Qed.

Lemma bind_path_exists {B} p (k : bool -> M B) w :
  bind (path_exists p) k w = k (bool_decide (is_Some (fs w !! p))) w.
Proof. reflexivity. Qed.

Lemma fs_emit e w : fs (emit e w) = fs w.
Proof. reflexivity. Qed.

Lemma log_emit e w : log (emit e w) = log w ++ [e].
Proof. reflexivity. Qed.

(** *** What a piece of a command may log *)

Lemma emits_only_ret P {A} (a : A) : emits_only P (ret a).
Proof. intros w. exists []. now rewrite app_nil_r. Qed.

Lemma emits_only_raise P {A} e : emits_only P (@raise A e).
Proof. intros w. exists []. now rewrite app_nil_r. Qed.

Lemma emits_only_lift P {A} (r : result A) : emits_only P (lift r).
Proof. intros w. destruct r; exists []; now rewrite app_nil_r. Qed.

Lemma emits_only_getsize P p : emits_only P (getsize p).
Proof.
  intros w. unfold getsize.
  destruct (fs w !! p); exists []; now rewrite app_nil_r.
Qed.

Lemma emits_only_path_exists P p : emits_only P (path_exists p).
Proof. intros w. exists []. now rewrite app_nil_r. Qed.

Lemma emits_only_echo (P : event -> bool) m :
  P (Echo m) = true -> emits_only P (echo m).
Proof. intros H w. exists [Echo m]. simpl. now rewrite H. Qed.

Lemma emits_only_echo_err (P : event -> bool) m :
  P (EchoErr m) = true -> emits_only P (echo_err m).
Proof. intros H w. exists [EchoErr m]. simpl. now rewrite H. Qed.

Lemma emits_only_os_rename (P : event -> bool) a b :
  P (OsRename a b) = true -> emits_only P (os_rename a b).
Proof.
  intros H w. exists [OsRename a b]. unfold os_rename.
  destruct (fs w !! a); simpl; now rewrite H.
Qed.

Lemma emits_only_os_remove (P : event -> bool) a :
  P (OsRemove a) = true -> emits_only P (os_remove a).
Proof.
  intros H w. exists [OsRemove a]. unfold os_remove.
  destruct (fs w !! a); simpl; now rewrite H.
Qed.

Lemma emits_only_bind P {A B} (m : M A) (k : A -> M B) :
  emits_only P m -> (forall a, emits_only P (k a)) -> emits_only P (bind m k).
Proof.
  intros Hm Hk w. unfold bind. destruct (Hm w) as (evs & Hlog & Hev).
  destruct (m w) as [[a | e |] w1]; simpl in *.
  - destruct (Hk a w1) as (evs' & Hlog' & Hev').
    exists (evs ++ evs').
    rewrite Hlog', Hlog, app_assoc, forallb_app, Hev, Hev'. now split.
  - now exists evs.
  - now exists evs.
Qed.

Lemma emits_only_try_except P {A} (body : M A) (handler : exn -> M A) :
  emits_only P body -> (forall e, emits_only P (handler e)) ->
  emits_only P (try_except body handler).
Proof.
  intros Hm Hk w. unfold try_except. destruct (Hm w) as (evs & Hlog & Hev).
  destruct (body w) as [[a | e |] w1]; simpl in *.
  - now exists evs.
  - destruct (Hk e w1) as (evs' & Hlog' & Hev').
    exists (evs ++ evs').
    rewrite Hlog', Hlog, app_assoc, forallb_app, Hev, Hev'. now split.
  - now exists evs.
Qed.

Lemma emits_only_get_video_size P p : emits_only P (get_video_size p).
Proof.
  unfold get_video_size. apply emits_only_try_except.
  - apply emits_only_getsize.
  - intros e. apply emits_only_ret.
Qed.

Ltac emits_step :=
  match goal with
  | |- emits_only _ (bind _ _) => apply emits_only_bind; [| intros ?]
  | |- emits_only _ (try_except _ _) => apply emits_only_try_except; [| intros ?]
  | |- emits_only _ (ret _) => apply emits_only_ret
  | |- emits_only _ (raise _) => apply emits_only_raise
  | |- emits_only _ (lift _) => apply emits_only_lift
  | |- emits_only _ (getsize _) => apply emits_only_getsize
  | |- emits_only _ (get_video_size _) => apply emits_only_get_video_size
  | |- emits_only _ (path_exists _) => apply emits_only_path_exists
  | |- emits_only _ (echo _) => apply emits_only_echo; reflexivity
  | |- emits_only _ (echo_err _) => apply emits_only_echo_err; reflexivity
  | |- emits_only _ (os_rename _ _) => apply emits_only_os_rename; reflexivity
  | |- emits_only _ (os_remove _) => apply emits_only_os_remove; reflexivity
  | |- emits_only _ (if ?b then _ else _) => destruct b
  | |- emits_only _ (match ?x with _ => _ end) => destruct x
  end.

Ltac prove_emits := repeat emits_step.

(** *** What leaves the file system alone *)

Lemma keeps_fs_ret {A} (a : A) : keeps_fs (ret a).
Proof. intros w. reflexivity. Qed.

Lemma keeps_fs_raise {A} e : keeps_fs (@raise A e).
Proof. intros w. reflexivity. Qed.

Lemma keeps_fs_lift {A} (r : result A) : keeps_fs (lift r).
Proof. intros w. now destruct r. Qed.

Lemma keeps_fs_getsize p : keeps_fs (getsize p).
Proof. intros w. unfold getsize. now destruct (fs w !! p). Qed.

Lemma keeps_fs_path_exists p : keeps_fs (path_exists p).
Proof. intros w. reflexivity. Qed.

Lemma keeps_fs_echo m : keeps_fs (echo m).
Proof. intros w. reflexivity. Qed.

Lemma keeps_fs_echo_err m : keeps_fs (echo_err m).
Proof. intros w. reflexivity. Qed.

Lemma keeps_fs_bind {A B} (m : M A) (k : A -> M B) :
  keeps_fs m -> (forall a, keeps_fs (k a)) -> keeps_fs (bind m k).
Proof.
  intros Hm Hk w. unfold bind. specialize (Hm w).
  destruct (m w) as [[a | e |] w1]; simpl in *; try exact Hm.
  now rewrite Hk.
Qed.

Lemma keeps_fs_try_except {A} (body : M A) (handler : exn -> M A) :
  keeps_fs body -> (forall e, keeps_fs (handler e)) ->
  keeps_fs (try_except body handler).
Proof.
  intros Hm Hk w. unfold try_except. specialize (Hm w).
  destruct (body w) as [[a | e |] w1]; simpl in *; try exact Hm.
  now rewrite Hk.
Qed.

Lemma keeps_fs_get_video_size p : keeps_fs (get_video_size p).
Proof.
  unfold get_video_size. apply keeps_fs_try_except.
  - apply keeps_fs_getsize.
  - intros e. apply keeps_fs_ret.
Qed.

Ltac keeps_step :=
  match goal with
  | |- keeps_fs (bind _ _) => apply keeps_fs_bind; [| intros ?]
  | |- keeps_fs (try_except _ _) => apply keeps_fs_try_except; [| intros ?]
  | |- keeps_fs (ret _) => apply keeps_fs_ret
  | |- keeps_fs (raise _) => apply keeps_fs_raise
  | |- keeps_fs (lift _) => apply keeps_fs_lift
  | |- keeps_fs (getsize _) => apply keeps_fs_getsize
  | |- keeps_fs (get_video_size _) => apply keeps_fs_get_video_size
  | |- keeps_fs (path_exists _) => apply keeps_fs_path_exists
  | |- keeps_fs (echo _) => apply keeps_fs_echo
  | |- keeps_fs (echo_err _) => apply keeps_fs_echo_err
  | |- keeps_fs (if ?b then _ else _) => destruct b
  | |- keeps_fs (match ?x with _ => _ end) => destruct x
  end.

Ltac prove_keeps := repeat keeps_step.

Lemma no_encode_no_bitrates evs :
  forallb not_encode evs = true -> encode_bitrates evs = [].
Proof.
  induction evs as [| e evs IH]; [reflexivity |]. simpl.
  intros H. apply andb_prop in H as [He H].
  destruct e; try discriminate; simpl; auto.
Qed.

Lemma emits_keeps_bitrates {A} (m : M A) w :
  emits_only not_encode m ->
  encode_bitrates (log (m w).2) = encode_bitrates (log w).
Proof.
  intros H. destruct (H w) as (evs & -> & Hev).
  now rewrite encode_bitrates_app, (no_encode_no_bitrates _ Hev), app_nil_r.
Qed.

Lemma bind_tail P {A B} (m : M A) (k : A -> M B) w :
  (forall a, emits_only P (k a)) ->
  exists evs, log (bind m k w).2 = log (m w).2 ++ evs
              /\ forallb P evs = true.
Proof.
  intros Hk. unfold bind.
  destruct (m w) as [[a | e |] w1]; simpl.
  - apply Hk.
  - exists []. now rewrite app_nil_r.
  - exists []. now rewrite app_nil_r.
Qed.

Lemma try_except_tail P {A} (body : M A) (handler : exn -> M A) w :
  (forall e, emits_only P (handler e)) ->
  exists evs, log (try_except body handler w).2 = log (body w).2 ++ evs
              /\ forallb P evs = true.
Proof.
  intros Hk. unfold try_except.
  destruct (body w) as [[a | e |] w1]; simpl.
  - exists []. now rewrite app_nil_r.
  - apply Hk.
  - exists []. now rewrite app_nil_r.
Qed.

Lemma handler_emits P e :
  P (EchoErr (MsgError e)) = true ->
  emits_only P (echo_err (MsgError e)).
Proof. apply emits_only_echo_err. Qed.

Section VideoCommands.

Variable ffprobe : bytes -> option video_info.
Variable ffmpeg : bytes -> string -> option Z -> string -> encoded.

Lemma video_shortfall_emits file output max_iterations st :
  emits_only not_encode (video_shortfall file output max_iterations st).
Proof. unfold video_shortfall. prove_emits. Qed.

Lemma video_run_on_schedule decay file output preset target original
    max_iterations w d vi b0 :
  encode_bitrates (log w) = [] ->
  fs w !! file = Some d ->
  ffprobe d = Some vi ->
  original_bitrate vi original = Ok b0 ->
  on_schedule decay target original b0
    (encode_bitrates
       (log (video_run ffprobe ffmpeg decay file output preset target
               original max_iterations w).2)).
Proof.
  intros Hnil Hfile Hvi Hb0.
  unfold video_run. rewrite bind_unfold. unfold get_video_info.
  rewrite Hfile, Hvi.
  destruct (info_missing (Some vi)).
  { simpl. rewrite encode_bitrates_app, Hnil. apply on_schedule_nil. }
  destruct (find_video_stream vi).
  2:{ simpl. rewrite encode_bitrates_app, Hnil. apply on_schedule_nil. }
  rewrite (lift_ok _ _ _ _ Hb0). rewrite bind_unfold.
  destruct (video_loop _ _ _ _ _ _ _ _ _ _ w) as [rl w2] eqn:Hloop.
  apply video_loop_on_schedule with (b0 := b0) in Hloop.
  2:{ split; rewrite Hnil; [apply on_schedule_nil | reflexivity]. }
  destruct rl as [st | e |]; simpl; try exact Hloop.
  rewrite emits_keeps_bitrates; [exact Hloop |].
  apply emits_only_bind; [apply video_shortfall_emits |].
  intros _. apply emits_only_ret.
Qed.

Lemma by_percent_on_schedule f file reduction output preset max_iterations
    d vi b0 t :
  f !! file = Some d ->
  ffprobe d = Some vi ->
  original_bitrate vi (size_of d) = Ok b0 ->
  percent_target (size_of d) reduction = Ok t ->
  on_schedule 0.8 (Py.Float t) (size_of d) b0
    (encode_bitrates
       (log (video_compress_by_percent ffprobe ffmpeg file reduction output
               preset max_iterations (start f)).2)).
Proof.
  intros Hfile Hvi Hb0 Ht.
  unfold video_compress_by_percent.
  match goal with
  | |- context [try_except ?b ?h ?w] =>
      destruct (try_except_tail not_encode b h w) as (evs & -> & Hev)
  end.
  { intros e. now apply handler_emits. }
  rewrite encode_bitrates_app, (no_encode_no_bitrates _ Hev), app_nil_r.
  rewrite (bind_get_video_size_some _ d) by exact Hfile.
  destruct (size_of d =? 0); [apply on_schedule_nil |].
  rewrite (lift_ok _ _ _ _ Ht), !bind_echo.
  match goal with
  | |- context [bind ?m ?k ?w] =>
      destruct (bind_tail not_encode m k w) as (evs' & -> & Hev')
  end.
  { intros go. prove_emits. }
  rewrite encode_bitrates_app, (no_encode_no_bitrates _ Hev'), app_nil_r.
  now apply video_run_on_schedule with (d := d) (vi := vi).
Qed.

Lemma to_size_on_schedule f file amount output preset max_iterations d vi b0 :
  f !! file = Some d ->
  ffprobe d = Some vi ->
  original_bitrate vi (size_of d) = Ok b0 ->
  on_schedule 0.75 (Py.Int (amount * 1024 * 1024)) (size_of d) b0
    (encode_bitrates
       (log (video_compress_to_size ffprobe ffmpeg file amount output
               preset max_iterations (start f)).2)).
Proof.
  intros Hfile Hvi Hb0.
  unfold video_compress_to_size.
  match goal with
  | |- context [try_except ?b ?h ?w] =>
      destruct (try_except_tail not_encode b h w) as (evs & -> & Hev)
  end.
  { intros e. now apply handler_emits. }
  rewrite encode_bitrates_app, (no_encode_no_bitrates _ Hev), app_nil_r.
  rewrite (bind_get_video_size_some _ d) by exact Hfile.
  destruct (size_of d =? 0); [apply on_schedule_nil |].
  cbv zeta.
  destruct (size_of d <=? amount * 1024 * 1024); [apply on_schedule_nil |].
  rewrite !bind_echo.
  match goal with
  | |- context [bind ?m ?k ?w] =>
      destruct (bind_tail not_encode m k w) as (evs' & -> & Hev')
  end.
  { intros go. prove_emits. }
  rewrite encode_bitrates_app, (no_encode_no_bitrates _ Hev'), app_nil_r.
  now apply video_run_on_schedule with (d := d) (vi := vi).
Qed.

(** C7: in every run of the video commands, the bitrates handed to the
    encoder are the scheduled ones. The [k]-th call gets
    [int(current_bitrate * (target_size / original_size))], where
    [current_bitrate] is the original bitrate after [k] decays
    [int(current_bitrate * 0.8)] for [by-percent], and after [k] decays
    [int(current_bitrate * 0.75)] for [to-size]. *)
Theorem bitrates_follow_schedule
    (f : gmap string bytes) (file : string) (amount : Z)
    (output : option string) (preset : string) (max_iterations : Z)
    (d : bytes) (vi : video_info) (b0 : Z) :
  f !! file = Some d ->
  ffprobe d = Some vi ->
  original_bitrate vi (size_of d) = Ok b0 ->
  (forall t,
     percent_target (size_of d) amount = Ok t ->
     on_schedule 0.8 (Py.Float t) (size_of d) b0
       (encode_bitrates
          (log (video_compress_by_percent ffprobe ffmpeg file amount output
                  preset max_iterations (start f)).2)))
  /\ on_schedule 0.75 (Py.Int (amount * 1024 * 1024)) (size_of d) b0
       (encode_bitrates
          (log (video_compress_to_size ffprobe ffmpeg file amount output
                  preset max_iterations (start f)).2)).
Proof.
  intros Hfile Hvi Hb0. split.
  - intros t Ht. now apply by_percent_on_schedule with vi.
  - now apply to_size_on_schedule with vi.
Qed.

End VideoCommands.

(** ** A failure of the video encoder *)

Lemma bind_frame P {A B} (m : M A) (k : A -> M B) w :
  (forall a, emits_only P (k a)) -> (forall a, keeps_fs (k a)) ->
  exists evs, log (bind m k w).2 = log (m w).2 ++ evs
              /\ forallb P evs = true
              /\ fs (bind m k w).2 = fs (m w).2.
Proof.
  intros Hk Hf. unfold bind.
  destruct (m w) as [[a | e |] w1]; simpl.
  - destruct (Hk a w1) as (evs & H1 & H2). exists evs. now rewrite Hf.
  - exists []. now rewrite app_nil_r.
  - exists []. now rewrite app_nil_r.
Qed.

Lemma try_except_frame P {A} (body : M A) (handler : exn -> M A) w :
  (forall e, emits_only P (handler e)) -> (forall e, keeps_fs (handler e)) ->
  exists evs, log (try_except body handler w).2 = log (body w).2 ++ evs
              /\ forallb P evs = true
              /\ fs (try_except body handler w).2 = fs (body w).2.
Proof.
  intros Hk Hf. unfold try_except.
  destruct (body w) as [[a | e |] w1]; simpl.
  - exists []. now rewrite app_nil_r.
  - destruct (Hk e w1) as (evs & H1 & H2). exists evs. now rewrite Hf.
  - exists []. now rewrite app_nil_r.
Qed.


Lemma reports_not_rename evs :
  forallb is_report evs = true -> existsb is_rename evs = false.
Proof.
  induction evs as [| e evs IH]; [reflexivity |]. simpl.
  intros H. apply andb_prop in H as [He H]. rewrite (IH H).
  destruct e; try discriminate; reflexivity.
Qed.


Section VideoAbort.

Variable ffprobe : bytes -> option video_info.
Variable ffmpeg : bytes -> string -> option Z -> string -> encoded.
Variable decay : float.
Variables (file : string) (output : option string) (preset : string).
Variables (target : Py.num) (original max_iterations : Z).
Variable f : gmap string bytes.





End VideoAbort.

Lemma string_length_app (a b : string) :
  String.length (a ++ b) = (String.length a + String.length b)%nat.
Proof. induction a as [| c a IH]; simpl; [reflexivity | now rewrite IH]. Qed.

(** The temporary path of a video is never the source. *)
Lemma temp_output_ne file : temp_output_of file <> file.
Proof.
  unfold temp_output_of. intros H.
  apply (f_equal String.length) in H.
  rewrite !string_length_app in H. simpl in H. lia.
Qed.

Section VideoFailure.

Variable ffprobe : bytes -> option video_info.
Variable ffmpeg : bytes -> string -> option Z -> string -> encoded.







End VideoFailure.

(** ** The estimate of a missing bitrate *)

Lemma emits_only_while P {S} (cond : S -> bool) (body : S -> M (ctl S)) :
  (forall s, emits_only P (body s)) ->
  forall fuel s, emits_only P (while fuel cond body s).
Proof.
  intros Hb fuel.
  induction fuel as [| fuel IH]; intros s w; simpl.
  - destruct (cond s); exists []; now rewrite app_nil_r.
  - destruct (cond s); [| exists []; now rewrite app_nil_r].
    destruct (Hb s w) as (evs & Hl & Hev).
    destruct (body s w) as [[[s' | s'] | e |] w1]; simpl in *;
      try (now exists evs).
    destruct (IH s' w1) as (evs' & Hl' & Hev').
    exists (evs ++ evs').
    rewrite Hl', Hl, app_assoc, forallb_app, Hev, Hev'. now split.
Qed.

Lemma emits_only_compress_video_ffmpeg (P : event -> bool) ffmpeg i o b p :
  (forall ok, P (VideoEncode i o b p ok) = true) ->
  emits_only P (compress_video_ffmpeg ffmpeg i o b p).
Proof.
  intros H w. eexists [_]. unfold compress_video_ffmpeg. simpl.
  split; [reflexivity |]. now rewrite H.
Qed.

Lemma called_extends w w' evs :
  log w' = log w ++ evs -> called w -> called w'.
Proof.
  unfold called. intros -> H. rewrite encode_bitrates_app.
  destruct (encode_bitrates (log w)); [now destruct H | discriminate].
Qed.

Section VideoEstimate.

Variable ffprobe : bytes -> option video_info.
Variable ffmpeg : bytes -> string -> option Z -> string -> encoded.

Lemma video_body_extends decay file output preset target original st :
  emits_only any_event
    (video_body ffmpeg decay file output preset target original st).
Proof.
  unfold video_body.
  repeat first [ apply emits_only_compress_video_ffmpeg; reflexivity
               | emits_step ].
Qed.

(** A loop that is entered with a bitrate it can schedule calls the
    encoder. *)
Lemma video_loop_calls decay file output preset target original
    max_iterations fuel st w b :
  (0 < fuel)%nat ->
  v_iterations st < max_iterations ->
  target_bitrate_of (current_bitrate st) target original = Ok b ->
  called (video_loop ffmpeg decay file output preset target original
            max_iterations fuel st w).2.
Proof.
  intros Hfuel Hlt Hb. destruct fuel as [| fuel]; [lia |].
  unfold video_loop. simpl. unfold video_cond at 1.
  apply Z.ltb_lt in Hlt. rewrite Hlt.
  destruct (video_body _ _ _ _ _ _ _ _ w) as [r w1] eqn:Hbody.
  apply video_body_step in Hbody.
  assert (Hone : forall l x y, encode_bitrates (log w ++ x :: VideoEncode file
                   (temp_output_of file) b preset y :: l) <> []).
  { intros l x y. rewrite encode_bitrates_app.
    destruct x as [m | m | | | | |]; simpl; try destruct m;
      intros H; now apply app_eq_nil in H as [_ H]. }
  inversion Hbody as [e He | b1 l w2 Hb' _ _ Hlog | b1 d w2 Hb' _ _ _ Hlog
                      | b1 d e w2 Hb' _ _ _ _ Hlog
                      | b1 d b' w2 Hb' _ _ _ _ Hlog];
    subst; try congruence;
    assert (b1 = b) as -> by congruence; simpl.
  - unfold called. rewrite Hlog. apply Hone.
  - unfold called. rewrite Hlog. apply Hone.
  - unfold called. rewrite Hlog. apply Hone.
  - destruct (emits_only_while any_event
                (video_cond max_iterations)
                (video_body ffmpeg decay file output preset target original)
                (video_body_extends decay file output preset target original)
                fuel (attempted file st b' true) w1) as (evs & Hl & _).
    apply (called_extends _ _ _ Hl). unfold called. rewrite Hlog. apply Hone.
Qed.

Lemma video_run_calls decay file output preset target original
    max_iterations w d vi s b0 b :
  fs w !! file = Some d ->
  ffprobe d = Some vi ->
  find_video_stream vi = Some s ->
  original_bitrate vi original = Ok b0 ->
  0 < max_iterations ->
  target_bitrate_of b0 target original = Ok b ->
  called (video_run ffprobe ffmpeg decay file output preset target
            original max_iterations w).2.
Proof.
  intros Hfile Hvi Hs Hb0 Hmax Hb.
  unfold video_run. rewrite bind_unfold. unfold get_video_info.
  rewrite Hfile, Hvi.
  assert (Hinfo : info_missing (Some vi) = false).
  { unfold find_video_stream in Hs. unfold info_missing.
    destruct vi as [[ss |] fm]; [reflexivity | discriminate]. }
  rewrite Hinfo, Hs, (lift_ok _ _ _ _ Hb0).
  match goal with
  | |- called (bind ?m ?k ?w).2 =>
      destruct (bind_tail any_event m k w) as (evs & Hl & _)
  end.
  { intros st. unfold video_shortfall. prove_emits. }
  apply (called_extends _ _ _ Hl).
  apply video_loop_calls with b; simpl; [lia | lia | exact Hb].
Qed.

(** A schedule that was started gives the first bitrate. *)
Lemma first_on_schedule decay target original b0 b bs :
  on_schedule decay target original b0 bs -> bs <> [] ->
  target_bitrate_of b0 target original = Ok b ->
  bs !! 0%nat = Some b.
Proof.
  intros Hs Hne Hb. destruct bs as [| x bs]; [now destruct Hne |].
  destruct (Hs 0%nat x eq_refl) as (cb & Hcb & Hx). simpl in Hcb.
  injection Hcb as <-. simpl. congruence.
Qed.

Lemma by_percent_calls f file reduction output preset max_iterations
    d vi s b0 t b :
  f !! file = Some d -> size_of d <> 0 ->
  ffprobe d = Some vi ->
  find_video_stream vi = Some s ->
  original_bitrate vi (size_of d) = Ok b0 ->
  percent_target (size_of d) reduction = Ok t ->
  0 < max_iterations ->
  target_bitrate_of b0 (Py.Float t) (size_of d) = Ok b ->
  called (video_compress_by_percent ffprobe ffmpeg file reduction output
            preset max_iterations (start f)).2.
Proof.
  intros Hfile Hnz Hvi Hs Hb0 Ht Hmax Hb.
  unfold video_compress_by_percent.
  match goal with
  | |- context [try_except ?b ?h ?w] =>
      destruct (try_except_tail any_event b h w) as (evs & Hl & _)
  end.
  { intros e. now apply emits_only_echo_err. }
  apply (called_extends _ _ _ Hl). clear Hl evs.
  rewrite (bind_get_video_size_some _ d) by exact Hfile.
  apply Z.eqb_neq in Hnz. rewrite Hnz.
  rewrite (lift_ok _ _ _ _ Ht), !bind_echo.
  match goal with
  | |- context [bind ?m ?k ?w] =>
      destruct (bind_tail any_event m k w) as (evs & Hl & _)
  end.
  { intros go. prove_emits. }
  apply (called_extends _ _ _ Hl).
  now apply video_run_calls with d vi s b0 b.
Qed.

Lemma to_size_calls f file mb output preset max_iterations d vi s b0 b :
  f !! file = Some d -> size_of d <> 0 ->
  ffprobe d = Some vi ->
  find_video_stream vi = Some s ->
  original_bitrate vi (size_of d) = Ok b0 ->
  mb * 1024 * 1024 < size_of d ->
  0 < max_iterations ->
  target_bitrate_of b0 (Py.Int (mb * 1024 * 1024)) (size_of d) = Ok b ->
  called (video_compress_to_size ffprobe ffmpeg file mb output
            preset max_iterations (start f)).2.
Proof.
  intros Hfile Hnz Hvi Hs Hb0 Hlt Hmax Hb.
  unfold video_compress_to_size.
  match goal with
  | |- context [try_except ?b ?h ?w] =>
      destruct (try_except_tail any_event b h w) as (evs & Hl & _)
  end.
  { intros e. now apply emits_only_echo_err. }
  apply (called_extends _ _ _ Hl). clear Hl evs.
  rewrite (bind_get_video_size_some _ d) by exact Hfile.
  apply Z.eqb_neq in Hnz. rewrite Hnz. cbv zeta.
  apply Z.leb_gt in Hlt. rewrite Hlt.
  rewrite !bind_echo.
  match goal with
  | |- context [bind ?m ?k ?w] =>
      destruct (bind_tail any_event m k w) as (evs & Hl & _)
  end.
  { intros go. prove_emits. }
  apply (called_extends _ _ _ Hl).
  now apply video_run_calls with d vi s b0 b.
Qed.

(** Without ffprobe's answer a video command stops before its loop. *)
Lemma video_run_without_info decay file output preset target original
    max_iterations w d :
  fs w !! file = Some d -> ffprobe d = None ->
  video_run ffprobe ffmpeg decay file output preset target original
    max_iterations w
  = (Normal false, emit (EchoErr MsgErrVideoInfo) w).
Proof.
  intros Hfile Hvi. unfold video_run. rewrite bind_unfold.
  unfold get_video_info. now rewrite Hfile, Hvi.
Qed.

(** C6, as amended: when ffprobe's answer is there, has a video stream
    and gives no bitrate (the key is missing or holds 0), the original
    bitrate is estimated as [int(original_size * 8 / duration)], with a
    duration of 1 when that key is missing too; the bitrates handed to the
    encoder follow the schedule that starts from this estimate, and the
    first pass of the loop calls the encoder with the first of them. When
    ffprobe is unavailable the command prints that it could not read the
    video information and returns: no estimate is made and the encoder is
    never called. *)
Theorem missing_bitrate_is_estimated
    (f : gmap string bytes) (file : string) (amount : Z)
    (output : option string) (preset : string) (max_iterations : Z)
    (d : bytes) :
  f !! file = Some d ->
  size_of d <> 0 ->
  let by_percent :=
    video_compress_by_percent ffprobe ffmpeg file amount output preset
      max_iterations (start f) in
  let to_size :=
    video_compress_to_size ffprobe ffmpeg file amount output preset
      max_iterations (start f) in
  (ffprobe d = None ->
   (forall t, percent_target (size_of d) amount = Ok t ->
      by_percent
      = (Normal tt,
         {| fs := f;
            log := [Echo (MsgOriginalSize (size_of d));
                    Echo (MsgTargetSize (Py.Float t));
                    EchoErr MsgErrVideoInfo] |}))
   /\ (amount * 1024 * 1024 < size_of d ->
       to_size
       = (Normal tt,
          {| fs := f;
             log := [Echo (MsgOriginalSize (size_of d));
                     Echo (MsgTargetSize (Py.Int (amount * 1024 * 1024)));
                     EchoErr MsgErrVideoInfo] |})))
  /\ (forall vi s dur est,
        ffprobe d = Some vi ->
        find_video_stream vi = Some s ->
        read_bit_rate vi = Ok 0 ->
        read_duration vi = Ok dur ->
        estimate_bitrate (size_of d) dur = Ok est ->
        original_bitrate vi (size_of d) = Ok est
        /\ (forall t, percent_target (size_of d) amount = Ok t ->
              on_schedule 0.8 (Py.Float t) (size_of d) est
                (encode_bitrates (log by_percent.2))
              /\ (0 < max_iterations ->
                  forall b,
                    target_bitrate_of est (Py.Float t) (size_of d) = Ok b ->
                    encode_bitrates (log by_percent.2) !! 0%nat = Some b))
        /\ (amount * 1024 * 1024 < size_of d ->
            on_schedule 0.75 (Py.Int (amount * 1024 * 1024)) (size_of d) est
              (encode_bitrates (log to_size.2))
            /\ (0 < max_iterations ->
                forall b,
                  target_bitrate_of est (Py.Int (amount * 1024 * 1024))
                    (size_of d) = Ok b ->
                  encode_bitrates (log to_size.2) !! 0%nat = Some b)))
  /\ (forall vi,
        format_section vi = None
        \/ (exists fm, format_section vi = Some fm /\ duration fm = Absent) ->
        read_duration vi = Ok (Py.Z2F 1)).
Proof.
  intros Hfile Hnz. simpl.
  assert (Hnz' := Hnz). apply Z.eqb_neq in Hnz'.
  split; [| split].
  - intros Hvi. split.
    + intros t Ht. unfold video_compress_by_percent, try_except.
      rewrite (bind_get_video_size_some _ d) by exact Hfile.
      rewrite Hnz', (lift_ok _ _ _ _ Ht), !bind_echo, bind_unfold.
      rewrite (video_run_without_info _ _ _ _ _ _ _ _ d) by easy.
      reflexivity.
    + intros Hlt. unfold video_compress_to_size, try_except.
      rewrite (bind_get_video_size_some _ d) by exact Hfile.
      rewrite Hnz'. cbv zeta. apply Z.leb_gt in Hlt. rewrite Hlt.
      rewrite !bind_echo, bind_unfold.
      rewrite (video_run_without_info _ _ _ _ _ _ _ _ d) by easy.
      reflexivity.
  - intros vi s dur est Hvi Hs Hbr Hdur Hest.
    assert (Hb0 : original_bitrate vi (size_of d) = Ok est).
    { unfold original_bitrate. rewrite Hbr. simpl. now rewrite Hdur. }
    split; [exact Hb0 | split].
    + intros t Ht.
      assert (Hsched := by_percent_on_schedule ffprobe ffmpeg f file amount
                          output preset max_iterations d vi est t Hfile Hvi
                          Hb0 Ht).
      split; [exact Hsched |]. intros Hmax b Hb.
      apply (first_on_schedule _ _ _ _ _ _ Hsched); [| exact Hb].
      now apply by_percent_calls with d vi s est t b.
    + intros Hlt.
      assert (Hsched := to_size_on_schedule ffprobe ffmpeg f file amount
                          output preset max_iterations d vi est Hfile Hvi
                          Hb0).
      split; [exact Hsched |]. intros Hmax b Hb.
      apply (first_on_schedule _ _ _ _ _ _ Hsched); [| exact Hb].
      now apply to_size_calls with d vi s est b.
  - intros vi [H | (fm & H & Hd)]; unfold read_duration; rewrite H;
      [reflexivity | now rewrite Hd].
Qed.

End VideoEstimate.

(** ** The video claims on sample runs *)

(** A run of [by-percent] on a 1000-byte video of 8000 bit/s: the encoder
    is called with 4000, 3200, 2560 and 2048. *)
Lemma bitrates_follow_schedule_witness :
  let run :=
    video_compress_by_percent (Fixtures.probe (Present 8000) Absent)
      Fixtures.fifth_ffmpeg "a.mp4" 50 None "medium" 8
      (start (Fixtures.disk "a.mp4" 1000)) in
  encode_bitrates (log run.2) = [4000; 3200; 2560; 2048]
  /\ on_schedule 0.8 (Py.Float 500) (size_of (Fixtures.blob 1000)) 8000
       (encode_bitrates (log run.2)).
Proof.
  split; [vm_compute; reflexivity |].
  refine (proj1 (bitrates_follow_schedule
                   (Fixtures.probe (Present 8000) Absent)
                   Fixtures.fifth_ffmpeg (Fixtures.disk "a.mp4" 1000) "a.mp4"
                   50 None "medium" 8 (Fixtures.blob 1000) _ 8000
                   _ _ _) 500%float _);
    vm_compute; reflexivity.
Defined.


(** C6 as stated fails: without ffprobe the command stops before its loop.
    The estimate would be 8000 and the first bitrate 4000, and the cap
    leaves room for eight passes, but the encoder is never called. *)
Lemma unavailable_probe_stops_the_run :
  let run :=
    video_compress_by_percent Fixtures.no_probe Fixtures.fifth_ffmpeg
      "a.mp4" 50 None "medium" 8 (start (Fixtures.disk "a.mp4" 1000)) in
  log run.2 = [Echo (MsgOriginalSize 1000);
               Echo (MsgTargetSize (Py.Float 500));
               EchoErr MsgErrVideoInfo]
  /\ encode_bitrates (log run.2) = []
  /\ estimate_bitrate 1000 (Py.Z2F 1) = Ok 8000
  /\ target_bitrate_of 8000 (Py.Float 500) 1000 = Ok 4000.
Proof. vm_compute. intuition. Qed.

(** A video whose metadata has neither bitrate nor duration: the estimate
    is 1000 * 8 / 1, and the first call of the encoder gets half of it. *)
Lemma missing_bitrate_is_estimated_witness :
  let vi := {| streams := Some [ {| codec_type := Some "audio" |};
                                 {| codec_type := Some "video" |} ];
               format_section :=
                 Some {| bit_rate := Absent; duration := Absent |} |} in
  let run :=
    video_compress_by_percent (Fixtures.probe Absent Absent)
      Fixtures.fifth_ffmpeg "a.mp4" 50 None "medium" 8
      (start (Fixtures.disk "a.mp4" 1000)) in
  original_bitrate vi (size_of (Fixtures.blob 1000)) = Ok 8000
  /\ encode_bitrates (log run.2) !! 0%nat = Some 4000.
Proof.
  intros vi run.
  assert (Hnz : size_of (Fixtures.blob 1000) <> 0) by (vm_compute; lia).
  destruct (missing_bitrate_is_estimated (Fixtures.probe Absent Absent)
              Fixtures.fifth_ffmpeg (Fixtures.disk "a.mp4" 1000) "a.mp4" 50
              None "medium" 8 (Fixtures.blob 1000) eq_refl Hnz)
    as (_ & H & _).
  destruct (H vi {| codec_type := Some "video" |} (Py.Z2F 1) 8000
              eq_refl eq_refl eq_refl eq_refl eq_refl) as (Hb0 & Hp & _).
  split; [exact Hb0 |].
  destruct (Hp 500%float eq_refl) as (_ & Hfirst).
  apply Hfirst; [lia | reflexivity].
Defined.

(** ** The quality schedule of the image loops *)






Section ImageQuality.

Variable pil_header : bytes -> option (Z * Z).
Variable pil_save : format -> image -> Z -> encoded.
Variables (step floor : Z).
Variables (file : string) (output : option string).
Variables (target : Py.num) (max_iterations : Z).
Hypothesis step_pos : 0 <= step.






End ImageQuality.

Lemma emits_only_image_open P pil_header file :
  emits_only P (image_open pil_header file).
Proof.
  intros w. exists []. rewrite app_nil_r. unfold image_open.
  destruct (fs w !! file) as [d |]; [| now split].
  destruct (pil_header d) as [[? ?] |]; now split.
Qed.

Lemma keeps_fs_image_open pil_header file :
  keeps_fs (image_open pil_header file).
Proof.
  intros w. unfold image_open.
  destruct (fs w !! file) as [d |]; [| reflexivity].
  destruct (pil_header d) as [[? ?] |]; reflexivity.
Qed.

Section ImageQualityCommands.

Variable pil_header : bytes -> option (Z * Z).
Variable pil_save : format -> image -> Z -> encoded.





End ImageQualityCommands.



(** ** Temporary candidates *)

Lemma le_not_gt a t : Py.le (Py.Int a) t = true -> Py.gt (Py.Int a) t = false.
Proof.
  destruct t as [z | g]; simpl.
  - intros H. apply Z.leb_le in H. apply Z.ltb_ge. lia.
  - destruct (Py.Z_compare_float a g) as [[| |] |]; congruence.
Qed.

Lemma candidates_app l l' :
  candidates (l ++ l') = fold_left candidate_step l' (candidates l).
Proof. unfold candidates. apply fold_left_app. Qed.

Lemma candidate_step_none l : fold_left candidate_step l None = None.
Proof. induction l as [| e l IH]; [reflexivity | exact IH]. Qed.

Lemma harmless_keeps_order evs s :
  forallb harmless evs = true -> is_Some s ->
  is_Some (fold_left candidate_step evs s).
Proof.
  revert s. induction evs as [| e evs IH]; intros s Hev Hs; [exact Hs |].
  simpl in *. apply andb_prop in Hev as [He Hev]. apply IH; [exact Hev |].
  destruct Hs as [pending ->].
  destruct e; try discriminate; simpl; eauto.
Qed.

Lemma quiet_events_keep w w' evs :
  log w' = log w ++ evs -> forallb quiet_event evs = true ->
  quiet w -> quiet w'.
Proof.
  intros Hl Hev [H1 H2]. unfold quiet. rewrite Hl, !existsb_app, H1, H2.
  clear Hl H1 H2. induction evs as [| e evs IH]; [now split |].
  simpl in *. apply andb_prop in Hev as [He Hev].
  destruct (IH Hev) as [I1 I2]. simpl in I1, I2. rewrite I1, I2.
  unfold quiet_event in He. apply andb_prop in He as [E1 E2].
  apply negb_true_iff in E1, E2. now rewrite E1, E2.
Qed.



Lemma untouched_settled f out w :
  (forall p, fs w !! p = f !! p \/ fs w !! p = None) -> settled f out w.
Proof. intros H _ p _. apply H. Qed.

Lemma same_fs_settled f out w : fs w = f -> settled f out w.
Proof. intros H. apply untouched_settled. intros p. left. now rewrite H. Qed.

Lemma reports_quiet evs :
  forallb is_report evs = true -> forallb quiet_event evs = true.
Proof.
  induction evs as [| e evs IH]; [reflexivity |]. simpl.
  intros H. apply andb_prop in H as [He H]. rewrite (IH H).
  destruct e as [m | m | | | | |]; try discriminate; destruct m;
    try discriminate; reflexivity.
Qed.

Lemma reports_harmless evs :
  forallb is_report evs = true -> forallb harmless evs = true.
Proof.
  induction evs as [| e evs IH]; [reflexivity |]. simpl.
  intros H. apply andb_prop in H as [He H]. rewrite (IH H).
  destruct e as [m | m | | | | |]; try discriminate; reflexivity.
Qed.

Lemma committed_app l evs :
  forallb quiet_event evs = true ->
  committed_or_capped (l ++ evs) = committed_or_capped l.
Proof.
  intros Hev. unfold committed_or_capped. rewrite !existsb_app.
  assert (existsb is_rename evs = false /\ existsb is_warning evs = false)
    as [-> ->].
  { induction evs as [| e evs IH]; [now split |].
    simpl in *. apply andb_prop in Hev as [He Hev].
    destruct (IH Hev) as [-> ->].
    unfold quiet_event in He. apply andb_prop in He as [E1 E2].
    apply negb_true_iff in E1, E2. now rewrite E1, E2. }
  now rewrite !orb_false_r.
Qed.

(** The closing messages of a command leave a settled run settled, and
    the calls in order. *)
Lemma closing_settled f out w w' evs :
  log w' = log w ++ evs -> forallb is_report evs = true -> fs w' = fs w ->
  settled f out w /\ is_Some (candidates (log w)) ->
  settled f out w' /\ is_Some (candidates (log w')).
Proof.
  intros Hl Hev Hfs [Hs Hc]. split.
  - intros H. rewrite Hl, (committed_app _ _ (reports_quiet _ Hev)) in H.
    intros p Hp. rewrite Hfs. now apply Hs.
  - rewrite Hl, candidates_app.
    apply harmless_keeps_order; [now apply reports_harmless | exact Hc].
Qed.

Section ImageTidy.

Variable pil_header : bytes -> option (Z * Z).
Variable pil_save : format -> image -> Z -> encoded.
Variables (step floor : Z).
Variables (file : string) (output : option string).
Variables (target : Py.num) (max_iterations : Z).
Variable f : gmap string bytes.

Lemma plan_save_jpeg st temp fmt i :
  image_plan floor file st = PlanSave temp fmt i ->
  jpeg_only file = true ->
  fmt = JPEG /\ exists i0, i = ConvertedRGB i0.
Proof.
  unfold image_plan, jpeg_only.
  destruct (file_kind file); try discriminate.
  - destruct (quality st <? floor); [discriminate |].
    intros H _. injection H as _ <- <-. eauto.
  - intros H _. injection H as _ <- <-. eauto.
Qed.

Lemma tidy_pending w w' temp evs :
  candidates (log w) = Some None ->
  log w' = log w ++ evs ->
  fold_left candidate_step evs (Some None) = Some temp ->
  candidates (log w') = Some temp.
Proof. intros H -> He. now rewrite candidates_app, H. Qed.

Lemma image_loop_tidy fuel st w r w' :
  tidy f (temp_path st) w ->
  image_loop pil_save step floor file output target max_iterations fuel st w
  = (r, w') ->
  image_loop_post pil_save file output target f r w'.
Proof.
  unfold image_loop. intros HI Hrun.
  apply (while_rule _ _ (fun s w => tidy f (temp_path s) w)
           (image_loop_post pil_save file output target f))
    with (4 := HI) (5 := Hrun).
  - intros s w0 H _. split; [| now left].
    destruct H as (_ & _ & _ & ->). eauto.
  - intros s w0 H _. split; [| apply H].
    destruct H as (_ & _ & _ & ->). eauto.
  - clear. intros s w r w' (Hq & Hfs & Htemp & Hc) _ Hb.
    apply image_body_step in Hb.
    inversion Hb as [temp fmt i l w1 Hp Hs Hfs' Hlog
                     | temp fmt i d w1 Hp Hs Hle Hfs' Hlog
                     | temp fmt i d w1 Hp Hs Hle Hfs' Hlog
                     | e Hp Hd
                     | nw nh w1 Hp Hd Hno Hfs' Hlog
                     | nw nh d w1 Hp Hd Hsome Hle Hfs' Hlog
                     | nw nh d w1 Hp Hd Hsome Hle Hfs' Hlog];
      subst.
    + split.
      * rewrite (tidy_pending w w' (Some temp) _ Hc Hlog); eauto.
      * now apply (quiet_events_keep w w' _ Hlog).
    + split.
      * rewrite (tidy_pending w w' None _ Hc Hlog); eauto.
      * right. split; [| exact Hle]. exists d. repeat split.
        -- rewrite Hfs'. apply lookup_insert_eq.
        -- intros p Hp'. rewrite Hfs'.
           rewrite lookup_insert_ne by congruence.
           destruct (decide (p = temp)) as [-> | Hne].
           ++ right. apply lookup_delete_eq.
           ++ rewrite lookup_delete_ne, lookup_insert_ne by congruence.
              apply Hfs.
        -- exact Hle.
        -- rewrite Hlog, existsb_app, (proj2 Hq). reflexivity.
        -- left. exists fmt, i, (quality s). split; [exact Hs |].
           now apply plan_save_jpeg with s temp.
    + repeat split.
      * now apply (quiet_events_keep w w' _ Hlog).
      * now apply (quiet_events_keep w w' _ Hlog).
      * intros p. rewrite Hfs'.
        destruct (decide (p = temp)) as [-> | Hne].
        -- right. apply lookup_delete_eq.
        -- rewrite lookup_delete_ne, lookup_insert_ne by congruence.
           apply Hfs.
      * simpl. intros t Ht. injection Ht as <-. rewrite Hfs'.
        apply lookup_delete_eq.
      * apply (tidy_pending w w' None _ Hc Hlog). simpl.
        now rewrite String.eqb_refl.
    + split; [rewrite Hc; eauto | exact Hq].
    + split.
      * rewrite (tidy_pending w w' None _ Hc Hlog); eauto.
      * now apply (quiet_events_keep w w' _ Hlog).
    + split.
      * rewrite (tidy_pending w w' None _ Hc Hlog); eauto.
      * right. split; [| exact Hle]. exists d. repeat split.
        -- rewrite Hfs'. apply lookup_insert_eq.
        -- intros p Hp'. rewrite Hfs'.
           rewrite lookup_insert_ne by congruence.
           destruct (decide (p = (file ++ ".temp")%string)) as [-> | Hne].
           ++ right. apply lookup_delete_eq.
           ++ rewrite lookup_delete_ne by congruence. apply Hfs.
        -- exact Hle.
        -- rewrite Hlog, existsb_app, (proj2 Hq). reflexivity.
        -- right. destruct (Hfs (file ++ ".temp")%string) as [E | E];
             congruence.
    + repeat split.
      * now apply (quiet_events_keep w w' _ Hlog).
      * now apply (quiet_events_keep w w' _ Hlog).
      * intros p. rewrite Hfs'.
        destruct (decide (p = (file ++ ".temp")%string)) as [-> | Hne].
        -- right. apply lookup_delete_eq.
        -- rewrite lookup_delete_ne by congruence. apply Hfs.
      * simpl. intros t Ht. injection Ht as <-. rewrite Hfs'.
        apply lookup_delete_eq.
      * now apply (tidy_pending w w' None _ Hc Hlog).
Qed.

End ImageTidy.

Lemma reports_no_warning evs :
  forallb is_report evs = true -> existsb is_warning evs = false.
Proof.
  induction evs as [| e evs IH]; [reflexivity |]. simpl.
  intros H. apply andb_prop in H as [He H]. rewrite (IH H).
  destruct e as [m | m | | | | |]; try discriminate; destruct m;
    try discriminate; reflexivity.
Qed.

(** The closing messages of a command do not change the way it ended. *)
Lemma closing_image_final pil_save file output target f w w' evs :
  log w' = log w ++ evs -> forallb is_report evs = true -> fs w' = fs w ->
  image_final pil_save file output target f w ->
  image_final pil_save file output target f w'.
Proof.
  intros Hl Hev Hfs [Hc H]. split.
  - rewrite Hl, candidates_app.
    apply harmless_keeps_order; [now apply reports_harmless | exact Hc].
  - destruct H as [Hq | [[Hr Hu] | (d & H1 & H2 & H3 & H4 & H5)]].
    + left. apply (quiet_events_keep w w' evs Hl); [| exact Hq].
      now apply reports_quiet.
    + right. left. split.
      * now rewrite Hl, existsb_app, Hr, (reports_not_rename _ Hev).
      * intros p. rewrite Hfs. apply Hu.
    + right. right. exists d. repeat split.
      * now rewrite Hfs.
      * intros p Hp. rewrite Hfs. now apply H2.
      * exact H3.
      * now rewrite Hl, existsb_app, H4, (reports_no_warning _ Hev).
      * exact H5.
Qed.

Lemma quiet_image_final pil_save file output target f w :
  quiet w -> is_Some (candidates (log w)) ->
  image_final pil_save file output target f w.
Proof. intros Hq Hc. split; [exact Hc | now left]. Qed.

Section ImageFinal.

Variable pil_header : bytes -> option (Z * Z).
Variable pil_save : format -> image -> Z -> encoded.

Lemma image_run_final step floor file output target max_iterations
    original f w :
  quiet w -> fs w = f -> candidates (log w) = Some None ->
  image_final pil_save file output target f
    (image_run pil_header pil_save step floor file output target
       max_iterations original w).2.
Proof.
  intros Hq Hfs Hc. unfold image_run. rewrite bind_unfold.
  assert (Hstart : image_final pil_save file output target f w).
  { apply quiet_image_final; [exact Hq | rewrite Hc; eauto]. }
  unfold image_open.
  destruct (fs w !! file) as [d |]; [| exact Hstart].
  destruct (pil_header d) as [[w0 h0] |]; [| exact Hstart].
  rewrite bind_unfold.
  destruct (image_loop _ _ _ _ _ _ _ _ _ w) as [r w'] eqn:Hloop.
  apply (image_loop_tidy pil_save step floor file output target
           max_iterations f) in Hloop.
  2:{ repeat split; try apply Hq; try exact Hc.
      - intros p. left. now rewrite Hfs.
      - simpl. discriminate. }
  destruct Hloop as [Hcand Hr].
  destruct r as [st | e |]; try (now apply quiet_image_final).
  rewrite bind_unfold. unfold image_shortfall.
  destruct Hr as [(Hq' & Hu & Ht & Hc') | [Hcommit Hle]].
  - destruct (Py.gt (Py.Int (current_size st)) target).
    + rewrite bind_echo.
      assert (Hrest : image_final pil_save file output target f
                        (emit (Echo (MsgWarning (current_size st))) w')).
      { split.
        - simpl. rewrite candidates_app, Hc'. simpl. eauto.
        - right. left. split; [| exact Hu].
          simpl. rewrite existsb_app. destruct Hq' as [-> _]. reflexivity. }
      destruct (temp_path st) as [t |]; [| exact Hrest].
      rewrite bind_path_exists, fs_emit, (Ht t eq_refl).
      destruct (bool_decide (is_Some None)) eqn:Hbd; [| exact Hrest].
      apply bool_decide_eq_true in Hbd. now apply is_Some_None in Hbd.
    + simpl. now apply quiet_image_final.
  - rewrite (le_not_gt _ _ Hle). simpl.
    split; [exact Hcand | now right; right].
Qed.


Lemma image_to_size_final f file kb output max_iterations :
  image_final pil_save file output (Py.Int (kb * 1024)) f
    (image_compress_to_size pil_header pil_save file kb output
       max_iterations (start f)).2.
Proof.
  assert (Hq : quiet (start f)) by now split.
  assert (Hs : forall target,
             image_final pil_save file output target f (start f)).
  { intros target. apply quiet_image_final; [exact Hq | simpl; eauto]. }
  unfold image_compress_to_size.
  match goal with
  | |- context [try_except ?b ?h ?w] =>
      destruct (try_except_frame is_report b h w) as (evs & Hl & Hev & Hfs)
  end.
  { intros e. now apply emits_only_echo_err. }
  { intros e. apply keeps_fs_echo_err. }
  apply (closing_image_final _ _ _ _ _ _ _ _ Hl Hev Hfs). clear Hl Hev Hfs evs.
  destruct (f !! file) as [d |] eqn:Hfile.
  2:{ rewrite bind_getsize_none by exact Hfile. apply Hs. }
  rewrite (bind_getsize_some _ d) by exact Hfile. cbv zeta.
  destruct (size_of d <=? kb * 1024).
  { apply quiet_image_final; [now split | simpl; eauto]. }
  rewrite !bind_echo.
  match goal with
  | |- context [bind ?m ?k ?w] =>
      destruct (bind_frame is_report m k w) as (evs & Hl & Hev & Hfs)
  end.
  { intros st. prove_emits. }
  { intros st. prove_keeps. }
  apply (closing_image_final _ _ _ _ _ _ _ _ Hl Hev Hfs).
  now apply image_run_final.
Qed.

End ImageFinal.

Lemma closing_video_final file output target f w w' evs :
  log w' = log w ++ evs -> forallb is_report evs = true -> fs w' = fs w ->
  video_final file output target f w ->
  video_final file output target f w'.
Proof.
  intros Hl Hev Hfs [Hc H]. split.
  - rewrite Hl, candidates_app.
    apply harmless_keeps_order; [now apply reports_harmless | exact Hc].
  - destruct H as [Hq | [[Hr Hu] | (d & H1 & H2 & H3 & H4)]].
    + left. apply (quiet_events_keep w w' evs Hl); [| exact Hq].
      now apply reports_quiet.
    + right. left. split.
      * now rewrite Hl, existsb_app, Hr, (reports_not_rename _ Hev).
      * intros p. rewrite Hfs. apply Hu.
    + right. right. exists d. repeat split.
      * now rewrite Hfs.
      * intros p Hp. rewrite Hfs. now apply H2.
      * exact H3.
      * now rewrite Hl, existsb_app, H4, (reports_no_warning _ Hev).
Qed.

Lemma quiet_video_final file output target f w :
  quiet w -> is_Some (candidates (log w)) ->
  video_final file output target f w.
Proof. intros Hq Hc. split; [exact Hc | now left]. Qed.

Section VideoTidy.

Variable ffprobe : bytes -> option video_info.
Variable ffmpeg : bytes -> string -> option Z -> string -> encoded.

Lemma video_loop_tidy decay file output preset target original
    max_iterations f fuel st w r w' :
  tidy f (temp_output st) w ->
  video_loop ffmpeg decay file output preset target original max_iterations
    fuel st w = (r, w') ->
  video_loop_post file output target max_iterations f r w'.
Proof.
  unfold video_loop. intros HI Hrun.
  apply (while_rule _ _ (fun s w => tidy f (temp_output s) w)
           (video_loop_post file output target max_iterations f))
    with (4 := HI) (5 := Hrun).
  - intros s w0 H _. split; [| now left].
    destruct H as (_ & _ & _ & ->). eauto.
  - intros s w0 H _. split; [| apply H].
    destruct H as (_ & _ & _ & ->). eauto.
  - clear. intros s w r w' (Hq & Hfs & Htemp & Hc) Hcond Hb.
    unfold video_cond in Hcond. apply Z.ltb_lt in Hcond.
    apply video_body_step in Hb.
    inversion Hb as [e He | b l w1 Hb' Henc Hfs' Hlog
                     | b d w1 Hb' Henc Hle Hfs' Hlog
                     | b d e w1 Hb' Henc Hle Hd Hfs' Hlog
                     | b d b' w1 Hb' Henc Hle Hd Hfs' Hlog];
      subst.
    + split; [rewrite Hc; eauto | exact Hq].
    + split.
      * rewrite (tidy_pending w w' (Some (temp_output_of file)) _ Hc Hlog);
          eauto.
      * right. split; [| exact Hcond]. right.
        now apply (quiet_events_keep w w' _ Hlog).
    + split.
      * rewrite (tidy_pending w w' None _ Hc Hlog); eauto.
      * right. split; [| exact Hcond]. left. exists d. repeat split.
        -- rewrite Hfs'. apply lookup_insert_eq.
        -- intros p Hp'. rewrite Hfs'.
           rewrite lookup_insert_ne by congruence.
           destruct (decide (p = temp_output_of file)) as [-> | Hne].
           ++ right. apply lookup_delete_eq.
           ++ rewrite lookup_delete_ne, lookup_insert_ne by congruence.
              apply Hfs.
        -- exact Hle.
        -- rewrite Hlog, existsb_app, (proj2 Hq). reflexivity.
    + split.
      * rewrite (tidy_pending w w' (Some (temp_output_of file)) _ Hc Hlog);
          eauto.
      * now apply (quiet_events_keep w w' _ Hlog).
    + repeat split.
      * now apply (quiet_events_keep w w' _ Hlog).
      * now apply (quiet_events_keep w w' _ Hlog).
      * intros p. rewrite Hfs'.
        destruct (decide (p = temp_output_of file)) as [-> | Hne].
        -- right. apply lookup_delete_eq.
        -- rewrite lookup_delete_ne, lookup_insert_ne by congruence.
           apply Hfs.
      * simpl. intros t Ht. injection Ht as <-. rewrite Hfs'.
        apply lookup_delete_eq.
      * apply (tidy_pending w w' None _ Hc Hlog). simpl.
        now rewrite String.eqb_refl.
Qed.

Lemma video_run_final decay file output preset target original
    max_iterations f w :
  quiet w -> fs w = f -> candidates (log w) = Some None ->
  video_final file output target f
    (video_run ffprobe ffmpeg decay file output preset target original
       max_iterations w).2.
Proof.
  intros Hq Hfs Hc. unfold video_run. rewrite bind_unfold.
  assert (Hmsg : forall m,
             video_final file output target f (emit (EchoErr m) w)).
  { intros m. apply quiet_video_final.
    - now apply (quiet_events_keep w (emit (EchoErr m) w) [EchoErr m] eq_refl).
    - simpl. rewrite candidates_app, Hc. simpl. eauto. }
  unfold get_video_info.
  destruct (fs w !! file) as [d |]; [| apply Hmsg].
  destruct (info_missing (ffprobe d)); [apply Hmsg |].
  destruct (ffprobe d) as [vi |]; [| apply Hmsg].
  cbv beta iota.
  destruct (find_video_stream vi); [| apply Hmsg].
  destruct (original_bitrate vi original) as [b0 | e] eqn:Hb0.
  2:{ simpl. apply quiet_video_final; [exact Hq | rewrite Hc; eauto]. }
  rewrite (lift_ok _ _ b0 _ eq_refl), bind_unfold.
  destruct (video_loop _ _ _ _ _ _ _ _ _ _ w) as [r w'] eqn:Hloop.
  apply (video_loop_tidy decay file output preset target original
           max_iterations f) in Hloop.
  2:{ repeat split; try apply Hq; try exact Hc.
      - intros p. left. now rewrite Hfs.
      - simpl. discriminate. }
  destruct Hloop as [Hcand Hr].
  destruct r as [st | e |]; try (now apply quiet_video_final).
  rewrite bind_unfold. unfold video_shortfall.
  destruct Hr as [(Hq' & Hu & Ht & Hc') | [Hend Hlt]].
  - destruct (max_iterations <=? v_iterations st).
    + rewrite bind_echo.
      assert (Hrest : video_final file output target f
                        (emit (Echo MsgWarningLimit) w')).
      { split.
        - simpl. rewrite candidates_app, Hc'. simpl. eauto.
        - right. left. split; [| exact Hu].
          simpl. rewrite existsb_app. destruct Hq' as [-> _]. reflexivity. }
      destruct (temp_output st) as [t |]; [| exact Hrest].
      rewrite bind_path_exists, fs_emit, (Ht t eq_refl).
      destruct (bool_decide (is_Some None)) eqn:Hbd; [| exact Hrest].
      apply bool_decide_eq_true in Hbd. now apply is_Some_None in Hbd.
    + simpl. now apply quiet_video_final.
  - apply Z.leb_gt in Hlt. rewrite Hlt. simpl.
    split; [exact Hcand |]. destruct Hend as [Hcm | Hq']; [right | left];
      [right |]; assumption.
Qed.


Lemma video_to_size_final f file mb output preset max_iterations :
  video_final file output (Py.Int (mb * 1024 * 1024)) f
    (video_compress_to_size ffprobe ffmpeg file mb output preset
       max_iterations (start f)).2.
Proof.
  assert (Hq : quiet (start f)) by now split.
  assert (He : forall target m,
             video_final file output target f (emit (EchoErr m) (start f))).
  { intros target m. apply quiet_video_final; [now split | simpl; eauto]. }
  unfold video_compress_to_size.
  match goal with
  | |- context [try_except ?b ?h ?w] =>
      destruct (try_except_frame is_report b h w) as (evs & Hl & Hev & Hfs)
  end.
  { intros e. now apply emits_only_echo_err. }
  { intros e. apply keeps_fs_echo_err. }
  apply (closing_video_final _ _ _ _ _ _ _ Hl Hev Hfs). clear Hl Hev Hfs evs.
  destruct (f !! file) as [d |] eqn:Hfile.
  2:{ rewrite bind_get_video_size_none by exact Hfile. apply He. }
  rewrite (bind_get_video_size_some _ d) by exact Hfile.
  destruct (size_of d =? 0); [apply He |]. cbv zeta.
  destruct (size_of d <=? mb * 1024 * 1024).
  { apply quiet_video_final; [now split | simpl; eauto]. }
  rewrite !bind_echo.
  match goal with
  | |- context [bind ?m ?k ?w] =>
      destruct (bind_frame is_report m k w) as (evs & Hl & Hev & Hfs)
  end.
  { intros go. prove_emits. }
  { intros go. prove_keeps. }
  apply (closing_video_final _ _ _ _ _ _ _ Hl Hev Hfs).
  now apply video_run_final.
Qed.

End VideoTidy.





(** ** Re-encoding as JPEG *)


Section ImageJpeg.

Variable pil_header : bytes -> option (Z * Z).
Variable pil_save : format -> image -> Z -> encoded.










End ImageJpeg.


(** ** The no-op of [to-size] *)

Section ToSize.

Variable pil_header : bytes -> option (Z * Z).
Variable pil_save : format -> image -> Z -> encoded.
Variable ffprobe : bytes -> option video_info.
Variable ffmpeg : bytes -> string -> option Z -> string -> encoded.





End ToSize.


(** ** What the evaluations of the cap and of the PNG fallback show in
    general *)

Section Shortfalls.

Variable pil_header : bytes -> option (Z * Z).
Variable pil_save : format -> image -> Z -> encoded.
Variable ffprobe : bytes -> option video_info.
Variable ffmpeg : bytes -> string -> option Z -> string -> encoded.

(** A run of [to-size] that prints the warning of the cap renames
    nothing: by then the last candidate is gone. *)
Lemma warned_image_renames_nothing f file kb output max_iterations :
  let w' := (image_compress_to_size pil_header pil_save file kb output
               max_iterations (start f)).2 in
  existsb is_warning (log w') = true ->
  existsb is_rename (log w') = false.
Proof.
  simpl. intros Hw.
  destruct (image_to_size_final pil_header pil_save f file kb output
              max_iterations)
    as [_ [[Hr Hq] | [[Hr _] | (d & _ & _ & _ & Hn & _)]]];
    [exact Hr | exact Hr | congruence].
Qed.

Lemma warned_video_renames_nothing f file mb output preset max_iterations :
  let w' := (video_compress_to_size ffprobe ffmpeg file mb output preset
               max_iterations (start f)).2 in
  existsb is_warning (log w') = true ->
  existsb is_rename (log w') = false.
Proof.
  simpl. intros Hw.
  destruct (video_to_size_final ffprobe ffmpeg f file mb output preset
              max_iterations)
    as [_ [[Hr Hq] | [[Hr _] | (d & _ & _ & _ & Hn)]]];
    [exact Hr | exact Hr | congruence].
Qed.

(** A pass through the resize branch saves nothing, and, unless a file
    happens to lie at [file ++ ".temp"], ends the run: the measurement of
    the candidate raises. *)
Lemma resize_pass_raises step floor file output target st w nw nh :
  image_plan floor file st = PlanResize ->
  resize_dims target st = Ok (nw, nh) ->
  fs w !! (file ++ ".temp")%string = None ->
  image_body pil_save step floor file output target st w
  = (Raised FileNotFoundError, emit (PilResize nw nh) w).
Proof.
  intros Hp Hd Hno.
  destruct (image_body pil_save step floor file output target st w)
    as [r w'] eqn:Hb.
  apply image_body_step in Hb.
  inversion Hb as [temp fmt i l w1 Hp' Hs Hfs' Hlog
                   | temp fmt i d w1 Hp' Hs Hle Hfs' Hlog
                   | temp fmt i d w1 Hp' Hs Hle Hfs' Hlog
                   | e Hp' Hd'
                   | nw' nh' w1 Hp' Hd' Hno' Hfs' Hlog
                   | nw' nh' d w1 Hp' Hd' Hsome Hle Hfs' Hlog
                   | nw' nh' d w1 Hp' Hd' Hsome Hle Hfs' Hlog];
    subst; try congruence.
  assert (nw' = nw /\ nh' = nh) as [-> ->] by (split; congruence).
  f_equal. destruct w' as [fs' log']. simpl in *. now subst.
Qed.

End Shortfalls.

(** * Further properties *)

(** ** What the commands leave alone *)

Lemma frame_quiet E (S : string -> Prop) {A} (m : M A) :
  (forall w, fs (m w).2 = fs w) ->
  (forall w, exists evs, log (m w).2 = log w ++ evs) ->
  frame E S m.
Proof.
  intros Hfs Hlog w. destruct (Hlog w) as [evs Hl]. exists evs.
  split; [exact Hl |]. intros _ p _. now rewrite Hfs.
Qed.

Lemma frame_of_keeps E S {A} (m : M A) :
  keeps_fs m -> emits_only any_event m -> frame E S m.
Proof.
  intros Hk He. apply frame_quiet; [exact Hk |].
  intros w. destruct (He w) as (evs & Hl & _). now exists evs.
Qed.

Lemma frame_bind E S {A B} (m : M A) (k : A -> M B) :
  frame E S m -> (forall a, frame E S (k a)) -> frame E S (bind m k).
Proof.
  intros Hm Hk w. unfold bind. destruct (Hm w) as (evs & Hl & Hf).
  destruct (m w) as [[a | e |] w1]; simpl in *; try (now exists evs).
  destruct (Hk a w1) as (evs' & Hl' & Hf').
  exists (evs ++ evs'). split.
  - now rewrite Hl', Hl, app_assoc.
  - rewrite existsb_app. intros H. apply orb_false_elim in H as [H1 H2].
    intros p Hp. rewrite (Hf' H2 p Hp). now apply Hf.
Qed.

Lemma frame_try_except E S {A} (body : M A) (handler : exn -> M A) :
  frame E S body -> (forall e, frame E S (handler e)) ->
  frame E S (try_except body handler).
Proof.
  intros Hm Hk w. unfold try_except. destruct (Hm w) as (evs & Hl & Hf).
  destruct (body w) as [[a | e |] w1]; simpl in *; try (now exists evs).
  destruct (Hk e w1) as (evs' & Hl' & Hf').
  exists (evs ++ evs'). split.
  - now rewrite Hl', Hl, app_assoc.
  - rewrite existsb_app. intros H. apply orb_false_elim in H as [H1 H2].
    intros p Hp. rewrite (Hf' H2 p Hp). now apply Hf.
Qed.

Lemma frame_while E S {St} (cond : St -> bool) (body : St -> M (ctl St)) :
  (forall s, frame E S (body s)) ->
  forall fuel s, frame E S (while fuel cond body s).
Proof.
  intros Hb fuel.
  assert (Hnil : forall w : world, exists evs : list event,
             log w = log w ++ evs
             /\ (existsb E evs = false ->
                 forall p, ~ S p -> fs w !! p = fs w !! p)).
  { intros w. exists []. now rewrite app_nil_r. }
  induction fuel as [| fuel IH]; intros s w; simpl.
  - destruct (cond s); apply Hnil.
  - destruct (cond s); [| apply Hnil].
    destruct (Hb s w) as (evs & Hl & Hf).
    destruct (body s w) as [[[s' | s'] | e |] w1]; simpl in *;
      try (now exists evs).
    destruct (IH s' w1) as (evs' & Hl' & Hf').
    exists (evs ++ evs'). split.
    + now rewrite Hl', Hl, app_assoc.
    + rewrite existsb_app. intros H. apply orb_false_elim in H as [H1 H2].
      intros p Hp. rewrite (Hf' H2 p Hp). now apply Hf.
Qed.

Lemma frame_ret E S {A} (a : A) : frame E S (ret a).
Proof. apply frame_of_keeps; [apply keeps_fs_ret | apply emits_only_ret]. Qed.

Lemma frame_raise E S {A} e : frame E S (@raise A e).
Proof.
  apply frame_of_keeps; [apply keeps_fs_raise | apply emits_only_raise].
Qed.

Lemma frame_lift E S {A} (r : result A) : frame E S (lift r).
Proof.
  apply frame_of_keeps; [apply keeps_fs_lift | apply emits_only_lift].
Qed.

Lemma frame_echo E S m : frame E S (echo m).
Proof.
  apply frame_of_keeps; [apply keeps_fs_echo | now apply emits_only_echo].
Qed.

Lemma frame_echo_err E S m : frame E S (echo_err m).
Proof.
  apply frame_of_keeps;
    [apply keeps_fs_echo_err | now apply emits_only_echo_err].
Qed.

Lemma frame_getsize E S p : frame E S (getsize p).
Proof.
  apply frame_of_keeps; [apply keeps_fs_getsize | apply emits_only_getsize].
Qed.

Lemma frame_get_video_size E S p : frame E S (get_video_size p).
Proof.
  apply frame_of_keeps;
    [apply keeps_fs_get_video_size | apply emits_only_get_video_size].
Qed.

Lemma frame_path_exists E S p : frame E S (path_exists p).
Proof.
  apply frame_of_keeps;
    [apply keeps_fs_path_exists | apply emits_only_path_exists].
Qed.

Lemma frame_image_open E S pil_header file :
  frame E S (image_open pil_header file).
Proof.
  apply frame_of_keeps;
    [apply keeps_fs_image_open | apply emits_only_image_open].
Qed.

Lemma frame_get_video_info E S ffprobe file :
  frame E S (get_video_info ffprobe file).
Proof.
  apply frame_quiet; intros w; unfold get_video_info;
    destruct (fs w !! file); simpl; try reflexivity;
    exists []; now rewrite app_nil_r.
Qed.

(** A rename changes its two paths only. *)
Lemma frame_os_rename E (S : string -> Prop) a b :
  (E (OsRename a b) = true \/ (S a /\ S b)) ->
  frame E S (os_rename a b).
Proof.
  intros H w. exists [OsRename a b]. unfold os_rename.
  destruct (fs w !! a) as [d |]; simpl; (split; [reflexivity |]);
    intros He p Hp; try reflexivity.
  destruct H as [H | [Ha Hb]].
  - rewrite H in He. discriminate.
  - rewrite lookup_insert_ne by (intros ->; now apply Hp).
    apply lookup_delete_ne. intros ->. now apply Hp.
Qed.

Lemma frame_os_remove E (S : string -> Prop) a :
  S a -> frame E S (os_remove a).
Proof.
  intros Ha w. exists [OsRemove a]. unfold os_remove.
  destruct (fs w !! a) as [d |]; simpl; (split; [reflexivity |]);
    intros _ p Hp; try reflexivity.
  apply lookup_delete_ne. intros ->. now apply Hp.
Qed.

Lemma after_encode_other p r f q :
  p <> q -> after_encode p r f !! q = f !! q.
Proof.
  intros Hne. destruct r as [d | [d |]]; simpl;
    try reflexivity; now apply lookup_insert_ne.
Qed.

Lemma frame_image_save E (S : string -> Prop) pil_save path fmt i q :
  S path -> frame E S (image_save pil_save path fmt i q).
Proof.
  intros Ha w. exists [PilSave path fmt i q (pil_save fmt i q)].
  unfold image_save.
  destruct (pil_save fmt i q) as [d | l] eqn:Hs;
    cbn [snd log fs emit with_fs];
    (split; [reflexivity |]); intros _ p Hp;
    apply after_encode_other; intros ->; now apply Hp.
Qed.

Lemma frame_compress_video_ffmpeg E (S : string -> Prop) ffmpeg i o b p :
  S o -> frame E S (compress_video_ffmpeg ffmpeg i o b p).
Proof.
  intros Ha w. unfold compress_video_ffmpeg. cbv zeta.
  cbn [snd log fs emit with_fs].
  eexists [_]. split; [reflexivity |]. intros _ q Hq.
  apply after_encode_other. intros ->. now apply Hq.
Qed.

Ltac frame_step :=
  match goal with
  | |- frame _ _ (bind _ _) => apply frame_bind; [| intros ?]
  | |- frame _ _ (try_except _ _) => apply frame_try_except; [| intros ?]
  | |- frame _ _ (ret _) => apply frame_ret
  | |- frame _ _ (raise _) => apply frame_raise
  | |- frame _ _ (lift _) => apply frame_lift
  | |- frame _ _ (getsize _) => apply frame_getsize
  | |- frame _ _ (get_video_size _) => apply frame_get_video_size
  | |- frame _ _ (get_video_info _ _) => apply frame_get_video_info
  | |- frame _ _ (image_open _ _) => apply frame_image_open
  | |- frame _ _ (path_exists _) => apply frame_path_exists
  | |- frame _ _ (echo _) => apply frame_echo
  | |- frame _ _ (echo_err _) => apply frame_echo_err
  | |- frame _ _ (if ?b then _ else _) => destruct b
  | |- frame _ _ (match ?x with _ => _ end) => destruct x
  end.

Ltac prove_frame := repeat frame_step.

Lemma frame_to_frame E S {A} (Q : A -> Prop) (m : M A) :
  frame_to E S Q m -> frame E S m.
Proof.
  intros H w. destruct (H w) as (evs & Hl & Hf & _). now exists evs.
Qed.

Lemma frame_bind_to E S {A B} (Q : A -> Prop) (m : M A) (k : A -> M B) :
  frame_to E S Q m -> (forall a, Q a -> frame E S (k a)) ->
  frame E S (bind m k).
Proof.
  intros Hm Hk w. unfold bind. destruct (Hm w) as (evs & Hl & Hf & HQ).
  destruct (m w) as [[a | e |] w1]; simpl in *; try (now exists evs).
  destruct (Hk a (HQ a eq_refl) w1) as (evs' & Hl' & Hf').
  exists (evs ++ evs'). split.
  - now rewrite Hl', Hl, app_assoc.
  - rewrite existsb_app. intros H. apply orb_false_elim in H as [H1 H2].
    intros p Hp. rewrite (Hf' H2 p Hp). now apply Hf.
Qed.

Lemma frame_while_to E S {St} (Q : St -> Prop) (cond : St -> bool)
    (body : St -> M (ctl St)) :
  (forall s, frame_to E S (after_pass Q) (body s)) ->
  forall fuel s, Q s -> frame_to E S Q (while fuel cond body s).
Proof.
  intros Hb fuel.
  assert (Hnil : forall (w : world) (r : outcome St),
             (forall a, r = Normal a -> Q a) ->
             exists evs : list event,
               log w = log w ++ evs
               /\ (existsb E evs = false ->
                   forall p, ~ S p -> fs w !! p = fs w !! p)
               /\ forall a, r = Normal a -> Q a).
  { intros w r Hr. exists []. now rewrite app_nil_r. }
  induction fuel as [| fuel IH]; intros s Hs w; simpl.
  - destruct (cond s); apply Hnil; intros a [= <-]; exact Hs.
  - destruct (cond s); [| apply Hnil; intros a [= <-]; exact Hs].
    destruct (Hb s w) as (evs & Hl & Hf & HQ).
    destruct (body s w) as [[[s' | s'] | e |] w1]; simpl in *.
    + destruct (IH s' (HQ _ eq_refl) w1) as (evs' & Hl' & Hf' & HQ').
      exists (evs ++ evs'). split; [| split].
      * now rewrite Hl', Hl, app_assoc.
      * rewrite existsb_app. intros H. apply orb_false_elim in H as [H1 H2].
        intros p Hp. rewrite (Hf' H2 p Hp). now apply Hf.
      * exact HQ'.
    + exists evs. split; [exact Hl | split; [exact Hf |]].
      intros a [= <-]. exact (HQ _ eq_refl).
    + exists evs. split; [exact Hl | split; [exact Hf |]]. discriminate.
    + exists evs. split; [exact Hl | split; [exact Hf |]]. discriminate.
Qed.

(** *** Video *)

Section VideoFrame.

Variable ffprobe : bytes -> option video_info.
Variable ffmpeg : bytes -> string -> option Z -> string -> encoded.
Variables (file : string) (output : option string) (preset : string).
Variable E : event -> bool.
Variable S : string -> Prop.

Hypothesis S_temp : S (temp_output_of file).
Hypothesis S_rename :
  E (OsRename (temp_output_of file) (out_path output file)) = true
  \/ S (out_path output file).

Lemma frame_video_rename :
  frame E S (os_rename (temp_output_of file) (out_path output file)).
Proof.
  apply frame_os_rename. destruct S_rename as [H | H]; [now left |].
  right. now split.
Qed.

Lemma frame_video_body decay target original st :
  frame E S (video_body ffmpeg decay file output preset target original st).
Proof.
  unfold video_body. cbv zeta. prove_frame;
    first [ apply frame_video_rename
          | now apply frame_os_remove
          | now apply frame_compress_video_ffmpeg ].
Qed.

Lemma frame_video_run decay target original max_iterations :
  frame E S (video_run ffprobe ffmpeg decay file output preset target
               original max_iterations).
Proof.
  unfold video_run.
  apply frame_bind; [apply frame_get_video_info | intros vi].
  destruct (info_missing vi); [prove_frame |].
  destruct vi as [vi |]; [| prove_frame].
  destruct (find_video_stream vi); [| prove_frame].
  apply frame_bind; [apply frame_lift | intros b].
  apply frame_bind_to with
    (Q := fun st => forall t, temp_output st = Some t
                              -> t = temp_output_of file).
  - apply frame_while_to; [| discriminate].
    intros st w.
    destruct (frame_video_body decay target original st w)
      as (evs & Hl & Hf).
    exists evs. split; [exact Hl | split; [exact Hf |]].
    intros c Hc.
    destruct (video_body ffmpeg decay file output preset target original
                st w) as [r w'] eqn:Hb.
    apply video_body_step in Hb. simpl in Hc. subst r.
    inversion Hb; subst; simpl; now intros t [= <-].
  - intros st Hst. apply frame_bind; [| intros []; apply frame_ret].
    unfold video_shortfall.
    destruct (max_iterations <=? v_iterations st); [| apply frame_ret].
    apply frame_bind; [apply frame_echo | intros _].
    destruct (temp_output st) as [t |]; [| apply frame_raise].
    rewrite (Hst t eq_refl).
    apply frame_bind; [apply frame_path_exists | intros e].
    destruct e; [apply frame_video_rename | apply frame_ret].
Qed.

Lemma frame_video_by_percent reduction max_iterations :
  frame E S (video_compress_by_percent ffprobe ffmpeg file reduction output
               preset max_iterations).
Proof.
  unfold video_compress_by_percent.
  apply frame_try_except; [| intros e; apply frame_echo_err].
  apply frame_bind; [apply frame_get_video_size | intros original].
  destruct (original =? 0); [apply frame_echo_err |].
  apply frame_bind; [apply frame_lift | intros t].
  apply frame_bind; [apply frame_echo | intros _].
  apply frame_bind; [apply frame_echo | intros _].
  apply frame_bind; [apply frame_video_run | intros go].
  destruct go; prove_frame.
Qed.

Lemma frame_video_to_size mb max_iterations :
  frame E S (video_compress_to_size ffprobe ffmpeg file mb output preset
               max_iterations).
Proof.
  unfold video_compress_to_size.
  apply frame_try_except; [| intros e; apply frame_echo_err].
  apply frame_bind; [apply frame_get_video_size | intros original].
  destruct (original =? 0); [apply frame_echo_err |].
  cbv zeta.
  destruct (original <=? mb * 1024 * 1024); [apply frame_echo |].
  apply frame_bind; [apply frame_echo | intros _].
  apply frame_bind; [apply frame_echo | intros _].
  apply frame_bind; [apply frame_video_run | intros go].
  destruct go; prove_frame.
Qed.

End VideoFrame.

(** *** Images *)

(** Replacing a pattern by one of the same length keeps the length. *)
Lemma prefix_length a : forall b,
  String.prefix a b = true -> (String.length a <= String.length b)%nat.
Proof.
  induction a as [| c a IH]; intros [| d b] H; simpl in *; try lia;
    try discriminate.
  destruct (ascii_dec c d); [| discriminate]. apply IH in H. lia.
Qed.

Lemma replace_scan_length old new :
  String.length old = String.length new ->
  (0 < String.length old)%nat ->
  forall s skip, (skip <= String.length s)%nat ->
    String.length (PyStr.replace_scan old new skip s)
    = (String.length s - skip)%nat.
Proof.
  intros Hlen Hpos. induction s as [| c s IH]; intros skip Hs;
    cbn [PyStr.replace_scan String.length] in *.
  - lia.
  - destruct skip as [| k].
    + destruct (String.prefix old (String c s)) eqn:Hp.
      * apply prefix_length in Hp. cbn [String.length] in Hp.
        rewrite string_length_app, IH by lia. lia.
      * cbn [String.length]. rewrite IH by lia. lia.
    + rewrite IH by lia. lia.
Qed.

Lemma replace_same_length s old new :
  String.length old = String.length new -> old <> EmptyString ->
  String.length (PyStr.replace s old new) = String.length s.
Proof.
  intros Hlen Hne. unfold PyStr.replace.
  destruct old as [| c old]; [congruence |].
  rewrite replace_scan_length by (exact Hlen || (simpl; lia)). lia.
Qed.

(** The candidates of a JPEG, PNG or WebP file are written beside the
    source, never over it. *)
Lemma source_not_candidate file :
  file_kind file <> KOther -> ~ In file (image_temps file).
Proof.
  unfold image_temps. intros Hk Hin.
  assert (Htemp : (file ++ ".temp")%string <> file).
  { intros H. apply (f_equal String.length) in H.
    rewrite string_length_app in H. simpl in H. lia. }
  cbv zeta in Hin.
  destruct (file_kind file); try congruence; cbn [In] in Hin.
  - destruct Hin as [H | []]. now apply Htemp.
  - destruct Hin as [H | [H | []]]; [now apply Htemp |].
    apply (f_equal String.length) in H.
    rewrite replace_same_length, string_length_app in H
      by (reflexivity || discriminate).
    simpl in H. lia.
  - destruct Hin as [H | []]. now apply Htemp.
Qed.

Lemma plan_save_candidate floor file st temp fmt i :
  image_plan floor file st = PlanSave temp fmt i -> In temp (image_temps file).
Proof.
  unfold image_plan, image_temps.
  destruct (file_kind file); [| destruct (quality st <? floor) | |];
    intros [= <- _ _] || discriminate; simpl; auto.
Qed.

Lemma plan_resize_candidate floor file st :
  image_plan floor file st = PlanResize ->
  In (file ++ ".temp")%string (image_temps file).
Proof.
  unfold image_plan, image_temps.
  destruct (file_kind file); [| destruct (quality st <? floor) | |];
    discriminate || (intros _; simpl; auto).
Qed.

Section ImageFrame.

Variable pil_header : bytes -> option (Z * Z).
Variable pil_save : format -> image -> Z -> encoded.
Variables (file : string) (output : option string).
Variable E : event -> bool.
Variable S : string -> Prop.

Hypothesis S_temp : forall t, In t (image_temps file) -> S t.
Hypothesis S_rename :
  (forall t, E (OsRename t (out_path output file)) = true)
  \/ S (out_path output file).

Lemma frame_image_rename t :
  In t (image_temps file) ->
  frame E S (os_rename t (out_path output file)).
Proof.
  intros Ht. apply frame_os_rename. destruct S_rename as [H | H];
    [now left | right; split; [now apply S_temp | exact H]].
Qed.

Lemma rename_outside t d (g : gmap string bytes) p :
  In t (image_temps file) ->
  existsb E [OsRename t (out_path output file)] = false ->
  ~ S p ->
  <[out_path output file := d]> (delete t g) !! p = g !! p.
Proof.
  intros Ht He Hp. destruct S_rename as [H | H].
  - simpl in He. rewrite H in He. discriminate.
  - rewrite lookup_insert_ne by (intros <-; now apply Hp).
    apply lookup_delete_ne. intros ->. apply Hp. now apply S_temp.
Qed.

Lemma existsb_last (l : list event) e :
  existsb E (l ++ [e]) = false -> existsb E [e] = false.
Proof.
  rewrite existsb_app. intros H. now apply orb_false_elim in H as [_ H].
Qed.

Lemma frame_image_body step floor target st :
  frame_to E S (after_pass (names_candidate file))
    (image_body pil_save step floor file output target st).
Proof.
  intros w.
  destruct (image_body pil_save step floor file output target st w)
    as [r w'] eqn:Hb.
  apply image_body_step in Hb. cbn [fst snd].
  inversion Hb as
      [ temp fmt i l w1 Hp Hs Hfs Hlog
      | temp fmt i d w1 Hp Hs Hle Hfs Hlog
      | temp fmt i d w1 Hp Hs Hle Hfs Hlog
      | e Hp Hd
      | nw nh w1 Hp Hd Hnone Hfs Hlog
      | nw nh d w1 Hp Hd Hsome Hle Hfs Hlog
      | nw nh d w1 Hp Hd Hsome Hle Hfs Hlog ]; subst.
  - eexists. split; [exact Hlog | split; [| discriminate]].
    intros _ p Hn. rewrite Hfs. apply after_encode_other.
    intros ->. apply Hn, S_temp. eapply plan_save_candidate, Hp.
  - pose proof (plan_save_candidate _ _ _ _ _ _ Hp) as Ht.
    eexists. split; [exact Hlog | split].
    + intros He p Hn. rewrite Hfs.
      change [PilSave temp fmt i (quality st) (Encoded d);
              Echo (MsgIteration (iterations st + 1) (quality st) (size_of d));
              OsRename temp (out_path output file)]
        with ([PilSave temp fmt i (quality st) (Encoded d);
               Echo (MsgIteration (iterations st + 1) (quality st)
                       (size_of d))]
              ++ [OsRename temp (out_path output file)]) in He.
      apply existsb_last in He.
      rewrite (rename_outside _ _ _ _ Ht He Hn).
      apply lookup_insert_ne. intros ->. now apply Hn, S_temp.
    + intros a [= <-]. simpl. now intros t [= <-].
  - pose proof (plan_save_candidate _ _ _ _ _ _ Hp) as Ht.
    eexists. split; [exact Hlog | split].
    + intros _ p Hn. rewrite Hfs.
      rewrite lookup_delete_ne by (intros ->; now apply Hn, S_temp).
      apply lookup_insert_ne. intros ->. now apply Hn, S_temp.
    + intros a [= <-]. simpl. now intros t [= <-].
  - exists []. rewrite app_nil_r. split; [reflexivity |].
    split; [reflexivity | discriminate].
  - eexists. split; [exact Hlog | split; [| discriminate]].
    intros _ p _. now rewrite Hfs.
  - pose proof (plan_resize_candidate _ _ _ Hp) as Ht.
    eexists. split; [exact Hlog | split].
    + intros He p Hn. rewrite Hfs.
      change [PilResize nw nh;
              Echo (MsgIteration (iterations st + 1) 95 (size_of d));
              OsRename (file ++ ".temp") (out_path output file)]
        with ([PilResize nw nh;
               Echo (MsgIteration (iterations st + 1) 95 (size_of d))]
              ++ [OsRename (file ++ ".temp")%string (out_path output file)])
        in He.
      apply existsb_last in He.
      apply (rename_outside _ _ _ _ Ht He Hn).
    + intros a [= <-]. simpl. now intros t [= <-].
  - pose proof (plan_resize_candidate _ _ _ Hp) as Ht.
    eexists. split; [exact Hlog | split].
    + intros _ p Hn. rewrite Hfs.
      apply lookup_delete_ne. intros <-. now apply Hn, S_temp.
    + intros a [= <-]. simpl. now intros t [= <-].
Qed.

Lemma frame_image_run step floor target max_iterations original :
  frame E S (image_run pil_header pil_save step floor file output target
               max_iterations original).
Proof.
  unfold image_run.
  apply frame_bind; [apply frame_image_open | intros i].
  apply frame_bind_to with (Q := names_candidate file).
  - apply frame_while_to; [| discriminate].
    intros st. apply frame_image_body.
  - intros st Hst. apply frame_bind; [| intros []; apply frame_ret].
    unfold image_shortfall.
    destruct (Py.gt (Py.Int (current_size st)) target); [| apply frame_ret].
    apply frame_bind; [apply frame_echo | intros _].
    destruct (temp_path st) as [t |] eqn:Ht; [| apply frame_raise].
    apply frame_bind; [apply frame_path_exists | intros e].
    destruct e; [| apply frame_ret].
    apply frame_image_rename. now apply Hst.
Qed.

Lemma frame_image_by_percent reduction max_iterations :
  frame E S (image_compress_by_percent pil_header pil_save file reduction
               output max_iterations).
Proof.
  unfold image_compress_by_percent.
  apply frame_try_except; [| intros e; apply frame_echo_err].
  apply frame_bind; [apply frame_getsize | intros original].
  apply frame_bind; [apply frame_lift | intros t].
  apply frame_bind; [apply frame_echo | intros _].
  apply frame_bind; [apply frame_echo | intros _].
  apply frame_bind; [apply frame_image_run | intros st].
  prove_frame.
Qed.

Lemma frame_image_to_size kb max_iterations :
  frame E S (image_compress_to_size pil_header pil_save file kb output
               max_iterations).
Proof.
  unfold image_compress_to_size.
  apply frame_try_except; [| intros e; apply frame_echo_err].
  apply frame_bind; [apply frame_getsize | intros original].
  cbv zeta.
  destruct (original <=? kb * 1024); [apply frame_echo |].
  apply frame_bind; [apply frame_echo | intros _].
  apply frame_bind; [apply frame_echo | intros _].
  apply frame_bind; [apply frame_image_run | intros st].
  prove_frame.
Qed.

End ImageFrame.

Lemma existsb_no_event evs : existsb no_event evs = false.
Proof. induction evs as [| e evs IH]; [reflexivity | exact IH]. Qed.

Lemma existsb_suffix (E : event -> bool) l evs :
  existsb E (l ++ evs) = false -> existsb E evs = false.
Proof.
  rewrite existsb_app. intros H. now apply orb_false_elim in H as [_ H].
Qed.

(** X1: a video command changes two paths at most: the temporary path
    [file.temp<ext>] of its candidates and the destination (the
    [--output] path, or the source when there is none). Every other path
    holds, when the command returns, what it held before. *)
Theorem video_changes_two_paths
    (ffprobe : bytes -> option video_info)
    (ffmpeg : bytes -> string -> option Z -> string -> encoded)
    (file : string) (amount : Z) (output : option string) (preset : string)
    (max_iterations : Z) (w : world) (p : string) :
  p <> temp_output_of file ->
  p <> out_path output file ->
  fs (video_compress_by_percent ffprobe ffmpeg file amount output preset
        max_iterations w).2 !! p = fs w !! p
  /\ fs (video_compress_to_size ffprobe ffmpeg file amount output preset
           max_iterations w).2 !! p = fs w !! p.
Proof.
  intros Ht Ho.
  assert (Hn : ~ (p = temp_output_of file \/ p = out_path output file))
    by (now intros [H | H]).
  split.
  - destruct (frame_video_by_percent ffprobe ffmpeg file output preset
                no_event
                (fun q => q = temp_output_of file \/ q = out_path output file)
                (or_introl eq_refl) (or_intror (or_intror eq_refl))
                amount max_iterations w) as (evs & _ & Hf).
    apply Hf; [apply existsb_no_event | exact Hn].
  - destruct (frame_video_to_size ffprobe ffmpeg file output preset
                no_event
                (fun q => q = temp_output_of file \/ q = out_path output file)
                (or_introl eq_refl) (or_intror (or_intror eq_refl))
                amount max_iterations w) as (evs & _ & Hf).
    apply Hf; [apply existsb_no_event | exact Hn].
Qed.

(** A two-pass run on [clip.mp4] beside a file of notes. *)
Lemma video_changes_two_paths_witness :
  let w := start (<["notes.txt"%string := Fixtures.blob 3]>
                    (Fixtures.disk "clip.mp4" 2000)) in
  fs (video_compress_by_percent (Fixtures.probe (Present 4000) Absent)
        Fixtures.fifth_ffmpeg "clip.mp4" 50 None "medium" 10 w).2
    !! "notes.txt"%string = fs w !! "notes.txt"%string
  /\ fs (video_compress_to_size (Fixtures.probe (Present 4000) Absent)
           Fixtures.fifth_ffmpeg "clip.mp4" 50 None "medium" 10 w).2
       !! "notes.txt"%string = fs w !! "notes.txt"%string.
Proof.
  intros w.
  apply (video_changes_two_paths (Fixtures.probe (Present 4000) Absent)
           Fixtures.fifth_ffmpeg "clip.mp4" 50 None "medium" 10 w
           "notes.txt"); vm_compute; discriminate.
Defined.

(** X2: a video command that renames nothing changes the temporary path
    only: the source and every other path hold what they held. So a run
    that ends on an error, on a failed encode or on an exhausted cap whose
    last candidate was removed leaves the source as it was. *)
Theorem video_source_kept_without_rename
    (ffprobe : bytes -> option video_info)
    (ffmpeg : bytes -> string -> option Z -> string -> encoded)
    (f : gmap string bytes) (file : string) (amount : Z)
    (output : option string) (preset : string) (max_iterations : Z)
    (w' : world) :
  w' = (video_compress_by_percent ffprobe ffmpeg file amount output preset
          max_iterations (start f)).2
  \/ w' = (video_compress_to_size ffprobe ffmpeg file amount output preset
             max_iterations (start f)).2 ->
  existsb is_rename (log w') = false ->
  fs w' !! file = f !! file
  /\ forall p, p <> temp_output_of file -> fs w' !! p = f !! p.
Proof.
  intros Hw Hren.
  assert (Hall : forall p, p <> temp_output_of file -> fs w' !! p = f !! p).
  { destruct Hw as [-> | ->].
    - destruct (frame_video_by_percent ffprobe ffmpeg file output preset
                  is_rename (fun q => q = temp_output_of file)
                  eq_refl (or_introl eq_refl)
                  amount max_iterations (start f)) as (evs & Hl & Hf).
      rewrite Hl in Hren. apply existsb_suffix in Hren.
      intros p Hp. now apply Hf.
    - destruct (frame_video_to_size ffprobe ffmpeg file output preset
                  is_rename (fun q => q = temp_output_of file)
                  eq_refl (or_introl eq_refl)
                  amount max_iterations (start f)) as (evs & Hl & Hf).
      rewrite Hl in Hren. apply existsb_suffix in Hren.
      intros p Hp. now apply Hf. }
  split; [| exact Hall].
  apply Hall. intros H. now apply (temp_output_ne file).
Qed.

(** Two passes are allowed and no candidate is under 900 bytes: the cap is
    reached with the last candidate removed. *)
Lemma video_source_kept_without_rename_witness :
  let f := Fixtures.disk "clip.mp4" 2000 in
  let w' := (video_compress_by_percent (Fixtures.probe (Present 4000) Absent)
               Fixtures.stubborn_ffmpeg "clip.mp4" 80 None "medium" 2
               (start f)).2 in
  fs w' !! "clip.mp4"%string = f !! "clip.mp4"%string
  /\ forall p, p <> temp_output_of "clip.mp4" -> fs w' !! p = f !! p.
Proof.
  intros f w'.
  apply (video_source_kept_without_rename
           (Fixtures.probe (Present 4000) Absent) Fixtures.stubborn_ffmpeg
           f "clip.mp4" 80 None "medium" 2 w').
  - left. reflexivity.
  - vm_compute. reflexivity.
Defined.

(** X3: an image command changes the candidate paths of its file and the
    destination, and nothing else: every other path holds, when the
    command returns, what it held before. The candidate paths are
    [file.temp] and, where the command re-encodes to JPEG, that path with
    the extension replaced by [.jpg]. *)
Theorem image_changes_candidates_and_destination
    (pil_header : bytes -> option (Z * Z))
    (pil_save : format -> image -> Z -> encoded)
    (file : string) (amount : Z) (output : option string)
    (max_iterations : Z) (w : world) (p : string) :
  ~ In p (image_temps file) ->
  p <> out_path output file ->
  fs (image_compress_by_percent pil_header pil_save file amount output
        max_iterations w).2 !! p = fs w !! p
  /\ fs (image_compress_to_size pil_header pil_save file amount output
           max_iterations w).2 !! p = fs w !! p.
Proof.
  intros Ht Ho.
  assert (Hn : ~ (In p (image_temps file) \/ p = out_path output file))
    by (now intros [H | H]).
  split.
  - destruct (frame_image_by_percent pil_header pil_save file output
                no_event
                (fun q => In q (image_temps file) \/ q = out_path output file)
                (fun t Ht => or_introl Ht) (or_intror (or_intror eq_refl))
                amount max_iterations w) as (evs & _ & Hf).
    apply Hf; [apply existsb_no_event | exact Hn].
  - destruct (frame_image_to_size pil_header pil_save file output
                no_event
                (fun q => In q (image_temps file) \/ q = out_path output file)
                (fun t Ht => or_introl Ht) (or_intror (or_intror eq_refl))
                amount max_iterations w) as (evs & _ & Hf).
    apply Hf; [apply existsb_no_event | exact Hn].
Qed.

(** A run on [photo.png] beside a file of notes. *)
Lemma image_changes_candidates_and_destination_witness :
  let w := start (<["notes.txt"%string := Fixtures.blob 3]>
                    (Fixtures.disk "photo.png" 4000)) in
  fs (image_compress_by_percent Fixtures.header Fixtures.linear_save
        "photo.png" 80 None 15 w).2
    !! "notes.txt"%string = fs w !! "notes.txt"%string
  /\ fs (image_compress_to_size Fixtures.header Fixtures.linear_save
           "photo.png" 80 None 15 w).2
       !! "notes.txt"%string = fs w !! "notes.txt"%string.
Proof.
  intros w.
  apply (image_changes_candidates_and_destination Fixtures.header
           Fixtures.linear_save "photo.png" 80 None 15 w "notes.txt").
  - vm_compute. intros [H | [H | []]]; discriminate.
  - vm_compute. discriminate.
Defined.

(** X4: an image command that renames nothing changes candidate paths
    only. The source of a JPEG, PNG or WebP run is not among them, so it
    holds what it held: a run that ends on an exception or on an exhausted
    cap whose last candidate was removed leaves the source as it was. *)
Theorem image_source_kept_without_rename
    (pil_header : bytes -> option (Z * Z))
    (pil_save : format -> image -> Z -> encoded)
    (f : gmap string bytes) (file : string) (amount : Z)
    (output : option string) (max_iterations : Z) (w' : world) :
  w' = (image_compress_by_percent pil_header pil_save file amount output
          max_iterations (start f)).2
  \/ w' = (image_compress_to_size pil_header pil_save file amount output
             max_iterations (start f)).2 ->
  existsb is_rename (log w') = false ->
  (forall p, ~ In p (image_temps file) -> fs w' !! p = f !! p)
  /\ (file_kind file <> KOther -> fs w' !! file = f !! file).
Proof.
  intros Hw Hren.
  assert (Hall : forall p, ~ In p (image_temps file)
                           -> fs w' !! p = f !! p).
  { destruct Hw as [-> | ->].
    - destruct (frame_image_by_percent pil_header pil_save file output
                  is_rename (fun q => In q (image_temps file))
                  (fun t Ht => Ht) (or_introl (fun t => eq_refl))
                  amount max_iterations (start f)) as (evs & Hl & Hf).
      rewrite Hl in Hren. apply existsb_suffix in Hren.
      intros p Hp. now apply Hf.
    - destruct (frame_image_to_size pil_header pil_save file output
                  is_rename (fun q => In q (image_temps file))
                  (fun t Ht => Ht) (or_introl (fun t => eq_refl))
                  amount max_iterations (start f)) as (evs & Hl & Hf).
      rewrite Hl in Hren. apply existsb_suffix in Hren.
      intros p Hp. now apply Hf. }
  split; [exact Hall |].
  intros Hk. apply Hall. now apply source_not_candidate.
Qed.

(** A PNG that no quality brings under the target: the run ends in the
    resize branch, with nothing renamed. *)
Lemma image_source_kept_without_rename_witness :
  let f := Fixtures.disk "photo.png" 4000 in
  let w' := (image_compress_by_percent Fixtures.header Fixtures.heavy_save
               "photo.png" 80 None 15 (start f)).2 in
  (forall p, ~ In p (image_temps "photo.png") -> fs w' !! p = f !! p)
  /\ (file_kind "photo.png" <> KOther
      -> fs w' !! "photo.png"%string = f !! "photo.png"%string).
Proof.
  intros f w'.
  apply (image_source_kept_without_rename Fixtures.header Fixtures.heavy_save
           f "photo.png" 80 None 15 w').
  - left. reflexivity.
  - vm_compute. reflexivity.
Defined.

(** ** The cap on the passes bounds the calls of the encoder *)

Lemma encode_count_app l l' :
  encode_count (l ++ l') = (encode_count l + encode_count l')%nat.
Proof. unfold encode_count. now rewrite List.filter_app, length_app. Qed.

Lemma encode_count_quiet evs :
  forallb not_encode evs = true -> encode_count evs = 0%nat.
Proof.
  unfold encode_count. induction evs as [| e evs IH]; [reflexivity |].
  simpl. intros H. apply andb_prop in H as [He H].
  unfold not_encode in He. destruct (is_encode e); [discriminate |].
  now apply IH.
Qed.

Lemma calls_of_emits n {A} (m : M A) :
  emits_only not_encode m -> calls_at_most n m.
Proof.
  intros H w. destruct (H w) as (evs & Hl & Hev). exists evs.
  split; [exact Hl |]. rewrite (encode_count_quiet _ Hev). lia.
Qed.

Lemma calls_bind_l n {A B} (m : M A) (k : A -> M B) :
  emits_only not_encode m -> (forall a, calls_at_most n (k a)) ->
  calls_at_most n (bind m k).
Proof.
  intros Hm Hk w. unfold bind. destruct (Hm w) as (evs & Hl & Hev).
  pose proof (encode_count_quiet _ Hev) as H0.
  destruct (m w) as [[a | e |] w1]; simpl in *;
    try (exists evs; split; [exact Hl | lia]).
  destruct (Hk a w1) as (evs' & Hl' & Hn).
  exists (evs ++ evs'). split.
  - now rewrite Hl', Hl, app_assoc.
  - rewrite encode_count_app. lia.
Qed.

Lemma calls_bind_r n {A B} (m : M A) (k : A -> M B) :
  calls_at_most n m -> (forall a, emits_only not_encode (k a)) ->
  calls_at_most n (bind m k).
Proof.
  intros Hm Hk w. unfold bind. destruct (Hm w) as (evs & Hl & Hn).
  destruct (m w) as [[a | e |] w1]; simpl in *;
    try (exists evs; split; [exact Hl | lia]).
  destruct (Hk a w1) as (evs' & Hl' & Hev).
  exists (evs ++ evs'). split.
  - now rewrite Hl', Hl, app_assoc.
  - rewrite encode_count_app, (encode_count_quiet _ Hev). lia.
Qed.

Lemma calls_try_except n {A} (body : M A) (handler : exn -> M A) :
  calls_at_most n body -> (forall e, emits_only not_encode (handler e)) ->
  calls_at_most n (try_except body handler).
Proof.
  intros Hm Hk w. unfold try_except. destruct (Hm w) as (evs & Hl & Hn).
  destruct (body w) as [[a | e |] w1]; simpl in *;
    try (exists evs; split; [exact Hl | lia]).
  destruct (Hk e w1) as (evs' & Hl' & Hev).
  exists (evs ++ evs'). split.
  - now rewrite Hl', Hl, app_assoc.
  - rewrite encode_count_app, (encode_count_quiet _ Hev). lia.
Qed.

Section Cap.

Variable pil_header : bytes -> option (Z * Z).
Variable pil_save : format -> image -> Z -> encoded.
Variable ffprobe : bytes -> option video_info.
Variable ffmpeg : bytes -> string -> option Z -> string -> encoded.

Lemma video_loop_cap decay file output preset target original max_iterations
    fuel b :
  calls_at_most (Z.to_nat max_iterations)
    (video_loop ffmpeg decay file output preset target original
       max_iterations fuel
       {| current_bitrate := b; v_iterations := 0; temp_output := None |}).
Proof.
  intros w.
  destruct (video_loop ffmpeg decay file output preset target original
              max_iterations fuel _ w) as [r w'] eqn:Hrun.
  cbn [snd]. unfold video_loop in Hrun.
  refine (while_rule _ _
            (fun st w1 => exists evs,
                 log w1 = log w ++ evs
                 /\ 0 <= v_iterations st
                 /\ (encode_count evs <= Z.to_nat (v_iterations st))%nat
                 /\ (encode_count evs <= Z.to_nat max_iterations)%nat)
            (fun _ w1 => exists evs,
                 log w1 = log w ++ evs
                 /\ (encode_count evs <= Z.to_nat max_iterations)%nat)
            _ _ _ fuel _ w r w' _ Hrun).
  - intros st w1 (evs & Hl & H0 & Hn & Hm) Hc.
    exists evs. split; [exact Hl | exact Hm].
  - intros st w1 (evs & Hl & H0 & Hn & Hm) Hc. unfold video_cond in Hc.
    apply Z.ltb_lt in Hc. exists evs. split; [exact Hl | lia].
  - intros st w1 rb wb (evs & Hl & H0 & Hn & Hm) Hc Hb.
    unfold video_cond in Hc. apply Z.ltb_lt in Hc.
    apply video_body_step in Hb.
    inversion Hb as
        [ e Ht
        | tb l w2 Ht He Hfs Hlog
        | tb d w2 Ht He Hle Hfs Hlog
        | tb d e w2 Ht He Hle Hd Hfs Hlog
        | tb d b' w2 Ht He Hle Hd Hfs Hlog ]; subst.
    + exists evs. split; [exact Hl | lia].
    + eexists. rewrite Hlog, Hl, <- app_assoc. split; [reflexivity |].
      rewrite encode_count_app. unfold encode_count at 2. simpl. lia.
    + eexists. rewrite Hlog, Hl, <- app_assoc. split; [reflexivity |].
      rewrite encode_count_app. unfold encode_count at 2. simpl. lia.
    + eexists. rewrite Hlog, Hl, <- app_assoc. split; [reflexivity |].
      rewrite encode_count_app. unfold encode_count at 2. simpl. lia.
    + eexists. rewrite Hlog, Hl, <- app_assoc. split; [reflexivity |].
      simpl. split; [lia |].
      rewrite encode_count_app. unfold encode_count at 2 4. simpl. lia.
  - exists []. rewrite app_nil_r. simpl. split; [reflexivity |].
    split; [lia |]. unfold encode_count. simpl. lia.
Qed.

Lemma video_run_cap decay file output preset target original max_iterations :
  calls_at_most (Z.to_nat max_iterations)
    (video_run ffprobe ffmpeg decay file output preset target original
       max_iterations).
Proof.
  unfold video_run. apply calls_bind_l.
  { intros w. exists []. rewrite app_nil_r. split; [| reflexivity].
    unfold get_video_info. now destruct (fs w !! file). }
  intros vi.
  destruct (info_missing vi); [apply calls_of_emits; prove_emits |].
  destruct vi as [vi |]; [| apply calls_of_emits; prove_emits].
  destruct (find_video_stream vi); [| apply calls_of_emits; prove_emits].
  apply calls_bind_l; [apply emits_only_lift | intros b].
  apply calls_bind_r; [apply video_loop_cap |].
  intros st. apply emits_only_bind; [apply video_shortfall_emits |].
  intros _. apply emits_only_ret.
Qed.

Lemma image_loop_cap step floor file output target max_iterations fuel i q s :
  calls_at_most (Z.to_nat max_iterations)
    (image_loop pil_save step floor file output target max_iterations fuel
       {| img := i; quality := q; current_size := s; iterations := 0;
          temp_path := None |}).
Proof.
  intros w.
  destruct (image_loop pil_save step floor file output target max_iterations
              fuel _ w) as [r w'] eqn:Hrun.
  cbn [snd]. unfold image_loop in Hrun.
  refine (while_rule _ _
            (fun st w1 => exists evs,
                 log w1 = log w ++ evs
                 /\ 0 <= iterations st
                 /\ (encode_count evs <= Z.to_nat (iterations st))%nat
                 /\ (encode_count evs <= Z.to_nat max_iterations)%nat)
            (fun _ w1 => exists evs,
                 log w1 = log w ++ evs
                 /\ (encode_count evs <= Z.to_nat max_iterations)%nat)
            _ _ _ fuel _ w r w' _ Hrun).
  - intros st w1 (evs & Hl & H0 & Hn & Hm) Hc. unfold image_cond in Hc.
    exists evs. split; [exact Hl | exact Hm].
  - intros st w1 (evs & Hl & H0 & Hn & Hm) Hc. unfold image_cond in Hc.
    apply andb_prop in Hc as [_ Hc].
    apply Z.ltb_lt in Hc. exists evs. split; [exact Hl | lia].
  - intros st w1 rb wb (evs & Hl & H0 & Hn & Hm) Hc Hb.
    unfold image_cond in Hc. apply andb_prop in Hc as [_ Hc].
    apply Z.ltb_lt in Hc.
    apply image_body_step in Hb.
    inversion Hb as
      [ temp fmt i' l w2 Hp Hs Hfs Hlog
      | temp fmt i' d w2 Hp Hs Hle Hfs Hlog
      | temp fmt i' d w2 Hp Hs Hle Hfs Hlog
      | e Hp Hd
      | nw nh w2 Hp Hd Hnone Hfs Hlog
      | nw nh d w2 Hp Hd Hsome Hle Hfs Hlog
      | nw nh d w2 Hp Hd Hsome Hle Hfs Hlog ]; subst;
      try (exists evs; split; [exact Hl | lia]);
      eexists; rewrite Hlog, Hl, <- app_assoc;
      (split; [reflexivity |]); simpl;
      try (split; [lia |]);
      rewrite encode_count_app;
      unfold encode_count at 2; try unfold encode_count at 3; simpl; lia.
  - exists []. rewrite app_nil_r. simpl. split; [reflexivity |].
    split; [lia |]. unfold encode_count. simpl. lia.
Qed.

End Cap.

Section CapCommands.

Variable pil_header : bytes -> option (Z * Z).
Variable pil_save : format -> image -> Z -> encoded.
Variable ffprobe : bytes -> option video_info.
Variable ffmpeg : bytes -> string -> option Z -> string -> encoded.

Lemma image_run_cap step floor file output target max_iterations original :
  calls_at_most (Z.to_nat max_iterations)
    (image_run pil_header pil_save step floor file output target
       max_iterations original).
Proof.
  unfold image_run. apply calls_bind_l; [apply emits_only_image_open |].
  intros i. apply calls_bind_r; [apply image_loop_cap |].
  intros st. apply emits_only_bind; [| intros _; apply emits_only_ret].
  unfold image_shortfall. prove_emits.
Qed.

(** X5: [--max-iterations] bounds the work of a video command: ffmpeg is
    called that many times at most, whatever the probe reports and however
    the encodes go. With a cap of 0 or less it is never called. *)
Theorem video_encodes_within_cap
    (f : gmap string bytes) (file : string) (amount : Z)
    (output : option string) (preset : string) (max_iterations : Z) :
  (encode_count
     (log (video_compress_by_percent ffprobe ffmpeg file amount output
             preset max_iterations (start f)).2)
   <= Z.to_nat max_iterations)%nat
  /\ (encode_count
        (log (video_compress_to_size ffprobe ffmpeg file amount output
                preset max_iterations (start f)).2)
      <= Z.to_nat max_iterations)%nat.
Proof.
  split.
  - assert (H : calls_at_most (Z.to_nat max_iterations)
                  (video_compress_by_percent ffprobe ffmpeg file amount
                     output preset max_iterations)).
    { unfold video_compress_by_percent.
      apply calls_try_except; [| intros e; now apply emits_only_echo_err].
      apply calls_bind_l; [apply emits_only_get_video_size | intros s].
      destruct (s =? 0); [apply calls_of_emits; prove_emits |].
      apply calls_bind_l; [apply emits_only_lift | intros t].
      apply calls_bind_l; [now apply emits_only_echo | intros _].
      apply calls_bind_l; [now apply emits_only_echo | intros _].
      apply calls_bind_r; [apply video_run_cap | intros go].
      destruct go; prove_emits. }
    destruct (H (start f)) as (evs & -> & Hn). exact Hn.
  - assert (H : calls_at_most (Z.to_nat max_iterations)
                  (video_compress_to_size ffprobe ffmpeg file amount
                     output preset max_iterations)).
    { unfold video_compress_to_size.
      apply calls_try_except; [| intros e; now apply emits_only_echo_err].
      apply calls_bind_l; [apply emits_only_get_video_size | intros s].
      destruct (s =? 0); [apply calls_of_emits; prove_emits |].
      cbv zeta.
      destruct (s <=? amount * 1024 * 1024);
        [apply calls_of_emits; prove_emits |].
      apply calls_bind_l; [now apply emits_only_echo | intros _].
      apply calls_bind_l; [now apply emits_only_echo | intros _].
      apply calls_bind_r; [apply video_run_cap | intros go].
      destruct go; prove_emits. }
    destruct (H (start f)) as (evs & -> & Hn). exact Hn.
Qed.

(** X6: [--max-iterations] bounds the work of an image command:
    [img.save] is called that many times at most, for every kind of file
    and however the passes go. With a cap of 0 or less it is never
    called. *)
Theorem image_encodes_within_cap
    (f : gmap string bytes) (file : string) (amount : Z)
    (output : option string) (max_iterations : Z) :
  (encode_count
     (log (image_compress_by_percent pil_header pil_save file amount output
             max_iterations (start f)).2)
   <= Z.to_nat max_iterations)%nat
  /\ (encode_count
        (log (image_compress_to_size pil_header pil_save file amount output
                max_iterations (start f)).2)
      <= Z.to_nat max_iterations)%nat.
Proof.
  split.
  - assert (H : calls_at_most (Z.to_nat max_iterations)
                  (image_compress_by_percent pil_header pil_save file amount
                     output max_iterations)).
    { unfold image_compress_by_percent.
      apply calls_try_except; [| intros e; now apply emits_only_echo_err].
      apply calls_bind_l; [apply emits_only_getsize | intros s].
      apply calls_bind_l; [apply emits_only_lift | intros t].
      apply calls_bind_l; [now apply emits_only_echo | intros _].
      apply calls_bind_l; [now apply emits_only_echo | intros _].
      apply calls_bind_r; [apply image_run_cap | intros st].
      prove_emits. }
    destruct (H (start f)) as (evs & -> & Hn). exact Hn.
  - assert (H : calls_at_most (Z.to_nat max_iterations)
                  (image_compress_to_size pil_header pil_save file amount
                     output max_iterations)).
    { unfold image_compress_to_size.
      apply calls_try_except; [| intros e; now apply emits_only_echo_err].
      apply calls_bind_l; [apply emits_only_getsize | intros s].
      cbv zeta.
      destruct (s <=? amount * 1024); [apply calls_of_emits; prove_emits |].
      apply calls_bind_l; [now apply emits_only_echo | intros _].
      apply calls_bind_l; [now apply emits_only_echo | intros _].
      apply calls_bind_r; [apply image_run_cap | intros st].
      prove_emits. }
    destruct (H (start f)) as (evs & -> & Hn). exact Hn.
Qed.

End CapCommands.

(** ** What is renamed meets the target *)

Section Within.

Variable pil_header : bytes -> option (Z * Z).
Variable pil_save : format -> image -> Z -> encoded.
Variable ffprobe : bytes -> option video_info.
Variable ffmpeg : bytes -> string -> option Z -> string -> encoded.





End Within.



(** ** Sources that cannot be read *)

Section Unreadable.

Variable pil_header : bytes -> option (Z * Z).
Variable pil_save : format -> image -> Z -> encoded.
Variable ffprobe : bytes -> option video_info.
Variable ffmpeg : bytes -> string -> option Z -> string -> encoded.

Lemma image_run_unidentified step floor file output target max_iterations
    original {B} (k : istate -> M B) w d :
  fs w !! file = Some d -> pil_header d = None ->
  bind (image_run pil_header pil_save step floor file output target
          max_iterations original) k w
  = (Raised UnidentifiedImageError, w).
Proof.
  intros Hfile Hh. unfold image_run, bind, image_open.
  now rewrite Hfile, Hh.
Qed.

(** X9: an image command whose source cannot be opened changes nothing and
    calls no encoder. A missing source is reported as a
    [FileNotFoundError], at once; a file that Pillow does not identify is
    reported after the two opening messages. Either way the command
    returns normally. *)
Theorem image_unreadable_source_is_reported
    (file : string) (amount : Z) (output : option string)
    (max_iterations : Z) (w : world) :
  (fs w !! file = None ->
   image_compress_by_percent pil_header pil_save file amount output
     max_iterations w
   = (Normal tt, emits [EchoErr (MsgError FileNotFoundError)] w)
   /\ image_compress_to_size pil_header pil_save file amount output
        max_iterations w
      = (Normal tt, emits [EchoErr (MsgError FileNotFoundError)] w))
  /\ (forall d t,
        fs w !! file = Some d -> pil_header d = None ->
        percent_target (size_of d) amount = Ok t ->
        image_compress_by_percent pil_header pil_save file amount output
          max_iterations w
        = (Normal tt,
           emits [Echo (MsgOriginalSize (size_of d));
                  Echo (MsgTargetSize (Py.Float t));
                  EchoErr (MsgError UnidentifiedImageError)] w))
  /\ (forall d,
        fs w !! file = Some d -> pil_header d = None ->
        amount * 1024 < size_of d ->
        image_compress_to_size pil_header pil_save file amount output
          max_iterations w
        = (Normal tt,
           emits [Echo (MsgOriginalSize (size_of d));
                  Echo (MsgTargetSize (Py.Int (amount * 1024)));
                  EchoErr (MsgError UnidentifiedImageError)] w)).
Proof.
  split; [| split].
  - intros Hfile. split.
    + unfold image_compress_by_percent, try_except.
      now rewrite bind_getsize_none.
    + unfold image_compress_to_size, try_except.
      now rewrite bind_getsize_none.
  - intros d t Hfile Hh Ht.
    unfold image_compress_by_percent, try_except.
    rewrite (bind_getsize_some _ d) by exact Hfile.
    rewrite (lift_ok _ _ t _ Ht), !bind_echo.
    now rewrite (image_run_unidentified _ _ _ _ _ _ _ _ _ d).
  - intros d Hfile Hh Hlt.
    unfold image_compress_to_size, try_except.
    rewrite (bind_getsize_some _ d) by exact Hfile. cbv zeta.
    apply Z.leb_gt in Hlt. rewrite Hlt, !bind_echo.
    now rewrite (image_run_unidentified _ _ _ _ _ _ _ _ _ d).
Qed.

(** X10: a video command on a source whose size it cannot read, or whose
    size is 0, prints "Could not read file size" and returns: it probes
    nothing, encodes nothing and changes nothing. An empty file is taken
    for an unreadable one. *)
Theorem video_unmeasured_source_is_reported
    (file : string) (amount : Z) (output : option string) (preset : string)
    (max_iterations : Z) (w : world) :
  (fs w !! file = None \/ exists d, fs w !! file = Some d /\ size_of d = 0) ->
  video_compress_by_percent ffprobe ffmpeg file amount output preset
    max_iterations w
  = (Normal tt, emits [EchoErr MsgErrFileSize] w)
  /\ video_compress_to_size ffprobe ffmpeg file amount output preset
       max_iterations w
     = (Normal tt, emits [EchoErr MsgErrFileSize] w).
Proof.
  intros [Hfile | (d & Hfile & Hz)].
  - unfold video_compress_by_percent, video_compress_to_size, try_except.
    now rewrite !bind_get_video_size_none by exact Hfile.
  - unfold video_compress_by_percent, video_compress_to_size, try_except.
    rewrite !(bind_get_video_size_some _ d) by exact Hfile.
    now rewrite Hz.
Qed.

Lemma video_run_stops decay file output preset target original
    max_iterations {B} (k : bool -> M B) w d :
  fs w !! file = Some d ->
  (info_missing (ffprobe d) = true
   \/ exists vi, ffprobe d = Some vi /\ find_video_stream vi = None) ->
  bind (video_run ffprobe ffmpeg decay file output preset target original
          max_iterations) k w
  = k false (emit (EchoErr (if info_missing (ffprobe d)
                            then MsgErrVideoInfo else MsgErrNoStream)) w).
Proof.
  intros Hfile Hprobe. unfold video_run. rewrite bind_bind.
  unfold get_video_info. rewrite bind_unfold, Hfile.
  destruct (info_missing (ffprobe d)) eqn:Hm.
  { now rewrite bind_bind, bind_echo_err, bind_ret. }
  destruct Hprobe as [H | (vi & Hvi & Hs)]; [discriminate |].
  rewrite Hvi, Hs. now rewrite bind_bind, bind_echo_err, bind_ret.
Qed.

(** X11: a video command whose probe yields no metadata, or metadata
    without a video stream, stops after the two opening messages and the
    error ("Could not read video information", or "No video stream
    found"): ffmpeg is not called and nothing changes. *)
Theorem video_without_stream_stops
    (file : string) (amount : Z) (output : option string) (preset : string)
    (max_iterations : Z) (w : world) (d : bytes) :
  fs w !! file = Some d ->
  size_of d <> 0 ->
  (info_missing (ffprobe d) = true
   \/ exists vi, ffprobe d = Some vi /\ find_video_stream vi = None) ->
  let msg := if info_missing (ffprobe d)
             then MsgErrVideoInfo else MsgErrNoStream in
  (forall t,
     percent_target (size_of d) amount = Ok t ->
     video_compress_by_percent ffprobe ffmpeg file amount output preset
       max_iterations w
     = (Normal tt,
        emits [Echo (MsgOriginalSize (size_of d));
               Echo (MsgTargetSize (Py.Float t)); EchoErr msg] w))
  /\ (amount * 1024 * 1024 < size_of d ->
      video_compress_to_size ffprobe ffmpeg file amount output preset
        max_iterations w
      = (Normal tt,
         emits [Echo (MsgOriginalSize (size_of d));
                Echo (MsgTargetSize (Py.Int (amount * 1024 * 1024)));
                EchoErr msg] w)).
Proof.
  intros Hfile Hnz Hprobe msg. apply Z.eqb_neq in Hnz. split.
  - intros t Ht. unfold video_compress_by_percent, try_except.
    rewrite (bind_get_video_size_some _ d) by exact Hfile.
    rewrite Hnz, (lift_ok _ _ t _ Ht), !bind_echo.
    now rewrite (video_run_stops _ _ _ _ _ _ _ _ _ d).
  - intros Hlt. unfold video_compress_to_size, try_except.
    rewrite (bind_get_video_size_some _ d) by exact Hfile.
    rewrite Hnz. cbv zeta. apply Z.leb_gt in Hlt. rewrite Hlt, !bind_echo.
    now rewrite (video_run_stops _ _ _ _ _ _ _ _ _ d).
Qed.

End Unreadable.

(** A missing photo, and a text file offered as a photo. *)
Lemma image_unreadable_source_is_reported_witness :
  let no_header := fun _ : bytes => @None (Z * Z) in
  let w0 := start (Fixtures.disk "notes.txt" 1000) in
  image_compress_by_percent no_header Fixtures.linear_save "photo.jpg" 50
    None 10 w0
  = (Normal tt, emits [EchoErr (MsgError FileNotFoundError)] w0)
  /\ image_compress_by_percent no_header Fixtures.linear_save "notes.txt" 50
       None 10 w0
     = (Normal tt,
        emits [Echo (MsgOriginalSize (size_of (Fixtures.blob 1000)));
               Echo (MsgTargetSize (Py.Float 500));
               EchoErr (MsgError UnidentifiedImageError)] w0).
Proof.
  intros no_header w0. split.
  - apply (proj1 (image_unreadable_source_is_reported no_header
                    Fixtures.linear_save "photo.jpg" 50 None 10 w0)).
    reflexivity.
  - apply (proj1 (proj2 (image_unreadable_source_is_reported no_header
                           Fixtures.linear_save "notes.txt" 50 None 10 w0))
             (Fixtures.blob 1000) 500%float);
      [reflexivity | reflexivity | vm_compute; reflexivity].
Defined.

(** An empty video file. *)
Lemma video_unmeasured_source_is_reported_witness :
  let w0 := start (Fixtures.disk "clip.mp4" 0) in
  video_compress_by_percent (Fixtures.probe (Present 8000) Absent)
    Fixtures.fifth_ffmpeg "clip.mp4" 50 None "medium" 8 w0
  = (Normal tt, emits [EchoErr MsgErrFileSize] w0)
  /\ video_compress_to_size (Fixtures.probe (Present 8000) Absent)
       Fixtures.fifth_ffmpeg "clip.mp4" 50 None "medium" 8 w0
     = (Normal tt, emits [EchoErr MsgErrFileSize] w0).
Proof.
  intros w0.
  apply (video_unmeasured_source_is_reported
           (Fixtures.probe (Present 8000) Absent) Fixtures.fifth_ffmpeg
           "clip.mp4" 50 None "medium" 8 w0).
  right. exists (Fixtures.blob 0). split; reflexivity.
Defined.

(** A file in which ffprobe finds an audio stream only. *)
Lemma video_without_stream_stops_witness :
  let audio_only := fun _ : bytes =>
    Some {| streams := Some [ {| codec_type := Some "audio"%string |} ];
            format_section := None |} in
  let w0 := start (Fixtures.disk "song.mp4" 1000) in
  video_compress_by_percent audio_only Fixtures.fifth_ffmpeg "song.mp4" 50
    None "medium" 8 w0
  = (Normal tt,
     emits [Echo (MsgOriginalSize (size_of (Fixtures.blob 1000)));
            Echo (MsgTargetSize (Py.Float 500));
            EchoErr MsgErrNoStream] w0).
Proof.
  intros audio_only w0.
  apply (proj1 (video_without_stream_stops audio_only Fixtures.fifth_ffmpeg
                  "song.mp4" 50 None "medium" 8 w0 (Fixtures.blob 1000)
                  eq_refl ltac:(vm_compute; discriminate)
                  (or_intror (ex_intro _ _ (conj eq_refl eq_refl))))
           500%float).
  vm_compute. reflexivity.
Defined.

(** ** A cap of zero, and metadata that cannot be used *)

Section Edges.

Variable pil_header : bytes -> option (Z * Z).
Variable pil_save : format -> image -> Z -> encoded.
Variable ffprobe : bytes -> option video_info.
Variable ffmpeg : bytes -> string -> option Z -> string -> encoded.

Lemma video_run_probed decay file output preset target original
    max_iterations w d vi s :
  fs w !! file = Some d -> ffprobe d = Some vi ->
  info_missing (Some vi) = false -> find_video_stream vi = Some s ->
  video_run ffprobe ffmpeg decay file output preset target original
    max_iterations w
  = bind (lift (original_bitrate vi original))
      (fun b =>
         bind (video_loop ffmpeg decay file output preset target original
                 max_iterations (Z.to_nat max_iterations)
                 {| current_bitrate := b; v_iterations := 0;
                    temp_output := None |})
           (fun st =>
              bind (video_shortfall file output max_iterations st)
                (fun _ => ret true))) w.
Proof.
  intros Hfile Hvi Hm Hs. unfold video_run. rewrite bind_unfold.
  unfold get_video_info. now rewrite Hfile, Hvi, Hm, Hs.
Qed.

Lemma video_run_no_pass decay file output preset target original
    max_iterations {B} (k : bool -> M B) w d vi s b :
  max_iterations <= 0 ->
  fs w !! file = Some d -> ffprobe d = Some vi ->
  info_missing (Some vi) = false -> find_video_stream vi = Some s ->
  original_bitrate vi original = Ok b ->
  bind (video_run ffprobe ffmpeg decay file output preset target original
          max_iterations) k w
  = (Raised UnboundLocalError, emit (Echo MsgWarningLimit) w).
Proof.
  intros Hmax Hfile Hvi Hm Hs Hb. rewrite bind_unfold.
  rewrite (video_run_probed _ _ _ _ _ _ _ _ _ _ _ Hfile Hvi Hm Hs).
  rewrite (lift_ok _ _ b _ Hb).
  replace (Z.to_nat max_iterations) with 0%nat by lia.
  unfold video_loop, while, video_cond, bind. cbn [v_iterations].
  assert (H0 : (0 <? max_iterations) = false) by now apply Z.ltb_ge.
  rewrite H0. unfold video_shortfall. cbn [v_iterations temp_output].
  assert (H1 : (max_iterations <=? 0) = true) by now apply Z.leb_le.
  now rewrite H1.
Qed.

(** X12: with [--max-iterations] at 0 or less, a video command that got as
    far as the loop makes no pass: it prints the warning of the iteration
    limit and then fails on [temp_output], which no pass has bound. The
    [UnboundLocalError] is reported as the error of the command; ffmpeg is
    not called and nothing changes. *)
Theorem video_zero_cap_is_an_error
    (file : string) (amount : Z) (output : option string) (preset : string)
    (max_iterations : Z) (w : world) (d : bytes) (vi : video_info)
    (s : stream) (b : Z) :
  max_iterations <= 0 ->
  fs w !! file = Some d ->
  size_of d <> 0 ->
  ffprobe d = Some vi ->
  info_missing (Some vi) = false ->
  find_video_stream vi = Some s ->
  original_bitrate vi (size_of d) = Ok b ->
  (forall t,
     percent_target (size_of d) amount = Ok t ->
     video_compress_by_percent ffprobe ffmpeg file amount output preset
       max_iterations w
     = (Normal tt,
        emits [Echo (MsgOriginalSize (size_of d));
               Echo (MsgTargetSize (Py.Float t));
               Echo MsgWarningLimit;
               EchoErr (MsgError UnboundLocalError)] w))
  /\ (amount * 1024 * 1024 < size_of d ->
      video_compress_to_size ffprobe ffmpeg file amount output preset
        max_iterations w
      = (Normal tt,
         emits [Echo (MsgOriginalSize (size_of d));
                Echo (MsgTargetSize (Py.Int (amount * 1024 * 1024)));
                Echo MsgWarningLimit;
                EchoErr (MsgError UnboundLocalError)] w)).
Proof.
  intros Hmax Hfile Hnz Hvi Hm Hs Hb. apply Z.eqb_neq in Hnz. split.
  - intros t Ht. unfold video_compress_by_percent, try_except.
    rewrite (bind_get_video_size_some _ d) by exact Hfile.
    rewrite Hnz, (lift_ok _ _ t _ Ht), !bind_echo.
    now rewrite (video_run_no_pass _ _ _ _ _ _ _ _ _ d vi s b).
  - intros Hlt. unfold video_compress_to_size, try_except.
    rewrite (bind_get_video_size_some _ d) by exact Hfile.
    rewrite Hnz. cbv zeta. apply Z.leb_gt in Hlt. rewrite Hlt, !bind_echo.
    now rewrite (video_run_no_pass _ _ _ _ _ _ _ _ _ d vi s b).
Qed.

Lemma image_run_no_pass step floor file output target max_iterations
    original {B} (k : istate -> M B) w d dims :
  max_iterations <= 0 ->
  fs w !! file = Some d -> pil_header d = Some dims ->
  Py.gt (Py.Int original) target = true ->
  bind (image_run pil_header pil_save step floor file output target
          max_iterations original) k w
  = (Raised UnboundLocalError, emit (Echo (MsgWarning original)) w).
Proof.
  intros Hmax Hfile Hh Hgt. rewrite bind_unfold.
  unfold image_run. rewrite bind_unfold. unfold image_open.
  rewrite Hfile, Hh. destruct dims as [w0 h0].
  replace (Z.to_nat max_iterations) with 0%nat by lia.
  unfold image_loop, while, image_cond, bind.
  cbn [current_size iterations].
  assert (H0 : (0 <? max_iterations) = false) by now apply Z.ltb_ge.
  rewrite H0, andb_false_r. unfold image_shortfall.
  cbn [current_size temp_path]. now rewrite Hgt.
Qed.

(** X13: with [--max-iterations] at 0 or less, an image command whose
    source is larger than the target makes no pass: it prints the warning
    with the size of the source and then fails on [temp_path], which no
    pass has bound. The [UnboundLocalError] is reported as the error of
    the command; nothing is encoded and nothing changes. *)
Theorem image_zero_cap_is_an_error
    (file : string) (amount : Z) (output : option string)
    (max_iterations : Z) (w : world) (d : bytes) (dims : Z * Z) :
  max_iterations <= 0 ->
  fs w !! file = Some d ->
  pil_header d = Some dims ->
  (forall t,
     percent_target (size_of d) amount = Ok t ->
     Py.gt (Py.Int (size_of d)) (Py.Float t) = true ->
     image_compress_by_percent pil_header pil_save file amount output
       max_iterations w
     = (Normal tt,
        emits [Echo (MsgOriginalSize (size_of d));
               Echo (MsgTargetSize (Py.Float t));
               Echo (MsgWarning (size_of d));
               EchoErr (MsgError UnboundLocalError)] w))
  /\ (amount * 1024 < size_of d ->
      image_compress_to_size pil_header pil_save file amount output
        max_iterations w
      = (Normal tt,
         emits [Echo (MsgOriginalSize (size_of d));
                Echo (MsgTargetSize (Py.Int (amount * 1024)));
                Echo (MsgWarning (size_of d));
                EchoErr (MsgError UnboundLocalError)] w)).
Proof.
  intros Hmax Hfile Hh. split.
  - intros t Ht Hgt. unfold image_compress_by_percent, try_except.
    rewrite (bind_getsize_some _ d) by exact Hfile.
    rewrite (lift_ok _ _ t _ Ht), !bind_echo.
    now rewrite (image_run_no_pass _ _ _ _ _ _ _ _ _ d dims).
  - intros Hlt. unfold image_compress_to_size, try_except.
    rewrite (bind_getsize_some _ d) by exact Hfile. cbv zeta.
    pose proof Hlt as Hgt. apply Z.leb_gt in Hlt. rewrite Hlt, !bind_echo.
    rewrite (image_run_no_pass _ _ _ _ _ _ _ _ _ d dims);
      [reflexivity | exact Hmax | exact Hfile | exact Hh |].
    simpl. now apply Z.ltb_lt.
Qed.

Lemma video_run_bitrate_error decay file output preset target original
    max_iterations {B} (k : bool -> M B) w d vi s e :
  fs w !! file = Some d -> ffprobe d = Some vi ->
  info_missing (Some vi) = false -> find_video_stream vi = Some s ->
  original_bitrate vi original = Error e ->
  bind (video_run ffprobe ffmpeg decay file output preset target original
          max_iterations) k w
  = (Raised e, w).
Proof.
  intros Hfile Hvi Hm Hs Hb. rewrite bind_unfold.
  rewrite (video_run_probed _ _ _ _ _ _ _ _ _ _ _ Hfile Hvi Hm Hs).
  now rewrite (lift_error _ _ e _ Hb).
Qed.

(** The estimate of the bitrate divides by the duration: a duration of
    zero is a [ZeroDivisionError]. *)
Lemma zero_duration_error vi original dur g :
  read_bit_rate vi = Ok 0 ->
  read_duration vi = Ok dur ->
  is_zero dur = true ->
  Py.float_of_int (original * 8) = Ok g ->
  original_bitrate vi original = Error ZeroDivisionError.
Proof.
  intros Hb Hd Hz Hg. unfold original_bitrate. rewrite Hb. simpl.
  rewrite Hd. simpl. unfold estimate_bitrate, Py.truediv.
  now rewrite Hg, Hz.
Qed.

(** X14: metadata from which no original bitrate can be had ends a video
    command before the loop: the exception is reported after the two
    opening messages, ffmpeg is not called and nothing changes. That is
    the case of a [bit_rate] or [duration] that is not a number
    ([ValueError]) and of a file without [bit_rate] whose [duration] is
    zero: the estimate [(original_size * 8) / duration] is then a
    [ZeroDivisionError]. *)
Theorem video_unusable_metadata_is_reported
    (file : string) (amount : Z) (output : option string) (preset : string)
    (max_iterations : Z) (w : world) (d : bytes) (vi : video_info)
    (s : stream) :
  fs w !! file = Some d ->
  size_of d <> 0 ->
  ffprobe d = Some vi ->
  info_missing (Some vi) = false ->
  find_video_stream vi = Some s ->
  (forall e t,
     original_bitrate vi (size_of d) = Error e ->
     percent_target (size_of d) amount = Ok t ->
     video_compress_by_percent ffprobe ffmpeg file amount output preset
       max_iterations w
     = (Normal tt,
        emits [Echo (MsgOriginalSize (size_of d));
               Echo (MsgTargetSize (Py.Float t));
               EchoErr (MsgError e)] w))
  /\ (forall e,
        original_bitrate vi (size_of d) = Error e ->
        amount * 1024 * 1024 < size_of d ->
        video_compress_to_size ffprobe ffmpeg file amount output preset
          max_iterations w
        = (Normal tt,
           emits [Echo (MsgOriginalSize (size_of d));
                  Echo (MsgTargetSize (Py.Int (amount * 1024 * 1024)));
                  EchoErr (MsgError e)] w))
  /\ (forall dur g,
        read_bit_rate vi = Ok 0 ->
        read_duration vi = Ok dur ->
        is_zero dur = true ->
        Py.float_of_int (size_of d * 8) = Ok g ->
        original_bitrate vi (size_of d) = Error ZeroDivisionError)
  /\ (bit_rate <$> format_section vi = Some Malformed ->
      original_bitrate vi (size_of d) = Error ValueError).
Proof.
  intros Hfile Hnz Hvi Hm Hs. apply Z.eqb_neq in Hnz.
  split; [| split; [| split]].
  - intros e t He Ht. unfold video_compress_by_percent, try_except.
    rewrite (bind_get_video_size_some _ d) by exact Hfile.
    rewrite Hnz, (lift_ok _ _ t _ Ht), !bind_echo.
    now rewrite (video_run_bitrate_error _ _ _ _ _ _ _ _ _ d vi s e).
  - intros e He Hlt. unfold video_compress_to_size, try_except.
    rewrite (bind_get_video_size_some _ d) by exact Hfile.
    rewrite Hnz. cbv zeta. apply Z.leb_gt in Hlt. rewrite Hlt, !bind_echo.
    now rewrite (video_run_bitrate_error _ _ _ _ _ _ _ _ _ d vi s e).
  - intros dur g. apply zero_duration_error.
  - intros Hbad. unfold original_bitrate, read_bit_rate.
    destruct (format_section vi) as [fi |]; [| discriminate].
    simpl in Hbad. injection Hbad as ->. reflexivity.
Qed.

End Edges.

(** A cap of 0 on a video of 1000 bytes. *)
Lemma video_zero_cap_is_an_error_witness :
  let w0 := start (Fixtures.disk "a.mp4" 1000) in
  video_compress_by_percent (Fixtures.probe (Present 8000) Absent)
    Fixtures.fifth_ffmpeg "a.mp4" 50 None "medium" 0 w0
  = (Normal tt,
     emits [Echo (MsgOriginalSize (size_of (Fixtures.blob 1000)));
            Echo (MsgTargetSize (Py.Float 500));
            Echo MsgWarningLimit;
            EchoErr (MsgError UnboundLocalError)] w0).
Proof.
  intros w0.
  apply (proj1 (video_zero_cap_is_an_error
                  (Fixtures.probe (Present 8000) Absent)
                  Fixtures.fifth_ffmpeg "a.mp4" 50 None "medium" 0 w0
                  (Fixtures.blob 1000) _ {| codec_type := Some "video"%string |}
                  8000 ltac:(lia) eq_refl ltac:(vm_compute; discriminate)
                  eq_refl eq_refl eq_refl eq_refl) 500%float).
  vm_compute. reflexivity.
Defined.

(** A cap of 0 on a photo of 1000 bytes. *)
Lemma image_zero_cap_is_an_error_witness :
  let w0 := start (Fixtures.disk "photo.jpg" 1000) in
  image_compress_by_percent Fixtures.header Fixtures.linear_save "photo.jpg"
    50 None 0 w0
  = (Normal tt,
     emits [Echo (MsgOriginalSize (size_of (Fixtures.blob 1000)));
            Echo (MsgTargetSize (Py.Float 500));
            Echo (MsgWarning (size_of (Fixtures.blob 1000)));
            EchoErr (MsgError UnboundLocalError)] w0).
Proof.
  intros w0.
  apply (proj1 (image_zero_cap_is_an_error Fixtures.header
                  Fixtures.linear_save "photo.jpg" 50 None 0 w0
                  (Fixtures.blob 1000) (640, 480) ltac:(lia) eq_refl eq_refl)
           500%float); vm_compute; reflexivity.
Defined.

(** A video without [bit_rate] whose [duration] is 0. *)
Lemma video_unusable_metadata_is_reported_witness :
  let w0 := start (Fixtures.disk "a.mp4" 1000) in
  video_compress_by_percent (Fixtures.probe Absent (Present 0%float))
    Fixtures.fifth_ffmpeg "a.mp4" 50 None "medium" 8 w0
  = (Normal tt,
     emits [Echo (MsgOriginalSize (size_of (Fixtures.blob 1000)));
            Echo (MsgTargetSize (Py.Float 500));
            EchoErr (MsgError ZeroDivisionError)] w0).
Proof.
  intros w0.
  apply (proj1 (video_unusable_metadata_is_reported
                  (Fixtures.probe Absent (Present 0%float))
                  Fixtures.fifth_ffmpeg "a.mp4" 50 None "medium" 8 w0
                  (Fixtures.blob 1000) _ {| codec_type := Some "video"%string |}
                  eq_refl ltac:(vm_compute; discriminate)
                  eq_refl eq_refl eq_refl) ZeroDivisionError 500%float);
    vm_compute; reflexivity.
Defined.

(** ** How a run ends: the rename, or the failure of a save, is final *)

Lemma echo_uneventful evs :
  forallb is_echo evs = true ->
  existsb is_rename evs = false /\ existsb is_failed_save evs = false.
Proof.
  induction evs as [| e evs IH]; [now split |]. simpl.
  intros H. apply andb_prop in H as [He H]. destruct (IH H) as [H1 H2].
  rewrite H1, H2. destruct e; try discriminate; now split.
Qed.

Lemma uneventful_app l evs :
  uneventful l -> forallb is_echo evs = true -> uneventful (l ++ evs).
Proof.
  intros [H1 H2] He. destruct (echo_uneventful _ He) as [H3 H4].
  split; rewrite existsb_app; [now rewrite H1, H3 | now rewrite H2, H4].
Qed.

Lemma renamed_last_app l evs :
  renamed_last l -> forallb is_echo evs = true -> renamed_last (l ++ evs).
Proof.
  intros [(pre & e & post & -> & He & Hpre & Hpost) Hf] Hev. split.
  - exists pre, e, (post ++ evs). rewrite <- app_assoc. simpl.
    repeat split; auto. now rewrite forallb_app, Hpost, Hev.
  - rewrite existsb_app, Hf. now destruct (echo_uneventful _ Hev) as [_ ->].
Qed.

Lemma renamed_last_snoc pre e :
  uneventful pre -> is_rename e = true -> renamed_last (pre ++ [e]).
Proof.
  intros [H1 H2] He. split.
  - exists pre, e, []. now repeat split.
  - rewrite existsb_app, H2. simpl. destruct e; try discriminate; reflexivity.
Qed.

Lemma run_inv_emits {A} (m : M A) : emits_only is_echo m -> run_inv m.
Proof.
  intros H w Hw. destruct (H w) as (evs & Hl & Hev). left.
  rewrite Hl. now apply uneventful_app.
Qed.

Lemma run_inv_bind_l {A B} (m : M A) (k : A -> M B) :
  emits_only is_echo m -> (forall a, run_inv (k a)) -> run_inv (bind m k).
Proof.
  intros Hm Hk w Hw. unfold bind. destruct (Hm w) as (evs & Hl & Hev).
  assert (Hw1 : uneventful (log (m w).2))
    by (rewrite Hl; now apply uneventful_app).
  destruct (m w) as [[a | e |] w1]; simpl in *; try (now left).
  now apply Hk.
Qed.

Lemma run_inv_bind_r {A B} (m : M A) (k : A -> M B) :
  run_inv m -> (forall a, emits_only is_echo (k a)) -> run_inv (bind m k).
Proof.
  intros Hm Hk w Hw. unfold bind. specialize (Hm w Hw).
  destruct (m w) as [[a | e |] w1]; simpl in *.
  - destruct (Hk a w1) as (evs & Hl & Hev).
    destruct Hm as [Hu | [[Hr _] | Hr]]; [| discriminate |].
    + left. rewrite Hl. now apply uneventful_app.
    + right. right. rewrite Hl. now apply renamed_last_app.
  - destruct Hm as [Hu | [[Hr H] | Hr]]; [now left | | now (right; right)].
    right. left. injection Hr as ->. now split.
  - destruct Hm as [Hu | [[Hr _] | Hr]];
      [now left | discriminate | now (right; right)].
Qed.

(** The handler of a command reports what was raised, and nothing else
    follows. *)
Lemma run_inv_reported (body : M unit) w :
  run_inv body -> uneventful (log w) ->
  command_post
    (log (try_except body (fun e => echo_err (MsgError e)) w).2).
Proof.
  intros Hb Hw. unfold try_except. specialize (Hb w Hw).
  destruct (body w) as [[a | e |] w1]; simpl in *.
  - destruct Hb as [Hu | [[Hr _] | Hr]];
      [now left | discriminate | now (right; right)].
  - destruct Hb as [Hu | [[Hr (pre & ev & Hl & He & Hpre)] | Hr]].
    + left. now apply uneventful_app.
    + right. left. injection Hr as ->. exists pre, ev.
      rewrite Hl, <- app_assoc.
      split; [reflexivity | split; [exact He | exact Hpre]].
    + right. right. now apply renamed_last_app.
  - destruct Hb as [Hu | [[Hr _] | Hr]];
      [now left | discriminate | now (right; right)].
Qed.

Section ImageEnd.

Variable pil_header : bytes -> option (Z * Z).
Variable pil_save : format -> image -> Z -> encoded.

Lemma image_loop_end step floor file output target max_iterations fuel st w
    r w' :
  uneventful (log w) ->
  image_loop pil_save step floor file output target max_iterations fuel st w
  = (r, w') ->
  uneventful (log w')
  \/ save_raised r (log w')
  \/ exists st' pre e,
       r = Normal st'
       /\ Py.le (Py.Int (current_size st')) target = true
       /\ log w' = pre ++ [e] /\ is_rename e = true /\ uneventful pre.
Proof.
  unfold image_loop. intros HI Hrun.
  apply (while_rule _ _ (fun _ w1 => uneventful (log w1))
           (fun r w' =>
              uneventful (log w')
              \/ save_raised r (log w')
              \/ exists st' pre e,
                   r = Normal st'
                   /\ Py.le (Py.Int (current_size st')) target = true
                   /\ log w' = pre ++ [e] /\ is_rename e = true
                   /\ uneventful pre))
    with (4 := HI) (5 := Hrun).
  - intros s w0 H _. now left.
  - intros s w0 H _. now left.
  - clear. intros s w r w' Hu _ Hb.
    apply image_body_step in Hb.
    inversion Hb as
      [ temp fmt i l w1 Hp Hs Hfs Hlog
      | temp fmt i d w1 Hp Hs Hle Hfs Hlog
      | temp fmt i d w1 Hp Hs Hle Hfs Hlog
      | e Hp Hd
      | nw nh w1 Hp Hd Hnone Hfs Hlog
      | nw nh d w1 Hp Hd Hsome Hle Hfs Hlog
      | nw nh d w1 Hp Hd Hsome Hle Hfs Hlog ]; subst.
    + right. left. split; [reflexivity |].
      exists (log w), (PilSave temp fmt i (quality s) (EncodeFailed l)).
      split; [exact Hlog | split; [reflexivity | exact Hu]].
    + right. right. eexists _, (log w ++ [_; _]), _.
      split; [reflexivity |]. split; [exact Hle |].
      split; [rewrite Hlog, <- app_assoc; reflexivity |].
      split; [reflexivity |].
      destruct Hu as [H1 H2]. split; rewrite existsb_app;
        [now rewrite H1 | now rewrite H2].
    + destruct Hu as [H1 H2]. rewrite Hlog.
      split; rewrite existsb_app; [now rewrite H1 | now rewrite H2].
    + now left.
    + left. destruct Hu as [H1 H2]. rewrite Hlog.
      split; rewrite existsb_app; [now rewrite H1 | now rewrite H2].
    + right. right. eexists _, (log w ++ [_; _]), _.
      split; [reflexivity |]. split; [exact Hle |].
      split; [rewrite Hlog, <- app_assoc; reflexivity |].
      split; [reflexivity |].
      destruct Hu as [H1 H2]. split; rewrite existsb_app;
        [now rewrite H1 | now rewrite H2].
    + destruct Hu as [H1 H2]. rewrite Hlog.
      split; rewrite existsb_app; [now rewrite H1 | now rewrite H2].
Qed.

Lemma image_run_end step floor file output target max_iterations original :
  run_inv (image_run pil_header pil_save step floor file output target
             max_iterations original).
Proof.
  intros w Hw. unfold image_run. rewrite bind_unfold. unfold image_open.
  destruct (fs w !! file) as [d |]; [| now left].
  destruct (pil_header d) as [[w0 h0] |]; [| now left].
  rewrite bind_unfold.
  destruct (image_loop _ _ _ _ _ _ _ _ _ w) as [rl w2] eqn:Hloop.
  apply image_loop_end in Hloop; [| exact Hw].
  destruct rl as [st | e |]; cbn [fst snd].
  - destruct Hloop
      as [Hu | [[Hr _] | (st' & pre & e & Hr & Hle & Hl & He & Hp)]];
      [| discriminate |].
    + unfold image_shortfall.
      destruct (Py.gt (Py.Int (current_size st)) target); [| now left].
      rewrite bind_bind, bind_echo.
      destruct (temp_path st) as [t |].
      2:{ left. simpl. apply uneventful_app; [exact Hu | reflexivity]. }
      rewrite bind_bind, bind_path_exists.
      destruct (bool_decide _) eqn:Hex.
      * right. right.
        apply bool_decide_eq_true in Hex. destruct Hex as [x Hx].
        cbn [fs emit] in Hx.
        unfold bind, os_rename. cbn [fs emit]. rewrite Hx.
        cbn [fst snd log emit with_fs].
        apply renamed_last_snoc; [| reflexivity].
        apply uneventful_app; [exact Hu | reflexivity].
      * left. simpl. apply uneventful_app; [exact Hu | reflexivity].
    + injection Hr as <-. unfold image_shortfall.
      rewrite (le_not_gt _ _ Hle). simpl. right. right.
      rewrite Hl. now apply renamed_last_snoc.
  - destruct Hloop as [Hu | [Hr | (st' & pre & ev & Hr & _)]];
      [now left | now (right; left) | discriminate].
  - destruct Hloop as [Hu | [[Hr _] | (st' & pre & ev & Hr & _)]];
      [now left | discriminate | discriminate].
Qed.

Lemma image_by_percent_end f file amount output max_iterations :
  command_post
    (log (image_compress_by_percent pil_header pil_save file amount output
            max_iterations (start f)).2).
Proof.
  unfold image_compress_by_percent.
  apply run_inv_reported; [| now split].
  apply run_inv_bind_l; [apply emits_only_getsize | intros s].
  apply run_inv_bind_l; [apply emits_only_lift | intros t].
  apply run_inv_bind_l; [now apply emits_only_echo | intros _].
  apply run_inv_bind_l; [now apply emits_only_echo | intros _].
  apply run_inv_bind_r; [apply image_run_end | intros st].
  prove_emits.
Qed.

Lemma image_to_size_end f file amount output max_iterations :
  command_post
    (log (image_compress_to_size pil_header pil_save file amount output
            max_iterations (start f)).2).
Proof.
  unfold image_compress_to_size.
  apply run_inv_reported; [| now split].
  apply run_inv_bind_l; [apply emits_only_getsize | intros s].
  cbv zeta. destruct (s <=? amount * 1024).
  { apply run_inv_emits. prove_emits. }
  apply run_inv_bind_l; [now apply emits_only_echo | intros _].
  apply run_inv_bind_l; [now apply emits_only_echo | intros _].
  apply run_inv_bind_r; [apply image_run_end | intros st].
  prove_emits.
Qed.

End ImageEnd.

Section VideoEnd.

Variable ffprobe : bytes -> option video_info.
Variable ffmpeg : bytes -> string -> option Z -> string -> encoded.

Lemma video_loop_end decay file output preset target original max_iterations
    fuel st w r w' :
  uneventful (log w) ->
  video_loop ffmpeg decay file output preset target original max_iterations
    fuel st w = (r, w') ->
  uneventful (log w')
  \/ exists st' pre e,
       r = Normal st'
       /\ v_iterations st' < max_iterations
       /\ log w' = pre ++ [e] /\ is_rename e = true /\ uneventful pre.
Proof.
  unfold video_loop. intros HI Hrun.
  apply (while_rule _ _ (fun _ w1 => uneventful (log w1))
           (fun r w' =>
              uneventful (log w')
              \/ exists st' pre e,
                   r = Normal st'
                   /\ v_iterations st' < max_iterations
                   /\ log w' = pre ++ [e] /\ is_rename e = true
                   /\ uneventful pre))
    with (4 := HI) (5 := Hrun).
  - intros s w0 H _. now left.
  - intros s w0 H _. now left.
  - clear. intros s w r w' Hu Hc Hb.
    unfold video_cond in Hc. apply Z.ltb_lt in Hc.
    apply video_body_step in Hb.
    inversion Hb as
        [ e Ht
        | tb l w2 Ht He Hfs Hlog
        | tb d w2 Ht He Hle Hfs Hlog
        | tb d e w2 Ht He Hle Hd Hfs Hlog
        | tb d b' w2 Ht He Hle Hd Hfs Hlog ]; subst.
    + now left.
    + left. destruct Hu as [H1 H2]. rewrite Hlog.
      split; rewrite existsb_app; [now rewrite H1 | now rewrite H2].
    + right. eexists _, (log w ++ [_; _; _]), _.
      split; [reflexivity |]. split; [exact Hc |].
      split; [rewrite Hlog, <- app_assoc; reflexivity |].
      split; [reflexivity |].
      destruct Hu as [H1 H2]. split; rewrite existsb_app;
        [now rewrite H1 | now rewrite H2].
    + left. destruct Hu as [H1 H2]. rewrite Hlog.
      split; rewrite existsb_app; [now rewrite H1 | now rewrite H2].
    + destruct Hu as [H1 H2]. rewrite Hlog.
      split; rewrite existsb_app; [now rewrite H1 | now rewrite H2].
Qed.

Lemma video_run_end decay file output preset target original max_iterations :
  run_inv (video_run ffprobe ffmpeg decay file output preset target original
             max_iterations).
Proof.
  intros w Hw. unfold video_run. rewrite bind_unfold. unfold get_video_info.
  assert (Hmsg : forall m, uneventful (log (emit (EchoErr m) w))).
  { intros m. simpl. apply uneventful_app; [exact Hw | reflexivity]. }
  assert (Hstop : forall m,
             run_post (bind (echo_err m) (fun _ => ret false) w).1
               (bind (echo_err m) (fun _ => ret false) w).2).
  { intros m. left. apply Hmsg. }
  destruct (fs w !! file) as [d |]; [| apply Hstop].
  destruct (info_missing (ffprobe d)); [apply Hstop |].
  destruct (ffprobe d) as [vi |]; [| apply Hstop].
  cbv beta iota.
  destruct (find_video_stream vi); [| apply Hstop].
  destruct (original_bitrate vi original) as [b0 | e] eqn:Hb0.
  2:{ rewrite (lift_error _ _ e _ eq_refl). now left. }
  rewrite (lift_ok _ _ b0 _ eq_refl). rewrite bind_unfold.
  destruct (video_loop _ _ _ _ _ _ _ _ _ _ w) as [rl w2] eqn:Hloop.
  apply video_loop_end in Hloop; [| exact Hw].
  destruct rl as [st | e |]; cbn [fst snd].
  - destruct Hloop as [Hu | (st' & pre & e & Hr & Hlt & Hl & He & Hp)].
    + unfold video_shortfall.
      destruct (max_iterations <=? v_iterations st); [| now left].
      rewrite bind_bind, bind_echo.
      destruct (temp_output st) as [t |].
      2:{ left. simpl. apply uneventful_app; [exact Hu | reflexivity]. }
      rewrite bind_bind, bind_path_exists.
      destruct (bool_decide _) eqn:Hex.
      * right. right.
        apply bool_decide_eq_true in Hex. destruct Hex as [x Hx].
        cbn [fs emit] in Hx.
        unfold bind, os_rename. cbn [fs emit]. rewrite Hx.
        cbn [fst snd log emit with_fs].
        apply renamed_last_snoc; [| reflexivity].
        apply uneventful_app; [exact Hu | reflexivity].
      * left. simpl. apply uneventful_app; [exact Hu | reflexivity].
    + injection Hr as <-. unfold video_shortfall.
      apply Z.leb_gt in Hlt. rewrite Hlt. simpl. right. right.
      rewrite Hl. now apply renamed_last_snoc.
  - destruct Hloop as [Hu | (st' & pre & ev & Hr & _)];
      [now left | discriminate].
  - destruct Hloop as [Hu | (st' & pre & ev & Hr & _)];
      [now left | discriminate].
Qed.

Lemma video_by_percent_end f file amount output preset max_iterations :
  command_post
    (log (video_compress_by_percent ffprobe ffmpeg file amount output preset
            max_iterations (start f)).2).
Proof.
  unfold video_compress_by_percent.
  apply run_inv_reported; [| now split].
  apply run_inv_bind_l; [apply emits_only_get_video_size | intros s].
  destruct (s =? 0); [apply run_inv_emits; prove_emits |].
  apply run_inv_bind_l; [apply emits_only_lift | intros t].
  apply run_inv_bind_l; [now apply emits_only_echo | intros _].
  apply run_inv_bind_l; [now apply emits_only_echo | intros _].
  apply run_inv_bind_r; [apply video_run_end | intros go].
  destruct go; prove_emits.
Qed.

Lemma video_to_size_end f file amount output preset max_iterations :
  command_post
    (log (video_compress_to_size ffprobe ffmpeg file amount output preset
            max_iterations (start f)).2).
Proof.
  unfold video_compress_to_size.
  apply run_inv_reported; [| now split].
  apply run_inv_bind_l; [apply emits_only_get_video_size | intros s].
  destruct (s =? 0); [apply run_inv_emits; prove_emits |].
  cbv zeta. destruct (s <=? amount * 1024 * 1024).
  { apply run_inv_emits. prove_emits. }
  apply run_inv_bind_l; [now apply emits_only_echo | intros _].
  apply run_inv_bind_l; [now apply emits_only_echo | intros _].
  apply run_inv_bind_r; [apply video_run_end | intros go].
  destruct go; prove_emits.
Qed.

End VideoEnd.

Lemma renamed_is_last l :
  command_post l -> existsb is_rename l = true ->
  final_act is_rename is_echo l.
Proof.
  intros [[Hr _] | [(pre & e & -> & He & Hr & _) | [H _]]] Hren.
  - congruence.
  - rewrite existsb_app, Hr in Hren. simpl in Hren.
    destruct e as [| | | ? ? ? ? [] | | |]; discriminate.
  - exact H.
Qed.

Lemma failed_is_reported l :
  command_post l -> existsb is_failed_save l = true ->
  save_reported l /\ existsb is_rename l = false.
Proof.
  intros [[_ Hf] | [H | [_ Hf]]] Hfail; try congruence.
  split; [exact H |].
  destruct H as (pre & e & -> & He & Hr & _).
  rewrite existsb_app, Hr. simpl.
  destruct e as [| | | ? ? ? ? [] | | |]; try discriminate; reflexivity.
Qed.

(** X15: an [img.save] that raises ends an image command. The failed call
    is followed by the report of the error and by nothing else: no further
    pass, no rename, no closing message. Every path that is not a
    candidate path of the file holds what it held. *)
Theorem image_save_failure_is_final
    (pil_header : bytes -> option (Z * Z))
    (pil_save : format -> image -> Z -> encoded)
    (f : gmap string bytes) (file : string) (amount : Z)
    (output : option string) (max_iterations : Z) (w' : world) :
  w' = (image_compress_by_percent pil_header pil_save file amount output
          max_iterations (start f)).2
  \/ w' = (image_compress_to_size pil_header pil_save file amount output
             max_iterations (start f)).2 ->
  existsb is_failed_save (log w') = true ->
  save_reported (log w')
  /\ existsb is_rename (log w') = false
  /\ forall p, ~ In p (image_temps file) -> fs w' !! p = f !! p.
Proof.
  intros Hw Hfail.
  assert (Hpost : command_post (log w')).
  { destruct Hw as [-> | ->];
      [apply image_by_percent_end | apply image_to_size_end]. }
  destruct (failed_is_reported _ Hpost Hfail) as [Hrep Hren].
  split; [exact Hrep | split; [exact Hren |]].
  destruct Hw as [-> | ->].
  - destruct (frame_image_by_percent pil_header pil_save file output
                is_rename (fun q => In q (image_temps file))
                (fun t Ht => Ht) (or_introl (fun t => eq_refl))
                amount max_iterations (start f)) as (evs & Hl & Hf).
    rewrite Hl in Hren. apply existsb_suffix in Hren.
    intros p Hp. now apply Hf.
  - destruct (frame_image_to_size pil_header pil_save file output
                is_rename (fun q => In q (image_temps file))
                (fun t Ht => Ht) (or_introl (fun t => eq_refl))
                amount max_iterations (start f)) as (evs & Hl & Hf).
    rewrite Hl in Hren. apply existsb_suffix in Hren.
    intros p Hp. now apply Hf.
Qed.

(** An encoder that raises below quality 80: the third save fails. *)
Lemma image_save_failure_is_final_witness :
  let fragile_save := fun (_ : format) (_ : image) (q : Z) =>
    if q <? 80 then EncodeFailed None else Encoded (Fixtures.blob 2000) in
  let f := Fixtures.disk "photo.jpg" 1000 in
  let w' := (image_compress_by_percent Fixtures.header fragile_save
               "photo.jpg" 50 None 10 (start f)).2 in
  save_reported (log w')
  /\ existsb is_rename (log w') = false
  /\ forall p, ~ In p (image_temps "photo.jpg") -> fs w' !! p = f !! p.
Proof.
  intros fragile_save f w'.
  apply (image_save_failure_is_final Fixtures.header fragile_save f
           "photo.jpg" 50 None 10 w').
  - left. reflexivity.
  - vm_compute. reflexivity.
Defined.

(** X16: the rename of an image command is final. A run renames once at
    most, and after the rename it prints messages only: it saves, removes
    and renames nothing more. *)
Theorem image_rename_is_final
    (pil_header : bytes -> option (Z * Z))
    (pil_save : format -> image -> Z -> encoded)
    (f : gmap string bytes) (file : string) (amount : Z)
    (output : option string) (max_iterations : Z) (w' : world) :
  w' = (image_compress_by_percent pil_header pil_save file amount output
          max_iterations (start f)).2
  \/ w' = (image_compress_to_size pil_header pil_save file amount output
             max_iterations (start f)).2 ->
  existsb is_rename (log w') = true ->
  final_act is_rename is_echo (log w').
Proof.
  intros Hw. apply renamed_is_last.
  destruct Hw as [-> | ->];
    [apply image_by_percent_end | apply image_to_size_end].
Qed.

(** The sixth candidate of a JPEG of 1000 bytes is renamed. *)
Lemma image_rename_is_final_witness :
  final_act is_rename is_echo
    (log (image_compress_by_percent Fixtures.header Fixtures.linear_save
            "photo.jpg" 50 None 10
            (start (Fixtures.disk "photo.jpg" 1000))).2).
Proof.
  apply (image_rename_is_final Fixtures.header Fixtures.linear_save
           (Fixtures.disk "photo.jpg" 1000) "photo.jpg" 50 None 10).
  - left. reflexivity.
  - vm_compute. reflexivity.
Defined.

(** X17: the rename of a video command is final. A run renames once at
    most, and after the rename it prints messages only: ffmpeg is not
    called again and nothing is removed or renamed. *)
Theorem video_rename_is_final
    (ffprobe : bytes -> option video_info)
    (ffmpeg : bytes -> string -> option Z -> string -> encoded)
    (f : gmap string bytes) (file : string) (amount : Z)
    (output : option string) (preset : string) (max_iterations : Z)
    (w' : world) :
  w' = (video_compress_by_percent ffprobe ffmpeg file amount output preset
          max_iterations (start f)).2
  \/ w' = (video_compress_to_size ffprobe ffmpeg file amount output preset
             max_iterations (start f)).2 ->
  existsb is_rename (log w') = true ->
  final_act is_rename is_echo (log w').
Proof.
  intros Hw. apply renamed_is_last.
  destruct Hw as [-> | ->];
    [apply video_by_percent_end | apply video_to_size_end].
Qed.

(** The fourth candidate of a video of 1000 bytes is renamed. *)
Lemma video_rename_is_final_witness :
  final_act is_rename is_echo
    (log (video_compress_by_percent (Fixtures.probe (Present 8000) Absent)
            Fixtures.fifth_ffmpeg "a.mp4" 50 None "medium" 8
            (start (Fixtures.disk "a.mp4" 1000))).2).
Proof.
  apply (video_rename_is_final (Fixtures.probe (Present 8000) Absent)
           Fixtures.fifth_ffmpeg (Fixtures.disk "a.mp4" 1000) "a.mp4" 50
           None "medium" 8).
  - left. reflexivity.
  - vm_compute. reflexivity.
Defined.

(** ** The passes are numbered from 1, up to the cap *)

Lemma pass_numbers_app l l' :
  pass_numbers (l ++ l') = pass_numbers l ++ pass_numbers l'.
Proof. unfold pass_numbers. apply omap_app. Qed.

Lemma pass_numbers_quiet evs :
  forallb not_pass evs = true -> pass_numbers evs = [].
Proof.
  induction evs as [| e evs IH]; [reflexivity |]. simpl.
  intros H. apply andb_prop in H as [He H].
  unfold pass_numbers in *. cbn [omap list_omap]. rewrite (IH H).
  unfold not_pass in He. now destruct (pass_number e).
Qed.

Lemma counting_snoc k : counting (S k) = counting k ++ [Z.of_nat (S k)].
Proof. unfold counting. now rewrite seq_S, map_app. Qed.

Lemma announces_of_emits n {A} (m : M A) :
  emits_only not_pass m -> announces n m.
Proof.
  intros H w. destruct (H w) as (evs & Hl & Hev). exists evs, 0%nat.
  split; [exact Hl |]. split; [lia |]. now apply pass_numbers_quiet.
Qed.

Lemma announces_bind_l n {A B} (m : M A) (k : A -> M B) :
  emits_only not_pass m -> (forall a, announces n (k a)) ->
  announces n (bind m k).
Proof.
  intros Hm Hk w. unfold bind. destruct (Hm w) as (evs & Hl & Hev).
  pose proof (pass_numbers_quiet _ Hev) as H0.
  destruct (m w) as [[a | e |] w1]; simpl in *;
    try (exists evs, 0%nat; split; [exact Hl | split; [lia | exact H0]]).
  destruct (Hk a w1) as (evs' & j & Hl' & Hj & Hn).
  exists (evs ++ evs'), j. split; [now rewrite Hl', Hl, app_assoc |].
  split; [exact Hj |]. now rewrite pass_numbers_app, H0.
Qed.

Lemma announces_bind_r n {A B} (m : M A) (k : A -> M B) :
  announces n m -> (forall a, emits_only not_pass (k a)) ->
  announces n (bind m k).
Proof.
  intros Hm Hk w. unfold bind. destruct (Hm w) as (evs & j & Hl & Hj & Hn).
  destruct (m w) as [[a | e |] w1]; simpl in *;
    try (exists evs, j; split; [exact Hl | split; [exact Hj | exact Hn]]).
  destruct (Hk a w1) as (evs' & Hl' & Hev).
  exists (evs ++ evs'), j. split; [now rewrite Hl', Hl, app_assoc |].
  split; [exact Hj |].
  now rewrite pass_numbers_app, (pass_numbers_quiet _ Hev), app_nil_r.
Qed.

Lemma announces_try_except n {A} (body : M A) (handler : exn -> M A) :
  announces n body -> (forall e, emits_only not_pass (handler e)) ->
  announces n (try_except body handler).
Proof.
  intros Hm Hk w. unfold try_except.
  destruct (Hm w) as (evs & j & Hl & Hj & Hn).
  destruct (body w) as [[a | e |] w1]; simpl in *;
    try (exists evs, j; split; [exact Hl | split; [exact Hj | exact Hn]]).
  destruct (Hk e w1) as (evs' & Hl' & Hev).
  exists (evs ++ evs'), j. split; [now rewrite Hl', Hl, app_assoc |].
  split; [exact Hj |].
  now rewrite pass_numbers_app, (pass_numbers_quiet _ Hev), app_nil_r.
Qed.

Section Numbering.

Variable pil_header : bytes -> option (Z * Z).
Variable pil_save : format -> image -> Z -> encoded.
Variable ffprobe : bytes -> option video_info.
Variable ffmpeg : bytes -> string -> option Z -> string -> encoded.

Lemma numbered_exit w max_iterations i w1 :
  numbered w max_iterations i w1 -> numbered_end w max_iterations w1.
Proof.
  intros (evs & Hl & H0 & Hm & Hn). exists evs, (Z.to_nat i).
  split; [exact Hl |]. split; [lia | exact Hn].
Qed.

Lemma numbered_pass w max_iterations i w1 w2 pre e post :
  numbered w max_iterations i w1 ->
  i < max_iterations ->
  log w2 = log w1 ++ pre ++ e :: post ->
  forallb not_pass pre = true ->
  pass_number e = Some (i + 1) ->
  forallb not_pass post = true ->
  numbered w max_iterations (i + 1) w2
  /\ numbered_end w max_iterations w2.
Proof.
  intros (evs & Hl & H0 & Hm & Hn) Hlt Hlog Hpre He Hpost.
  assert (Hnum : pass_numbers (evs ++ pre ++ e :: post)
                 = counting (Z.to_nat (i + 1))).
  { rewrite !pass_numbers_app, Hn, (pass_numbers_quiet _ Hpre).
    change (e :: post) with ([e] ++ post).
    rewrite pass_numbers_app, (pass_numbers_quiet _ Hpost), app_nil_r.
    assert (H1 : pass_numbers [e] = [i + 1])
      by (unfold pass_numbers; cbn [omap list_omap]; now rewrite He).
    rewrite H1.
    replace (Z.to_nat (i + 1)) with (S (Z.to_nat i)) by lia.
    rewrite counting_snoc. simpl. repeat f_equal. lia. }
  split.
  - exists (evs ++ pre ++ e :: post).
    split; [now rewrite Hlog, Hl, <- app_assoc |].
    split; [lia |]. split; [right; lia | exact Hnum].
  - exists (evs ++ pre ++ e :: post), (Z.to_nat (i + 1)).
    split; [now rewrite Hlog, Hl, <- app_assoc |].
    split; [lia | exact Hnum].
Qed.

Lemma numbered_quiet w max_iterations i w1 w2 evs :
  numbered w max_iterations i w1 ->
  log w2 = log w1 ++ evs -> forallb not_pass evs = true ->
  numbered_end w max_iterations w2.
Proof.
  intros (evs0 & Hl & H0 & Hm & Hn) Hlog Hev.
  exists (evs0 ++ evs), (Z.to_nat i).
  split; [now rewrite Hlog, Hl, <- app_assoc |].
  split; [lia |].
  now rewrite pass_numbers_app, Hn, (pass_numbers_quiet _ Hev), app_nil_r.
Qed.

Lemma video_loop_numbered decay file output preset target original
    max_iterations fuel b :
  announces (Z.to_nat max_iterations)
    (video_loop ffmpeg decay file output preset target original
       max_iterations fuel
       {| current_bitrate := b; v_iterations := 0; temp_output := None |}).
Proof.
  intros w.
  destruct (video_loop ffmpeg decay file output preset target original
              max_iterations fuel _ w) as [r w'] eqn:Hrun.
  cbn [snd]. unfold video_loop in Hrun.
  refine (while_rule _ _
            (fun st w1 => numbered w max_iterations (v_iterations st) w1)
            (fun _ w1 => numbered_end w max_iterations w1)
            _ _ _ fuel _ w r w' _ Hrun).
  - intros st w1 H _. eapply numbered_exit, H.
  - intros st w1 H _. eapply numbered_exit, H.
  - intros st w1 rb wb HI Hc Hb.
    unfold video_cond in Hc. apply Z.ltb_lt in Hc.
    apply video_body_step in Hb.
    inversion Hb as
        [ e Ht
        | tb l w2 Ht He Hfs Hlog
        | tb d w2 Ht He Hle Hfs Hlog
        | tb d e w2 Ht He Hle Hd Hfs Hlog
        | tb d b' w2 Ht He Hle Hd Hfs Hlog ]; subst.
    + eapply numbered_exit, HI.
    + apply (numbered_pass _ _ _ _ _ [] _ _ HI Hc Hlog); reflexivity.
    + apply (numbered_pass _ _ _ _ _ [] _ _ HI Hc Hlog); reflexivity.
    + apply (numbered_pass _ _ _ _ _ [] _ _ HI Hc Hlog); reflexivity.
    + apply (numbered_pass _ _ _ _ _ [] _ _ HI Hc Hlog); reflexivity.
  - exists []. rewrite app_nil_r. simpl.
    split; [reflexivity |]. split; [lia |]. split; [now left | reflexivity].
Qed.

Lemma image_loop_numbered step floor file output target max_iterations fuel
    i q s :
  announces (Z.to_nat max_iterations)
    (image_loop pil_save step floor file output target max_iterations fuel
       {| img := i; quality := q; current_size := s; iterations := 0;
          temp_path := None |}).
Proof.
  intros w.
  destruct (image_loop pil_save step floor file output target max_iterations
              fuel _ w) as [r w'] eqn:Hrun.
  cbn [snd]. unfold image_loop in Hrun.
  refine (while_rule _ _
            (fun st w1 => numbered w max_iterations (iterations st) w1)
            (fun _ w1 => numbered_end w max_iterations w1)
            _ _ _ fuel _ w r w' _ Hrun).
  - intros st w1 H _. eapply numbered_exit, H.
  - intros st w1 H _. eapply numbered_exit, H.
  - intros st w1 rb wb HI Hc Hb.
    unfold image_cond in Hc. apply andb_prop in Hc as [_ Hc].
    apply Z.ltb_lt in Hc.
    apply image_body_step in Hb.
    inversion Hb as
      [ temp fmt i' l w2 Hp Hs Hfs Hlog
      | temp fmt i' d w2 Hp Hs Hle Hfs Hlog
      | temp fmt i' d w2 Hp Hs Hle Hfs Hlog
      | e Hp Hd
      | nw nh w2 Hp Hd Hnone Hfs Hlog
      | nw nh d w2 Hp Hd Hsome Hle Hfs Hlog
      | nw nh d w2 Hp Hd Hsome Hle Hfs Hlog ]; subst.
    + apply (numbered_quiet _ _ _ _ _ _ HI Hlog). reflexivity.
    + apply (numbered_pass _ _ _ _ _ [_] _ [_] HI Hc Hlog); reflexivity.
    + apply (numbered_pass _ _ _ _ _ [_] _ [_] HI Hc Hlog); reflexivity.
    + eapply numbered_exit, HI.
    + apply (numbered_quiet _ _ _ _ _ _ HI Hlog). reflexivity.
    + apply (numbered_pass _ _ _ _ _ [_] _ [_] HI Hc Hlog); reflexivity.
    + apply (numbered_pass _ _ _ _ _ [_] _ [_] HI Hc Hlog); reflexivity.
  - exists []. rewrite app_nil_r. simpl.
    split; [reflexivity |]. split; [lia |]. split; [now left | reflexivity].
Qed.

End Numbering.

Section NumberingCommands.

Variable pil_header : bytes -> option (Z * Z).
Variable pil_save : format -> image -> Z -> encoded.
Variable ffprobe : bytes -> option video_info.
Variable ffmpeg : bytes -> string -> option Z -> string -> encoded.

Lemma video_run_numbered decay file output preset target original
    max_iterations :
  announces (Z.to_nat max_iterations)
    (video_run ffprobe ffmpeg decay file output preset target original
       max_iterations).
Proof.
  unfold video_run. apply announces_bind_l.
  { intros w. exists []. rewrite app_nil_r. split; [| reflexivity].
    unfold get_video_info. now destruct (fs w !! file). }
  intros vi.
  destruct (info_missing vi); [apply announces_of_emits; prove_emits |].
  destruct vi as [vi |]; [| apply announces_of_emits; prove_emits].
  destruct (find_video_stream vi); [| apply announces_of_emits; prove_emits].
  apply announces_bind_l; [apply emits_only_lift | intros b].
  apply announces_bind_r; [apply video_loop_numbered |].
  intros st. unfold video_shortfall. prove_emits.
Qed.

Lemma image_run_numbered step floor file output target max_iterations
    original :
  announces (Z.to_nat max_iterations)
    (image_run pil_header pil_save step floor file output target
       max_iterations original).
Proof.
  unfold image_run. apply announces_bind_l; [apply emits_only_image_open |].
  intros i. apply announces_bind_r; [apply image_loop_numbered |].
  intros st. unfold image_shortfall. prove_emits.
Qed.

(** X18: a video command announces its passes as 1, 2, ..., [k], in that
    order and without a gap, and [k] is at most [--max-iterations]: no
    pass is announced beyond the cap, and none at all with a cap of 0 or
    less. *)
Theorem video_passes_are_numbered
    (f : gmap string bytes) (file : string) (amount : Z)
    (output : option string) (preset : string) (max_iterations : Z) :
  (exists k,
     (k <= Z.to_nat max_iterations)%nat
     /\ pass_numbers
          (log (video_compress_by_percent ffprobe ffmpeg file amount output
                  preset max_iterations (start f)).2) = counting k)
  /\ (exists k,
        (k <= Z.to_nat max_iterations)%nat
        /\ pass_numbers
             (log (video_compress_to_size ffprobe ffmpeg file amount output
                     preset max_iterations (start f)).2) = counting k).
Proof.
  split.
  - assert (H : announces (Z.to_nat max_iterations)
                  (video_compress_by_percent ffprobe ffmpeg file amount
                     output preset max_iterations)).
    { unfold video_compress_by_percent.
      apply announces_try_except; [| intros e; now apply emits_only_echo_err].
      apply announces_bind_l; [apply emits_only_get_video_size | intros s].
      destruct (s =? 0); [apply announces_of_emits; prove_emits |].
      apply announces_bind_l; [apply emits_only_lift | intros t].
      apply announces_bind_l; [now apply emits_only_echo | intros _].
      apply announces_bind_l; [now apply emits_only_echo | intros _].
      apply announces_bind_r; [apply video_run_numbered | intros go].
      destruct go; prove_emits. }
    destruct (H (start f)) as (evs & k & -> & Hk & Hn). now exists k.
  - assert (H : announces (Z.to_nat max_iterations)
                  (video_compress_to_size ffprobe ffmpeg file amount
                     output preset max_iterations)).
    { unfold video_compress_to_size.
      apply announces_try_except; [| intros e; now apply emits_only_echo_err].
      apply announces_bind_l; [apply emits_only_get_video_size | intros s].
      destruct (s =? 0); [apply announces_of_emits; prove_emits |].
      cbv zeta.
      destruct (s <=? amount * 1024 * 1024);
        [apply announces_of_emits; prove_emits |].
      apply announces_bind_l; [now apply emits_only_echo | intros _].
      apply announces_bind_l; [now apply emits_only_echo | intros _].
      apply announces_bind_r; [apply video_run_numbered | intros go].
      destruct go; prove_emits. }
    destruct (H (start f)) as (evs & k & -> & Hk & Hn). now exists k.
Qed.

(** X19: an image command announces its passes as 1, 2, ..., [k], in that
    order and without a gap, and [k] is at most [--max-iterations]: no
    pass is announced beyond the cap, whatever the kind of the file. *)
Theorem image_passes_are_numbered
    (f : gmap string bytes) (file : string) (amount : Z)
    (output : option string) (max_iterations : Z) :
  (exists k,
     (k <= Z.to_nat max_iterations)%nat
     /\ pass_numbers
          (log (image_compress_by_percent pil_header pil_save file amount
                  output max_iterations (start f)).2) = counting k)
  /\ (exists k,
        (k <= Z.to_nat max_iterations)%nat
        /\ pass_numbers
             (log (image_compress_to_size pil_header pil_save file amount
                     output max_iterations (start f)).2) = counting k).
Proof.
  split.
  - assert (H : announces (Z.to_nat max_iterations)
                  (image_compress_by_percent pil_header pil_save file amount
                     output max_iterations)).
    { unfold image_compress_by_percent.
      apply announces_try_except; [| intros e; now apply emits_only_echo_err].
      apply announces_bind_l; [apply emits_only_getsize | intros s].
      apply announces_bind_l; [apply emits_only_lift | intros t].
      apply announces_bind_l; [now apply emits_only_echo | intros _].
      apply announces_bind_l; [now apply emits_only_echo | intros _].
      apply announces_bind_r; [apply image_run_numbered | intros st].
      prove_emits. }
    destruct (H (start f)) as (evs & k & -> & Hk & Hn). now exists k.
  - assert (H : announces (Z.to_nat max_iterations)
                  (image_compress_to_size pil_header pil_save file amount
                     output max_iterations)).
    { unfold image_compress_to_size.
      apply announces_try_except; [| intros e; now apply emits_only_echo_err].
      apply announces_bind_l; [apply emits_only_getsize | intros s].
      cbv zeta.
      destruct (s <=? amount * 1024);
        [apply announces_of_emits; prove_emits |].
      apply announces_bind_l; [now apply emits_only_echo | intros _].
      apply announces_bind_l; [now apply emits_only_echo | intros _].
      apply announces_bind_r; [apply image_run_numbered | intros st].
      prove_emits. }
    destruct (H (start f)) as (evs & k & -> & Hk & Hn). now exists k.
Qed.

End NumberingCommands.

(** ** The kind of a file does not depend on the case of its name *)

Lemma lower_ascii_idem c :
  PyStr.lower_ascii (PyStr.lower_ascii c) = PyStr.lower_ascii c.
Proof. destruct c as [[] [] [] [] [] [] [] []]; reflexivity. Qed.

Lemma lower_idem s : PyStr.lower (PyStr.lower s) = PyStr.lower s.
Proof.
  induction s as [| c s IH]; [reflexivity |].
  simpl. now rewrite lower_ascii_idem, IH.
Qed.

Lemma lower_app a b :
  PyStr.lower (a ++ b) = (PyStr.lower a ++ PyStr.lower b)%string.
Proof.
  induction a as [| c a IH]; [reflexivity |].
  change (String (PyStr.lower_ascii c) (PyStr.lower (a ++ b))
          = String (PyStr.lower_ascii c)
              (PyStr.lower a ++ PyStr.lower b))%string.
  now rewrite IH.
Qed.

Lemma append_assoc a b c : ((a ++ b) ++ c = a ++ (b ++ c))%string.
Proof.
  induction a as [| x a IH]; [reflexivity |].
  change (String x ((a ++ b) ++ c) = String x (a ++ (b ++ c)))%string.
  now rewrite IH.
Qed.

Lemma append_nil_r a : (a ++ "")%string = a.
Proof.
  induction a as [| x a IH]; [reflexivity |].
  change (String x (a ++ "") = String x a)%string. now rewrite IH.
Qed.

Lemma rev_onto_app s : forall acc,
  PyStr.rev_onto s acc = (PyStr.rev_onto s EmptyString ++ acc)%string.
Proof.
  induction s as [| c s IH]; intros acc; [reflexivity |].
  cbn [PyStr.rev_onto].
  rewrite (IH (String c acc)), (IH (String c EmptyString)).
  now rewrite append_assoc.
Qed.

Lemma rev_app a b :
  PyStr.rev (a ++ b) = (PyStr.rev b ++ PyStr.rev a)%string.
Proof.
  unfold PyStr.rev. induction a as [| c a IH].
  - change (PyStr.rev_onto b "" = PyStr.rev_onto b "" ++ "")%string.
    now rewrite append_nil_r.
  - change (PyStr.rev_onto (a ++ b) (String c "")
            = PyStr.rev_onto b "" ++ PyStr.rev_onto a (String c ""))%string.
    rewrite rev_onto_app, IH, (rev_onto_app a (String c EmptyString)).
    now rewrite append_assoc.
Qed.

Lemma prefix_append a b : String.prefix a (a ++ b) = true.
Proof.
  induction a as [| c a IH]; [now destruct b |].
  change (String.prefix (String c a) (String c (a ++ b)) = true).
  cbn [String.prefix].
  destruct (ascii_dec c c); [exact IH | congruence].
Qed.

Lemma endswith_append x s : PyStr.endswith (x ++ s) s = true.
Proof. unfold PyStr.endswith. rewrite rev_app. apply prefix_append. Qed.

(** X20: the image commands pick the encoder from the end of the name of
    the file, without regard to case. A name and its lower-case form are
    of the same kind; and a name that ends, in any mix of cases, in
    [.jpg] or [.jpeg] is saved as JPEG, one in [.png] goes through the
    PNG branch, one in [.webp] is saved as WebP. *)
Theorem file_kind_ignores_case (file : string) :
  file_kind (PyStr.lower file) = file_kind file
  /\ forall stem ext,
       file = (stem ++ ext)%string ->
       (PyStr.lower ext = ".jpg"%string \/ PyStr.lower ext = ".jpeg"%string
        -> file_kind file = KJpeg)
       /\ (PyStr.lower ext = ".png"%string -> file_kind file = KPng)
       /\ (PyStr.lower ext = ".webp"%string -> file_kind file = KWebp).
Proof.
  split.
  - unfold file_kind. now rewrite lower_idem.
  - intros stem ext ->. unfold file_kind. cbv zeta. rewrite lower_app.
    split; [| split].
    + intros [-> | ->].
      * now rewrite endswith_append.
      * now rewrite (endswith_append _ ".jpeg"), orb_true_r.
    + intros ->. rewrite (endswith_append _ ".png").
      unfold PyStr.endswith. rewrite rev_app. reflexivity.
    + intros ->. rewrite (endswith_append _ ".webp").
      unfold PyStr.endswith. rewrite rev_app. reflexivity.
Qed.

(** [PHOTO.JPG] and [Scan.Png]. *)
Lemma file_kind_ignores_case_witness :
  file_kind "PHOTO.JPG" = KJpeg /\ file_kind "Scan.Png" = KPng.
Proof.
  split.
  - apply (proj1 (proj2 (file_kind_ignores_case "PHOTO.JPG") "PHOTO" ".JPG"
                    eq_refl)).
    left. reflexivity.
  - apply (proj1 (proj2 (proj2 (file_kind_ignores_case "Scan.Png") "Scan"
                           ".Png" eq_refl))).
    reflexivity.
Defined.

(** ** The final size that is reported is the size at the destination *)

Lemma final_sizes_app l l' :
  final_sizes (l ++ l') = final_sizes l ++ final_sizes l'.
Proof. unfold final_sizes. apply omap_app. Qed.

Lemma final_sizes_quiet evs :
  forallb not_final evs = true -> final_sizes evs = [].
Proof.
  induction evs as [| e evs IH]; [reflexivity |]. simpl.
  intros H. apply andb_prop in H as [He H].
  unfold final_sizes in *. cbn [omap list_omap]. rewrite (IH H).
  unfold not_final in He. now destruct (final_size e).
Qed.

Lemma reports_of_emits measure out {A} (m : M A) :
  emits_only not_final m -> reports measure out m.
Proof.
  intros H w Hw. destruct (H w) as (evs & Hl & Hev). left.
  now rewrite Hl, final_sizes_app, Hw, (final_sizes_quiet _ Hev).
Qed.

Lemma reports_bind_l measure out {A B} (m : M A) (k : A -> M B) :
  emits_only not_final m -> (forall a, reports measure out (k a)) ->
  reports measure out (bind m k).
Proof.
  intros Hm Hk w Hw. unfold bind. destruct (Hm w) as (evs & Hl & Hev).
  assert (Hw1 : final_sizes (log (m w).2) = [])
    by now rewrite Hl, final_sizes_app, Hw, (final_sizes_quiet _ Hev).
  destruct (m w) as [[a | e |] w1]; simpl in *; try (now left).
  now apply Hk.
Qed.

Lemma reports_try_except measure out (body : M unit) :
  reports measure out body ->
  reports measure out (try_except body (fun e => echo_err (MsgError e))).
Proof.
  intros Hb w Hw. unfold try_except. specialize (Hb w Hw).
  destruct (body w) as [[a | e |] w1]; simpl in *; try exact Hb.
  destruct Hb as [H | (n & Hn & H)]; [left | right; exists n; split];
    simpl; rewrite ?final_sizes_app, ?H; auto.
Qed.

Section FinalSize.

Variable pil_header : bytes -> option (Z * Z).
Variable pil_save : format -> image -> Z -> encoded.
Variable ffprobe : bytes -> option video_info.
Variable ffmpeg : bytes -> string -> option Z -> string -> encoded.

Lemma image_body_not_final step floor file output target st :
  emits_only not_final (image_body pil_save step floor file output target st).
Proof.
  intros w.
  destruct (image_body pil_save step floor file output target st w)
    as [r w'] eqn:Hb.
  apply image_body_step in Hb. cbn [snd].
  inversion Hb as
      [ temp fmt i l w1 Hp Hs Hfs Hlog
      | temp fmt i d w1 Hp Hs Hle Hfs Hlog
      | temp fmt i d w1 Hp Hs Hle Hfs Hlog
      | e Hp Hd
      | nw nh w1 Hp Hd Hnone Hfs Hlog
      | nw nh d w1 Hp Hd Hsome Hle Hfs Hlog
      | nw nh d w1 Hp Hd Hsome Hle Hfs Hlog ]; subst;
    try (eexists; split; [exact Hlog | reflexivity]).
  exists []. now rewrite app_nil_r.
Qed.

Lemma video_body_not_final decay file output preset target original st :
  emits_only not_final
    (video_body ffmpeg decay file output preset target original st).
Proof.
  intros w.
  destruct (video_body ffmpeg decay file output preset target original st w)
    as [r w'] eqn:Hb.
  apply video_body_step in Hb. cbn [snd].
  inversion Hb as
      [ e Ht
      | tb l w2 Ht He Hfs Hlog
      | tb d w2 Ht He Hle Hfs Hlog
      | tb d e w2 Ht He Hle Hd Hfs Hlog
      | tb d b' w2 Ht He Hle Hd Hfs Hlog ]; subst;
    try (eexists; split; [exact Hlog | reflexivity]).
  exists []. now rewrite app_nil_r.
Qed.

Lemma image_run_not_final step floor file output target max_iterations
    original :
  emits_only not_final
    (image_run pil_header pil_save step floor file output target
       max_iterations original).
Proof.
  unfold image_run.
  apply emits_only_bind; [apply emits_only_image_open | intros i].
  apply emits_only_bind.
  { apply emits_only_while. intros st. apply image_body_not_final. }
  intros st. unfold image_shortfall. prove_emits.
Qed.

Lemma video_run_not_final decay file output preset target original
    max_iterations :
  emits_only not_final
    (video_run ffprobe ffmpeg decay file output preset target original
       max_iterations).
Proof.
  unfold video_run. apply emits_only_bind.
  { intros w. exists []. rewrite app_nil_r. split; [| reflexivity].
    unfold get_video_info. now destruct (fs w !! file). }
  intros vi.
  destruct (info_missing vi); [prove_emits |].
  destruct vi as [vi |]; [| prove_emits].
  destruct (find_video_stream vi); [| prove_emits].
  apply emits_only_bind; [apply emits_only_lift | intros b].
  apply emits_only_bind.
  { apply emits_only_while. intros st. apply video_body_not_final. }
  intros st. unfold video_shortfall. prove_emits.
Qed.

(** The closing lines of the commands. *)
Lemma image_closing_reports out {A} (k : Z -> M A) :
  (forall n, keeps_fs (k n)) ->
  (forall n w, final_sizes (log w) = [] ->
               final_sizes (log (k n w).2) = []
               \/ final_sizes (log (k n w).2) = [n]) ->
  reports size_at out (bind (getsize out) k).
Proof.
  intros Hfs Hk w Hw. unfold bind, getsize.
  destruct (fs w !! out) as [d |] eqn:Hd; [| now left].
  specialize (Hk (size_of d) w Hw). specialize (Hfs (size_of d) w).
  destruct (k (size_of d) w) as [[a | e |] w1]; simpl in *;
    (destruct Hk as [H | H]; [now left | right]);
    exists (size_of d); rewrite Hfs, Hd; now split.
Qed.

Lemma video_closing_reports out {A} (k : Z -> M A) :
  (forall n, keeps_fs (k n)) ->
  (forall n w, final_sizes (log w) = [] ->
               final_sizes (log (k n w).2) = []
               \/ final_sizes (log (k n w).2) = [n]) ->
  reports video_size_at out (bind (get_video_size out) k).
Proof.
  intros Hfs Hk w Hw. unfold bind, get_video_size, try_except, getsize.
  unfold reported, video_size_at.
  destruct (fs w !! out) as [d |] eqn:Hd; cbv beta iota; unfold ret.
  - specialize (Hk (size_of d) w Hw). specialize (Hfs (size_of d) w).
    destruct (k (size_of d) w) as [[a | e |] w1]; simpl in *;
      (destruct Hk as [H | H]; [now left | right]);
      exists (size_of d); rewrite Hfs, Hd; now split.
  - specialize (Hk 0 w Hw). specialize (Hfs 0 w).
    destruct (k 0 w) as [[a | e |] w1]; simpl in *;
      (destruct Hk as [H | H]; [now left | right]);
      exists 0; rewrite Hfs, Hd; now split.
Qed.

Lemma one_final_size n w :
  final_sizes (log w) = [] ->
  final_sizes (log (emit (Echo (MsgFinalSize n)) w)) = [n].
Proof. intros H. simpl. now rewrite final_sizes_app, H. Qed.

(** X21: the size that an image command prints as its final size is the
    size of the file that lies at the destination when the command
    returns. It is printed once at most. *)
Theorem image_final_size_is_accurate
    (f : gmap string bytes) (file : string) (amount : Z)
    (output : option string) (max_iterations : Z) :
  reported size_at (out_path output file)
    (image_compress_by_percent pil_header pil_save file amount output
       max_iterations (start f)).2
  /\ reported size_at (out_path output file)
       (image_compress_to_size pil_header pil_save file amount output
          max_iterations (start f)).2.
Proof.
  split.
  - unfold image_compress_by_percent.
    apply reports_try_except; [| reflexivity].
    apply reports_bind_l; [apply emits_only_getsize | intros s].
    apply reports_bind_l; [apply emits_only_lift | intros t].
    apply reports_bind_l; [now apply emits_only_echo | intros _].
    apply reports_bind_l; [now apply emits_only_echo | intros _].
    apply reports_bind_l; [apply image_run_not_final | intros st].
    apply image_closing_reports.
    + intros n. prove_keeps.
    + intros n w Hw. unfold bind, lift.
      destruct (Py.int_truediv (s - n) s); [| now left].
      right. simpl. rewrite !final_sizes_app, Hw. reflexivity.
  - unfold image_compress_to_size.
    apply reports_try_except; [| reflexivity].
    apply reports_bind_l; [apply emits_only_getsize | intros s].
    cbv zeta. destruct (s <=? amount * 1024).
    { apply reports_of_emits. prove_emits. }
    apply reports_bind_l; [now apply emits_only_echo | intros _].
    apply reports_bind_l; [now apply emits_only_echo | intros _].
    apply reports_bind_l; [apply image_run_not_final | intros st].
    apply image_closing_reports.
    + intros n. prove_keeps.
    + intros n w Hw. right. now apply one_final_size.
Qed.

(** X22: the size that a video command prints as its final size is the
    size of the file that lies at the destination when the command
    returns, or 0 if nothing lies there. It is printed once at most. *)
Theorem video_final_size_is_accurate
    (f : gmap string bytes) (file : string) (amount : Z)
    (output : option string) (preset : string) (max_iterations : Z) :
  reported video_size_at (out_path output file)
    (video_compress_by_percent ffprobe ffmpeg file amount output preset
       max_iterations (start f)).2
  /\ reported video_size_at (out_path output file)
       (video_compress_to_size ffprobe ffmpeg file amount output preset
          max_iterations (start f)).2.
Proof.
  split.
  - unfold video_compress_by_percent.
    apply reports_try_except; [| reflexivity].
    apply reports_bind_l; [apply emits_only_get_video_size | intros s].
    destruct (s =? 0); [apply reports_of_emits; prove_emits |].
    apply reports_bind_l; [apply emits_only_lift | intros t].
    apply reports_bind_l; [now apply emits_only_echo | intros _].
    apply reports_bind_l; [now apply emits_only_echo | intros _].
    apply reports_bind_l; [apply video_run_not_final | intros go].
    destruct go; [| apply reports_of_emits; prove_emits].
    apply video_closing_reports.
    + intros n. prove_keeps.
    + intros n w Hw. unfold bind, lift.
      destruct (Py.int_truediv (s - n) s); [| now left].
      right. simpl. rewrite !final_sizes_app, Hw. reflexivity.
  - unfold video_compress_to_size.
    apply reports_try_except; [| reflexivity].
    apply reports_bind_l; [apply emits_only_get_video_size | intros s].
    destruct (s =? 0); [apply reports_of_emits; prove_emits |].
    cbv zeta. destruct (s <=? amount * 1024 * 1024).
    { apply reports_of_emits. prove_emits. }
    apply reports_bind_l; [now apply emits_only_echo | intros _].
    apply reports_bind_l; [now apply emits_only_echo | intros _].
    apply reports_bind_l; [apply video_run_not_final | intros go].
    destruct go; [| apply reports_of_emits; prove_emits].
    apply video_closing_reports.
    + intros n. prove_keeps.
    + intros n w Hw. right. now apply one_final_size.
Qed.

End FinalSize.
